(** * AURELIUS runtime core: data client, rate limiter, sanitizer

    A shallow embedding of
    - [aurelius/db/redis_client.py]  (class [AureliusDataClient]),
    - [aurelius/utils/rate_limit.py] (class [AureliusRateLimiter] and the
      module-level helpers),
    - the rate-limit guard of [aurelius/main.py] ([_social_posting_loop]),
    - [aurelius/utils/security.py]   ([SecurityValidator.sanitize_text],
      [detect_sql_injection], [validate_social_content] and the
      module-level [sanitize_for_social]),
    followed by the properties of the specification, each stated against
    these definitions.

    Conventions of the embedding.
    - Python [int] is [Z]; Python [str] is [string], one character per code
      point, code points 0..255.  A float that is stored or read is a
      [Py.pyfloat]; the arithmetic of the 90% threshold of
      [check_rate_limit] is modelled exactly (see [Float]); the
      display-only ['percentage'] fields are left out.
    - [datetime.now()] is a parameter [now : Z] of every operation that
      reads the clock: microseconds since 0001-01-01T00:00:00, naive local
      time.  One API call reads one clock value.
    - [async]/[await] is sequential composition: the code has no
      interleaving inside the modelled operations.
    - An operation that the source wraps in [try]/[except] returns its
      sentinel where the source does; logging is not modelled. *)

From Stdlib Require Import ZArith String Ascii List Bool Lia.
From stdpp Require Import base decidable option list strings pretty gmap fin_maps.

Local Open Scope Z_scope.

(** ** Python values *)

Module Py.

(** A float, by what the modelled code observes of it: [repr(x)], which
    [json.dumps] writes and from which [json.loads] reads the same float
    back; [bool(x)]; [int(x)], [None] for an infinity or a NaN, where
    [int] raises; and [x.is_integer()].  Every float has these four; the
    code does no arithmetic on a float it stores or reads. *)
Record pyfloat : Type := PyFloat {
  float_repr : string;
  float_true : bool;
  float_int : option Z;
  float_is_integer : bool
}.

#[global] Instance pyfloat_eq_dec : EqDecision pyfloat.
Proof. solve_decision. Defined.

(** Dictionary keys.  [KOther] stands for a hashable object that is none
    of the others (a tuple, a frozenset, ...), named by its [repr].  A
    NaN as key, which is equal to no key, is not modelled. *)
Inductive key : Type :=
| KStr (s : string)
| KInt (n : Z)
| KBool (b : bool)
| KNone
| KOther (repr : string)
| KFloat (x : pyfloat).

(** Values.  A dictionary is the list of its items in insertion order;
    [VObj] is an object of another class that is true in a condition (a
    [datetime], a [Decimal], ...), of which the model keeps [str(obj)]. *)
#[local] Unset Elimination Schemes.
Inductive value : Type :=
| VNone
| VBool (b : bool)
| VInt (n : Z)
| VStr (s : string)
| VList (xs : list value)
| VTuple (xs : list value)
| VDict (items : list (key * value))
| VObj (str : string)
| VFloat (x : pyfloat).
#[local] Set Elimination Schemes.

#[global] Instance key_eq_dec : EqDecision key.
Proof. solve_decision. Defined.

(** [True == 1], [False == 0] and [1.0 == 1], also as dictionary keys. *)
Definition key_norm (k : key) : key :=
  match k with
  | KBool b => KInt (Z.b2z b)
  | KFloat x =>
      match float_int x with
      | Some n => if float_is_integer x then KInt n else k
      | None => k
      end
  | _ => k
  end.

Definition key_eqb (k1 k2 : key) : bool :=
  bool_decide (key_norm k1 = key_norm k2).

(** [d[k] = v]: an existing key keeps its position. *)
Fixpoint dict_set (k : key) (v : value) (d : list (key * value))
  : list (key * value) :=
  match d with
  | [] => [(k, v)]
  | (k', v') :: d' =>
      if key_eqb k k' then (k', v) :: d' else (k', v') :: dict_set k v d'
  end.

(** [d.get(k)] *)
Fixpoint dict_get (k : key) (d : list (key * value)) : value :=
  match d with
  | [] => VNone
  | (k', v') :: d' => if key_eqb k k' then v' else dict_get k d'
  end.

(** [bool(v)], the test behind [if v], [not v] and [v or w]. *)
Definition truthy (v : value) : bool :=
  match v with
  | VNone => false
  | VBool b => b
  | VInt n => negb (n =? 0)
  | VStr s => negb (String.eqb s EmptyString)
  | VList xs | VTuple xs => negb (bool_decide (xs = []))
  | VDict items => negb (bool_decide (items = []))
  | VObj _ => true
  | VFloat x => float_true x
  end.

(** [v or w] *)
Definition or_else (v w : value) : value := if truthy v then v else w.

(** [c.isspace()] on code points 0..255. *)
Definition isspace (c : ascii) : bool :=
  let n := Z.of_N (N_of_ascii c) in
  ((9 <=? n) && (n <=? 13)) || ((28 <=? n) && (n <=? 32))
  || (n =? 133) || (n =? 160).

Fixpoint lstrip (s : string) : string :=
  match s with
  | String c s' => if isspace c then lstrip s' else s
  | EmptyString => s
  end.

(** Drops trailing white space; the result is [s] itself when the last
    character is not a space. *)
Fixpoint rstrip (s : string) : string :=
  match s with
  | String c s' =>
      match rstrip s' with
      | EmptyString => if isspace c then EmptyString else String c EmptyString
      | r => String c r
      end
  | EmptyString => EmptyString
  end.

(** [s.strip()] *)
Definition strip (s : string) : string := rstrip (lstrip s).

Definition digit_of (c : ascii) : option Z :=
  let n := Z.of_N (N_of_ascii c) in
  if (48 <=? n) && (n <=? 57) then Some (n - 48) else None.

(** Decimal digits with single underscores between them. *)
Fixpoint digits_value (acc : Z) (after_digit : bool) (s : string) : option Z :=
  match s with
  | EmptyString => if after_digit then Some acc else None
  | String c s' =>
      if Ascii.eqb c "_"
      then (if after_digit then digits_value acc false s' else None)
      else match digit_of c with
           | Some d => digits_value (10 * acc + d) true s'
           | None => None
           end
  end.

(** The white space [int] accepts around the digits: tab to carriage
    return and the space, as bytes, and of the other code points those
    that are Unicode white space (0x85 and 0xA0).  The separators 0x1C
    to 0x1F, which [str.strip] drops, are not among them. *)
Definition int_space (c : ascii) : bool :=
  let n := Z.of_N (N_of_ascii c) in
  ((9 <=? n) && (n <=? 13)) || (n =? 32) || (n =? 133) || (n =? 160).

Fixpoint int_lstrip (s : string) : string :=
  match s with
  | String c s' => if int_space c then int_lstrip s' else s
  | EmptyString => s
  end.

Fixpoint int_rstrip (s : string) : string :=
  match s with
  | String c s' =>
      match int_rstrip s' with
      | EmptyString => if int_space c then EmptyString else String c EmptyString
      | r => String c r
      end
  | EmptyString => EmptyString
  end.

(** [int(s)] for a string: [None] is [ValueError]. *)
Definition int_of_str (s : string) : option Z :=
  match int_rstrip (int_lstrip s) with
  | String "-" r => Z.opp <$> digits_value 0 false r
  | String "+" r => digits_value 0 false r
  | r => digits_value 0 false r
  end.

(** [int(v)]: [None] is [ValueError], [TypeError] or [OverflowError]. *)
Definition int_of (v : value) : option Z :=
  match v with
  | VInt n => Some n
  | VBool b => Some (Z.b2z b)
  | VStr s => int_of_str s
  | VFloat x => float_int x
  | _ => None
  end.

(** [s.lower()] on code points 0..255: A-Z and the upper-case letters of
    the Latin-1 block. *)
Definition lower_char (c : ascii) : ascii :=
  let n := N_of_ascii c in
  if ((65 <=? n) && (n <=? 90))%N
     || ((192 <=? n) && (n <=? 222) && negb (n =? 215))%N
  then ascii_of_N (n + 32) else c.

Fixpoint lower (s : string) : string :=
  match s with
  | String c s' => String (lower_char c) (lower s')
  | EmptyString => EmptyString
  end.

End Py.

(** ** JSON documents

    What [json.dumps] writes and [json.loads] reads, as a tree.  The file
    of a local entry is modelled by the document it holds; the text of a
    document is needed only where the source keeps it as a Python string
    ([Json.text], the default [json.dumps] layout). *)

Module Json.

#[local] Unset Elimination Schemes.
Inductive doc : Type :=
| JNull
| JBool (b : bool)
| JInt (n : Z)
| JStr (s : string)
| JArr (xs : list doc)
| JObj (members : list (string * doc))
| JFloat (x : Py.pyfloat).
#[local] Set Elimination Schemes.

(** The text of a float in JSON: its [repr], or [NaN], [Infinity],
    [-Infinity]. *)
Definition float_text (x : Py.pyfloat) : string :=
  let r := Py.float_repr x in
  if String.eqb r "nan" then "NaN"
  else if String.eqb r "inf" then "Infinity"
  else if String.eqb r "-inf" then "-Infinity"
  else r.

(** The member name [json.dumps] writes for a dictionary key; [None] is
    the [TypeError] for a key that is not [str], [int], [float], [bool]
    or [None] ([default] is not consulted for keys). *)
Definition key_name (k : Py.key) : option string :=
  match k with
  | Py.KStr s => Some s
  | Py.KInt n => Some (pretty n)
  | Py.KBool true => Some "true"%string
  | Py.KBool false => Some "false"%string
  | Py.KNone => Some "null"%string
  | Py.KOther _ => None
  | Py.KFloat x => Some (float_text x)
  end.

(** [json.dumps(v)] as a document; with [default_str] it is
    [json.dumps(v, default=str)].  [None] is [TypeError]. *)
Fixpoint dumps (default_str : bool) (v : Py.value) : option doc :=
  match v with
  | Py.VNone => Some JNull
  | Py.VBool b => Some (JBool b)
  | Py.VInt n => Some (JInt n)
  | Py.VStr s => Some (JStr s)
  | Py.VList xs | Py.VTuple xs => JArr <$> mapM (dumps default_str) xs
  | Py.VDict items =>
      JObj <$> mapM (λ item, n ← key_name item.1;
                             j ← dumps default_str item.2;
                             Some (n, j)) items
  | Py.VObj str => if default_str then Some (JStr str) else None
  | Py.VFloat x => Some (JFloat x)
  end.

(** [json.loads]: arrays become lists, objects become dictionaries with
    string keys, a repeated member name keeps its last value. *)
Fixpoint loads (j : doc) : Py.value :=
  match j with
  | JNull => Py.VNone
  | JBool b => Py.VBool b
  | JInt n => Py.VInt n
  | JStr s => Py.VStr s
  | JArr xs => Py.VList (map loads xs)
  | JObj members =>
      Py.VDict
        (foldl (λ acc member, Py.dict_set (Py.KStr member.1) (loads member.2) acc)
               [] members)
  | JFloat x => Py.VFloat x
  end.

Definition dquote : ascii := ascii_of_N 34.
Definition backslash : ascii := ascii_of_N 92.

Definition hex_digit (n : N) : ascii :=
  if (n <? 10)%N then ascii_of_N (48 + n) else ascii_of_N (87 + n).

(** One character of a string literal, [ensure_ascii=True]. *)
Definition escape_char (c : ascii) : string :=
  let n := N_of_ascii c in
  let esc (x : ascii) := String backslash (String x EmptyString) in
  if (n =? 34)%N then esc dquote
  else if (n =? 92)%N then esc backslash
  else if (n =? 8)%N then esc "b"%char
  else if (n =? 9)%N then esc "t"%char
  else if (n =? 10)%N then esc "n"%char
  else if (n =? 12)%N then esc "f"%char
  else if (n =? 13)%N then esc "r"%char
  else if ((n <? 32) || (126 <? n))%N
       then String backslash
              ("u00" +:+ String (hex_digit (n / 16)) (String (hex_digit (n mod 16)) EmptyString))
  else String c EmptyString.

Fixpoint escape (s : string) : string :=
  match s with
  | String c s' => escape_char c +:+ escape s'
  | EmptyString => EmptyString
  end.

Definition quote (s : string) : string :=
  String dquote (escape s +:+ String dquote EmptyString).

(** The text [json.dumps] returns for a document. *)
Fixpoint text (j : doc) : string :=
  match j with
  | JNull => "null"
  | JBool true => "true"
  | JBool false => "false"
  | JInt n => pretty n
  | JStr s => quote s
  | JArr xs => "[" +:+ String.concat ", " (map text xs) +:+ "]"
  | JObj members =>
      "{" +:+ String.concat ", "
                (map (λ member, quote member.1 +:+ ": " +:+ text member.2) members)
          +:+ "}"
  | JFloat x => float_text x
  end.

End Json.

(** ** The clock *)

Module Clock.

Definition usec_per_second : Z := 1000000.
Definition usec_per_day : Z := 86400 * usec_per_second.

(** [datetime.max] is 9999-12-31T23:59:59.999999, the last microsecond of
    day 3652059 (days are numbered from 1, as [date.toordinal] does). *)
Definition max_ordinal : Z := 3652059.
Definition datetime_end : Z := max_ordinal * usec_per_day.

Definition valid (t : Z) : Prop := 0 <= t < datetime_end.

(** [now + timedelta(seconds=secs)]; [None] is the [OverflowError] of a
    result outside [datetime.min .. datetime.max]. *)
Definition add_seconds (now secs : Z) : option Z :=
  let t := now + secs * usec_per_second in
  if (0 <=? t) && (t <? datetime_end) then Some t else None.

(** [date.toordinal()] *)
Definition ordinal (t : Z) : Z := t / usec_per_day + 1.

(** [date.weekday()]: Monday is 0. *)
Definition weekday (t : Z) : Z := (ordinal t + 6) mod 7.

End Clock.

(** ** The primary store

    The networked store is outside the repository.  The client sees it
    through the calls below; each call either returns or raises, and may
    change the store.  A reply string is given together with what
    [json.loads] makes of it: [JsonText j] is a string that parses to the
    document [j], [PlainText s] a string [s] that [json.loads] rejects. *)

Inductive outcome (A : Type) : Type :=
| Raised
| Returned (a : A).
Arguments Raised {A}.
Arguments Returned {A} a.

Inductive reply : Type :=
| JsonText (j : Json.doc)
| PlainText (s : string).

Class Primary (R : Type) : Type := {
  redis_set : R → string → Py.value → option Z → outcome unit * R;
  redis_get : R → string → outcome (option reply) * R;
  redis_delete : R → string → outcome Z * R;
  redis_exists : R → string → outcome Z * R;
  redis_keys : R → string → outcome (list string) * R;
  redis_incrby : R → string → Z → outcome Z * R;
  redis_hset : R → string → string → Py.value → outcome unit * R;
  redis_hget : R → string → string → outcome (option reply) * R;
  redis_hgetall : R → string → outcome (list (string * reply)) * R
}.

(** A primary store that cannot be reached: every call raises. *)
#[global] Instance unreachable : Primary unit := {
  redis_set r _ _ _ := (Raised, r);
  redis_get r _ := (Raised, r);
  redis_delete r _ := (Raised, r);
  redis_exists r _ := (Raised, r);
  redis_keys r _ := (Raised, r);
  redis_incrby r _ _ := (Raised, r);
  redis_hset r _ _ _ := (Raised, r);
  redis_hget r _ _ := (Raised, r);
  redis_hgetall r _ := (Raised, r)
}.

(** ** [AureliusDataClient] *)

Module DataClient.

(** The document [_set_local] writes to [<key>.json].  [created_at] and
    [expires_at] are kept as clock values: [isoformat] and
    [fromisoformat] are inverse to each other. *)
Record entry : Type := Entry {
  value : Json.doc;
  created_at : Z;
  expires_at : option Z
}.

(** The fallback directory, by key: the file of [key] is [<key>.json],
    and the directory can be written.  [Some None] is a file that holds
    no document: [_set_local] opens the file for writing, which empties
    it, before [json.dumps] runs.  Only keys that are file names
    ([file_key]) have a file. *)
Abbreviation files := (gmap string (option entry)).

(** *** Keys as file names

    What the operating system makes of the path [<key>.json] in the
    fallback directory (a Linux file system, names in UTF-8, at most 255
    bytes each). *)

Inductive name_kind : Type :=
| FileName   (* a file of the directory, there or not *)
| NoFile     (* no file can be there: [exists()] is false, opening raises *)
| TooLong.   (* every call on the path raises [OSError] *)

(** Bytes of [s] in UTF-8. *)
Fixpoint utf8_length (s : string) : Z :=
  match s with
  | String c s' => (if (N_of_ascii c <? 128)%N then 1 else 2) + utf8_length s'
  | EmptyString => 0
  end.

Fixpoint has_char (x : ascii) (s : string) : bool :=
  match s with
  | String c s' => Ascii.eqb c x || has_char x s'
  | EmptyString => false
  end.

(** The part of [s] before its first [/]. *)
Fixpoint first_component (s : string) : string :=
  match s with
  | String c s' => if Ascii.eqb c "/" then EmptyString else String c (first_component s')
  | EmptyString => EmptyString
  end.

(** A NUL is refused before the operating system is asked.  A key with
    a [/] is a path into a subdirectory: the fallback directory is taken
    to have none, and the key not to lead out of it (its first component
    is not empty, [.] or [..]), so the path leads nowhere. *)
Definition name_kind_of (key : string) : name_kind :=
  if has_char zero key then NoFile
  else if has_char "/" key
       then (if 255 <? utf8_length (first_component key) then TooLong else NoFile)
       else (if 255 <? utf8_length key + 5 then TooLong else FileName).

(** The key names a file of the directory. *)
Definition file_key (key : string) : bool :=
  match name_kind_of key with
  | FileName => true
  | _ => false
  end.

Section local.

Implicit Types (fs : files) (key field : string) (now : Z).

(** The dictionary [data] is built first (its expiry can overflow); then
    the file is opened, which fails for a key that is no file name and
    empties the file otherwise; then [json.dumps] runs. *)
Definition _set_local fs key (v : Py.value) (expire : option Z) now
  : bool * files :=
  let expires :=
    match expire with
    | Some e => if e =? 0 then Some None else Some <$> Clock.add_seconds now e
    | None => Some None
    end in
  match expires with
  | Some ex =>
      if file_key key then
        match Json.dumps true v with
        | Some j => (true, <[key := Some (Entry j now ex)]> fs)
        | None => (false, <[key := None]> fs)
        end
      else (false, fs)
  | None => (false, fs)
  end.

(** [file_path.exists()] is false where no file can be, and raises for a
    name that is too long. *)
Definition _delete_local fs key : bool * files :=
  match name_kind_of key with
  | FileName => (true, delete key fs)
  | NoFile => (true, fs)
  | TooLong => (false, fs)
  end.

Definition _get_local fs key now : Py.value * files :=
  if file_key key then
    match fs !! key with
    | Some (Some e) =>
        match expires_at e with
        | Some t =>
            if t <? now then (Py.VNone, (_delete_local fs key).2)
            else (Json.loads (value e), fs)
        | None => (Json.loads (value e), fs)
        end
    | Some None => (Py.VNone, fs)
    | None => (Py.VNone, fs)
    end
  else (Py.VNone, fs).

(** For a name that is too long [file_path.exists()] raises; [exists],
    the only caller, returns [False] then. *)
Definition _exists_local fs key : bool :=
  file_key key && bool_decide (is_Some (fs !! key)).

(** [pattern.replace('*', '')] *)
Fixpoint drop_stars (pattern : string) : string :=
  match pattern with
  | String c p => if Ascii.eqb c "*" then drop_stars p else String c (drop_stars p)
  | EmptyString => EmptyString
  end.

(** [file_path.stem]: the name without [.json]; the file of the empty
    key is [.json], a name without suffix. *)
Definition stem (key : string) : string :=
  if String.eqb key EmptyString then ".json" else key.

(** The order of [glob] is the directory's; the model lists the map. *)
Definition _keys_local fs (pattern : string) : list string :=
  filter (λ key, String.eqb pattern "*" || String.prefix (drop_stars pattern) key = true)
         (stem <$> (map_to_list fs).*1).

Definition _increment_local fs key (amount : Z) now : Z * files :=
  let '(current, fs1) := _get_local fs key now in
  match Py.int_of (Py.or_else current (Py.VInt 0)) with
  | Some n =>
      let new_value := n + amount in
      (new_value, (_set_local fs1 key (Py.VInt new_value) None now).2)
  | None => (0, fs1)
  end.

(** [hash_data[field] = value] succeeds on a dictionary only. *)
Definition _set_hash_local fs key field (v : Py.value) now : bool * files :=
  let '(current, fs1) := _get_local fs key now in
  match Py.or_else current (Py.VDict []) with
  | Py.VDict items =>
      _set_local fs1 key (Py.VDict (Py.dict_set (Py.KStr field) v items)) None now
  | _ => (false, fs1)
  end.

(** [hash_data.get(field)]: only a dictionary has [get]. *)
Definition _get_hash_local fs key field now : Py.value * files :=
  let '(current, fs1) := _get_local fs key now in
  match Py.or_else current (Py.VDict []) with
  | Py.VDict items => (Py.dict_get (Py.KStr field) items, fs1)
  | _ => (Py.VNone, fs1)
  end.

Definition _get_all_hash_local fs key now : Py.value * files :=
  let '(current, fs1) := _get_local fs key now in
  (Py.or_else current (Py.VDict []), fs1).

End local.

(** The client: [use_redis], [redis_client] and the fallback directory. *)
Record client (R : Type) : Type := Client {
  use_redis : bool;
  redis_client : option R;
  local : files
}.
Arguments Client {R} _ _ _.
Arguments use_redis {R} _.
Arguments redis_client {R} _.
Arguments local {R} _.

Section client.

Context {R : Type} `{!Primary R}.
Implicit Types (c : client R) (key field : string) (now : Z).

Definition with_local c (fs : files) : client R :=
  Client (use_redis c) (redis_client c) fs.

Definition with_redis c (r : R) : client R :=
  Client (use_redis c) (Some r) (local c).

(** [self.use_redis and self.redis_client] *)
Definition primary c : option R :=
  if use_redis c then redis_client c else None.

(** Runs a local operation on the client's directory. *)
Definition on_local {A} c (op : files → A * files) : A * client R :=
  let '(a, fs) := op (local c) in (a, with_local c fs).

(** [value = json.dumps(value)] for a [dict] or a [list]. *)
Definition redis_value (v : Py.value) : outcome Py.value :=
  match v with
  | Py.VDict _ | Py.VList _ =>
      match Json.dumps false v with
      | Some j => Returned (Py.VStr (Json.text j))
      | None => Raised
      end
  | _ => Returned v
  end.

(** [json.loads(value)], or [value] when it does not parse. *)
Definition of_reply (x : reply) : Py.value :=
  match x with
  | JsonText j => Json.loads j
  | PlainText s => Py.VStr s
  end.

(** In [set], [get] and [delete] the handler runs only after the
    primary branch raised, where [self.use_redis] is true: it always
    takes the local retry. *)
Definition set c key (v : Py.value) (expire : option Z) now : bool * client R :=
  match primary c with
  | Some r =>
      match redis_value v with
      | Returned v1 =>
          match redis_set r key v1 expire with
          | (Returned _, r1) => (true, with_redis c r1)
          | (Raised, r1) =>
              on_local (with_redis c r1) (λ fs, _set_local fs key v1 expire now)
          end
      | Raised => on_local c (λ fs, _set_local fs key v expire now)
      end
  | None => on_local c (λ fs, _set_local fs key v expire now)
  end.

Definition get c key now : Py.value * client R :=
  match primary c with
  | Some r =>
      match redis_get r key with
      | (Returned None, r1) => (Py.VNone, with_redis c r1)
      | (Returned (Some x), r1) => (of_reply x, with_redis c r1)
      | (Raised, r1) => on_local (with_redis c r1) (λ fs, _get_local fs key now)
      end
  | None => on_local c (λ fs, _get_local fs key now)
  end.

Definition delete c key : bool * client R :=
  match primary c with
  | Some r =>
      match redis_delete r key with
      | (Returned n, r1) => (negb (n =? 0), with_redis c r1)
      | (Raised, r1) => on_local (with_redis c r1) (λ fs, _delete_local fs key)
      end
  | None => on_local c (λ fs, _delete_local fs key)
  end.

(** The handlers of the remaining operations return the sentinel. *)
Definition exists_ c key : bool * client R :=
  match primary c with
  | Some r =>
      match redis_exists r key with
      | (Returned n, r1) => (negb (n =? 0), with_redis c r1)
      | (Raised, r1) => (false, with_redis c r1)
      end
  | None => (_exists_local (local c) key, c)
  end.

Definition keys c (pattern : string) : list string * client R :=
  match primary c with
  | Some r =>
      match redis_keys r pattern with
      | (Returned ks, r1) => (ks, with_redis c r1)
      | (Raised, r1) => ([], with_redis c r1)
      end
  | None => (_keys_local (local c) pattern, c)
  end.

Definition increment c key (amount : Z) now : Z * client R :=
  match primary c with
  | Some r =>
      match redis_incrby r key amount with
      | (Returned n, r1) => (n, with_redis c r1)
      | (Raised, r1) => (0, with_redis c r1)
      end
  | None => on_local c (λ fs, _increment_local fs key amount now)
  end.

Definition set_hash c key field (v : Py.value) now : bool * client R :=
  match primary c with
  | Some r =>
      match redis_value v with
      | Returned v1 =>
          match redis_hset r key field v1 with
          | (Returned _, r1) => (true, with_redis c r1)
          | (Raised, r1) => (false, with_redis c r1)
          end
      | Raised => (false, c)
      end
  | None => on_local c (λ fs, _set_hash_local fs key field v now)
  end.

Definition get_hash c key field now : Py.value * client R :=
  match primary c with
  | Some r =>
      match redis_hget r key field with
      | (Returned None, r1) => (Py.VNone, with_redis c r1)
      | (Returned (Some x), r1) => (of_reply x, with_redis c r1)
      | (Raised, r1) => (Py.VNone, with_redis c r1)
      end
  | None => on_local c (λ fs, _get_hash_local fs key field now)
  end.

Definition get_all_hash c key now : Py.value * client R :=
  match primary c with
  | Some r =>
      match redis_hgetall r key with
      | (Returned fields, r1) =>
          (Py.VDict (foldl (λ acc fv, Py.dict_set (Py.KStr fv.1) (of_reply fv.2) acc)
                           [] fields),
           with_redis c r1)
      | (Raised, r1) => (Py.VDict [], with_redis c r1)
      end
  | None => on_local c (λ fs, _get_all_hash_local fs key now)
  end.

End client.

End DataClient.

(** ** Double-precision arithmetic of [limit * 0.9]

    A finite double is [m * 2^e] for integers [m], [e]; the pair [(m, e)]
    stands for it.  [int * float] converts the integer to the nearest
    double and multiplies, each step rounding to nearest, ties to even; an
    [int] is compared with a [float] exactly. *)

Module Float.

(** The nearest value with 53 significant bits. *)
Definition round53 (p : Z) : Z * Z :=
  let a := Z.abs p in
  let s := Z.log2 a - 52 in
  if s <=? 0 then (p, 0)
  else
    let q := a / 2 ^ s in
    let r := a mod 2 ^ s in
    let half := 2 ^ (s - 1) in
    let q' := if (half <? r) || ((r =? half) && Z.odd q) then q + 1 else q in
    (Z.sgn p * q', s).

(** The literal [0.9] is the double [nine_tenths * 2^-53]. *)
Definition nine_tenths : Z := 8106479329266893.

(** [float(n)]; [None] is [OverflowError]. *)
Definition of_int (n : Z) : option (Z * Z) :=
  let '(m, e) := round53 n in
  if 2 ^ 1024 <=? Z.abs m * 2 ^ e then None else Some (m, e).

(** [n * 0.9] *)
Definition mul_nine_tenths (n : Z) : option (Z * Z) :=
  match of_int n with
  | Some (m, e) =>
      let '(m', e') := round53 (m * nine_tenths) in
      Some (m', e + e' - 53)
  | None => None
  end.

(** [c >= x] for an integer [c] and a double [x]. *)
Definition int_ge (c : Z) (x : Z * Z) : bool :=
  let '(m, e) := x in
  if 0 <=? e then m * 2 ^ e <=? c else m <=? c * 2 ^ (- e).

End Float.

(** ** Calendar fields of a clock value

    [datetime]'s proleptic Gregorian calendar, as the standard library
    computes it from the day number ([_ord2ymd], [_days_before_year],
    [_days_before_month]), and the [strftime] fields the keys use. *)

Module Calendar.

Definition is_leap (year : Z) : bool :=
  (year mod 4 =? 0) && (negb (year mod 100 =? 0) || (year mod 400 =? 0)).

Definition days_before_year (year : Z) : Z :=
  let y := year - 1 in
  y * 365 + y / 4 - y / 100 + y / 400.

Definition days_in_month (leap : bool) (month : Z) : Z :=
  if month =? 2 then (if leap then 29 else 28)
  else if (month =? 4) || (month =? 6) || (month =? 9) || (month =? 11) then 30
  else 31.

(** Days of the year before the first day of [month]. *)
Definition days_before_month (leap : bool) (month : Z) : Z :=
  nth (Z.to_nat month) [0; 0; 31; 59; 90; 120; 151; 181; 212; 243; 273; 304; 334] 0
  + (if (2 <? month) && leap then 1 else 0).

(** [_ord2ymd]: day number to year, month, day. *)
Definition ord2ymd (ordinal : Z) : Z * Z * Z :=
  let n := ordinal - 1 in
  let n400 := n / 146097 in
  let n := n mod 146097 in
  let n100 := n / 36524 in
  let n := n mod 36524 in
  let n4 := n / 1461 in
  let n := n mod 1461 in
  let n1 := n / 365 in
  let n := n mod 365 in
  let year := n400 * 400 + 1 + n100 * 100 + n4 * 4 + n1 in
  if (n1 =? 4) || (n100 =? 4) then (year - 1, 12, 31)
  else
    let leapyear := (n1 =? 3) && (negb (n4 =? 24) || (n100 =? 3)) in
    let month := Z.shiftr (n + 50) 5 in
    let preceding := days_before_month leapyear month in
    if n <? preceding
    then
      let month := month - 1 in
      let preceding := preceding - days_in_month leapyear month in
      (year, month, n - preceding + 1)
    else (year, month, n - preceding + 1).

(** [_ymd2ord] *)
Definition ymd2ord (ymd : Z * Z * Z) : Z :=
  let '(year, month, day) := ymd in
  days_before_year year + days_before_month (is_leap year) month + day.

Definition year (t : Z) : Z := (ord2ymd (Clock.ordinal t)).1.1.
Definition month (t : Z) : Z := (ord2ymd (Clock.ordinal t)).1.2.
Definition day (t : Z) : Z := (ord2ymd (Clock.ordinal t)).2.
Definition hour (t : Z) : Z := t mod Clock.usec_per_day / (3600 * Clock.usec_per_second).

(** [tm_yday], from 1. *)
Definition yday (t : Z) : Z :=
  days_before_month (is_leap (year t)) (month t) + day t.

Definition digit (n : Z) : ascii := ascii_of_N (48 + Z.to_N (n mod 10)).

(** [%m], [%d], [%H], [%U], [%V]: two digits. *)
Definition fmt2 (n : Z) : string :=
  String (digit (n / 10)) (String (digit n) EmptyString).

(** [%Y], [%G]: four digits. *)
Definition fmt4 (n : Z) : string :=
  String (digit (n / 1000)) (String (digit (n / 100)) (fmt2 n)).

(** [%U]: week of the year, weeks starting on Sunday; the days before the
    first Sunday are in week 0. *)
Definition week_U (t : Z) : Z :=
  let wday := (Clock.weekday t + 1) mod 7 in
  (yday t - 1 + 7 - wday) / 7.

End Calendar.

(** ** [bool(x)] for the objects the code tests

    [if x], [not x]: a [bool] is itself, a tuple is true unless empty. *)

Class PyBool (A : Type) : Type := py_bool : A → bool.
#[global] Instance bool_py_bool : PyBool bool := λ b, b.
#[global] Instance value_py_bool : PyBool Py.value := Py.truthy.
(** A tuple of two items has length 2. *)
#[global] Instance pair_py_bool {A B : Type} : PyBool (A * B) := λ _, true.

Definition py_not {A : Type} `{!PyBool A} (x : A) : bool := negb (py_bool x).

(** ** [logging_config.log_rate_limit]

    Its only effect on control flow: [current / maximum] raises
    [OverflowError] when the quotient, rounded to a double, is not
    finite.  (Integers of thousands of digits, which recent Python
    versions refuse to format, are beyond the model.) *)

Definition log_rate_limit_raises (current maximum : Z) : bool :=
  (0 <? maximum) && ((2 ^ 1024 - 2 ^ 970) * maximum <=? Z.abs current).

(** ** [AureliusRateLimiter] *)

Module RateLimit.

Import DataClient.

Inductive RateLimitPeriod : Type := HOURLY | DAILY | WEEKLY | MONTHLY.

Inductive RateLimitResult : Type := ALLOWED | LIMIT_REACHED | LIMIT_EXCEEDED.

#[global] Instance period_eq_dec : EqDecision RateLimitPeriod.
Proof. solve_decision. Defined.

#[global] Instance result_eq_dec : EqDecision RateLimitResult.
Proof. solve_decision. Defined.

Definition period_value (period : RateLimitPeriod) : string :=
  match period with
  | HOURLY => "hourly"
  | DAILY => "daily"
  | WEEKLY => "weekly"
  | MONTHLY => "monthly"
  end.

Definition result_value (result : RateLimitResult) : string :=
  match result with
  | ALLOWED => "allowed"
  | LIMIT_REACHED => "limit_reached"
  | LIMIT_EXCEEDED => "limit_exceeded"
  end.

(** [platform_limits]: platform name to the dictionary of its limits, the
    latter in insertion order (the order in which periods are checked
    and incremented). *)
Abbreviation platform_limits := (gmap string (list (RateLimitPeriod * Z))).

(** The limits [__init__] installs. *)
Definition default_limits : platform_limits :=
  {[ "twitter"%string := [(HOURLY, 5); (DAILY, 50)];
     "mastodon"%string := [(HOURLY, 10); (DAILY, 100)];
     "discord"%string := [(HOURLY, 20); (DAILY, 200)] ]}.

(** [limits_of_platform[period]], [None] when [period not in] it. *)
Fixpoint period_limit (d : list (RateLimitPeriod * Z)) (period : RateLimitPeriod)
  : option Z :=
  match d with
  | [] => None
  | (p, limit) :: d' => if decide (p = period) then Some limit else period_limit d' period
  end.



(** The bucket identifier of [period] at [now]. *)
Definition time_key (period : RateLimitPeriod) (now : Z) : string :=
  match period with
  | HOURLY =>
      Calendar.fmt4 (Calendar.year now) +:+ "-" +:+ Calendar.fmt2 (Calendar.month now)
      +:+ "-" +:+ Calendar.fmt2 (Calendar.day now) +:+ "-" +:+ Calendar.fmt2 (Calendar.hour now)
  | DAILY =>
      Calendar.fmt4 (Calendar.year now) +:+ "-" +:+ Calendar.fmt2 (Calendar.month now)
      +:+ "-" +:+ Calendar.fmt2 (Calendar.day now)
  | WEEKLY =>
      let monday := now - Clock.weekday now * Clock.usec_per_day in
      Calendar.fmt4 (Calendar.year monday) +:+ "-W" +:+ Calendar.fmt2 (Calendar.week_U monday)
  | MONTHLY =>
      Calendar.fmt4 (Calendar.year now) +:+ "-" +:+ Calendar.fmt2 (Calendar.month now)
  end.

Definition _get_time_window_key (platform : string) (period : RateLimitPeriod)
    (action : string) (now : Z) : string :=
  "rate_limit:" +:+ platform +:+ ":" +:+ action +:+ ":" +:+ period_value period
  +:+ ":" +:+ time_key period now.

Definition _get_ttl_seconds (period : RateLimitPeriod) : Z :=
  match period with
  | HOURLY => 3600
  | DAILY => 86400
  | WEEKLY => 604800
  | MONTHLY => 2592000
  end.

(** What [check_rate_limit] returns for an unknown platform, for a period
    without limit, and from its exception handler. *)
Definition fail_open : RateLimitResult * Z * Z := (ALLOWED, 0, 999999).

(** Per-period record of [details['periods']]; the ['percentage'] entry,
    a float for display, is not modelled. *)
Record period_details : Type := PeriodDetails {
  pd_result : string;
  pd_current : Z;
  pd_limit : Z;
  pd_remaining : Z
}.

(** The second component of what [is_action_allowed] returns. *)
Inductive details : Type :=
| UnknownPlatform (platform : string)
| Details (platform action : string) (allowed : bool)
    (periods : list (string * period_details)) (blocked_by : option string).

(** [details['allowed']] of the full dictionary. *)
Definition details_allowed (d : details) : bool :=
  match d with
  | UnknownPlatform _ => true
  | Details _ _ allowed _ _ => allowed
  end.

(** [details.get('blocked_by', 'unknown')] *)
Definition details_blocked_by (d : details) : string :=
  match d with
  | Details _ _ _ _ (Some period) => period
  | _ => "unknown"
  end.

(** [periods[name] = pd] *)
Fixpoint set_period_details (name : string) (pd : period_details)
    (periods : list (string * period_details)) : list (string * period_details) :=
  match periods with
  | [] => [(name, pd)]
  | (n, x) :: rest =>
      if String.eqb n name then (n, pd) :: rest
      else (n, x) :: set_period_details name pd rest
  end.

(** How [execute_with_rate_limit] ends. *)
Inductive execution (A E : Type) : Type :=
| RateLimitExceeded (blocked_by : string)
| OperationRaised (e : E)
| Completed (a : A).
Arguments RateLimitExceeded {A E} blocked_by.
Arguments OperationRaised {A E} e.
Arguments Completed {A E} a.

(** Per-period record of [get_usage_stats]; the ['percentage'] entry, a
    float for display, is not modelled. *)
Record usage_stats : Type := UsageStats {
  us_current : Z;
  us_limit : Z;
  us_remaining : Z
}.

(** [stats[name] = entry] *)
Fixpoint set_usage_stats (name : string) (entry : usage_stats)
    (stats : list (string * usage_stats)) : list (string * usage_stats) :=
  match stats with
  | [] => [(name, entry)]
  | (n, x) :: rest =>
      if String.eqb n name then (n, entry) :: rest
      else (n, x) :: set_usage_stats name entry rest
  end.

(** The entry [get_usage_stats] records for a period, from the count
    ([None] when [int] raised) and the limit.  [current / limit] is the
    division of [log_rate_limit]: it raises when the quotient is too large
    for a float.  The handler records zeros. *)
Definition usage_entry (count limit : option Z) : usage_stats :=
  match count, limit with
  | Some current, Some limit =>
      if log_rate_limit_raises current limit then UsageStats 0 0 0
      else UsageStats current limit (Z.max 0 (limit - current))
  | _, _ => UsageStats 0 0 0
  end.

Section limiter.

Context {R : Type} `{!Primary R}.
Variable limits : platform_limits.
Implicit Types (c : client R) (platform action : string) (now : Z).

(** [int(await data_client.get(key) or 0)]; [None] when [int] raises. *)
Definition read_count c (key : string) now : option Z * client R :=
  let '(v, c1) := get c key now in
  (Py.int_of (Py.or_else v (Py.VInt 0)), c1).

(** The comparison chain at the end of [check_rate_limit]; [None] is an
    exception on the way (it ends in the handler). *)
Definition classify (current limit : Z) : option RateLimitResult :=
  if log_rate_limit_raises current limit then None
  else if limit <=? current then Some LIMIT_EXCEEDED
  else match Float.mul_nine_tenths limit with
       | Some x => Some (if Float.int_ge current x then LIMIT_REACHED else ALLOWED)
       | None => None
       end.

Definition check_rate_limit c platform action (period : RateLimitPeriod) now
  : (RateLimitResult * Z * Z) * client R :=
  let platform_lower := Py.lower platform in
  match limits !! platform_lower with
  | None => (fail_open, c)
  | Some d =>
      match period_limit d period with
      | None => (fail_open, c)
      | Some limit =>
          let key := _get_time_window_key platform_lower period action now in
          let '(count, c1) := read_count c key now in
          match count with
          | Some current =>
              match classify current limit with
              | Some result => ((result, current, limit), c1)
              | None => (fail_open, c1)
              end
          | None => (fail_open, c1)
          end
      end
  end.

Definition increment_usage c platform action (period : RateLimitPeriod)
    (amount : Z) now : Z * client R :=
  let platform_lower := Py.lower platform in
  let key := _get_time_window_key platform_lower period action now in
  let ttl := _get_ttl_seconds period in
  let '(new_count, c1) := increment c key amount now in
  if new_count =? amount
  then (new_count, (set c1 key (Py.VInt new_count) (Some ttl) now).2)
  else (new_count, c1).

(** One turn of the loop of [is_action_allowed]. *)
Definition check_period platform action now
    (acc : bool * list (string * period_details) * option string * client R)
    (period : RateLimitPeriod)
  : bool * list (string * period_details) * option string * client R :=
  let '(allowed, periods, blocked_by, c) := acc in
  let '((result, current, limit), c1) :=
    check_rate_limit c platform action period now in
  let pd := PeriodDetails (result_value result) current limit (Z.max 0 (limit - current)) in
  let periods1 := set_period_details (period_value period) pd periods in
  if decide (result = LIMIT_EXCEEDED)
  then (false, periods1, Some (period_value period), c1)
  else (allowed, periods1, blocked_by, c1).

Definition is_action_allowed c platform action (check_all_periods : bool) now
  : (bool * details) * client R :=
  let platform_lower := Py.lower platform in
  match limits !! platform_lower with
  | None => ((true, UnknownPlatform platform), c)
  | Some d =>
      let periods_to_check := if check_all_periods then d.*1 else [HOURLY] in
      let '(allowed, periods, blocked_by, c1) :=
        foldl (check_period platform action now) (true, [], None, c) periods_to_check in
      ((allowed, Details platform action allowed periods blocked_by), c1)
  end.

(** The loop [for period in self.platform_limits[platform_lower]] of
    [execute_with_rate_limit] and [increment_platform_usage]. *)
Definition increment_all_periods c platform action now : client R :=
  match limits !! Py.lower platform with
  | Some d => foldl (λ c1 period, (increment_usage c1 platform action period 1 now).2) c d.*1
  | None => c
  end.

(** [func] runs on the client and returns or raises. *)
Definition execute_with_rate_limit {A E : Type} c platform action
    (func : client R → (E + A) * client R) now
  : execution A E * client R :=
  let '((allowed, d), c1) := is_action_allowed c platform action true now in
  if negb allowed then (RateLimitExceeded (details_blocked_by d), c1)
  else
    match func c1 with
    | (inr result, c2) => (Completed result, increment_all_periods c2 platform action now)
    | (inl e, c2) => (OperationRaised e, c2)
    end.

(** Module-level [check_platform_rate_limit]. *)
Definition check_platform_rate_limit c platform action now : bool * client R :=
  let '((allowed, _), c1) := is_action_allowed c platform action true now in
  (allowed, c1).

(** The guard of [_social_posting_loop] in [main.py]:
    [if not await rate_limiter.is_action_allowed(platform, "post"): continue].
    [true] means the platform is skipped. *)
Definition posting_guard_skips c platform now : bool * client R :=
  let '(answer, c1) := is_action_allowed c platform "post" true now in
  (py_not answer, c1).

(** One turn of the loop of [get_usage_stats]. *)
Definition usage_of_period platform_lower action (d : list (RateLimitPeriod * Z)) now
    (acc : list (string * usage_stats) * client R) (period : RateLimitPeriod)
  : list (string * usage_stats) * client R :=
  let '(stats, c) := acc in
  let key := _get_time_window_key platform_lower period action now in
  let '(count, c1) := read_count c key now in
  (set_usage_stats (period_value period) (usage_entry count (period_limit d period)) stats,
   c1).

Definition get_usage_stats c platform action now
  : list (string * usage_stats) * client R :=
  let platform_lower := Py.lower platform in
  match limits !! platform_lower with
  | None => ([], c)
  | Some d => foldl (usage_of_period platform_lower action d now) ([], c) d.*1
  end.

(** [period] absent is [None]; a member of the enumeration is true in
    [if period]. *)
Definition reset_usage c platform action (period : option RateLimitPeriod) now
  : bool * client R :=
  let platform_lower := Py.lower platform in
  match limits !! platform_lower with
  | None => (false, c)
  | Some d =>
      let periods_to_reset :=
        match period with
        | Some p => [p]
        | None => d.*1
        end in
      (true,
       foldl (λ c1 p, (delete c1 (_get_time_window_key platform_lower p action now)).2)
             c periods_to_reset)
  end.

(** Module-level [increment_platform_usage]. *)
Definition increment_platform_usage c platform action now : client R :=
  increment_all_periods c platform action now.

(** Module-level [get_platform_usage_summary]. *)
Definition get_platform_usage_summary c platform now
  : list (string * usage_stats) * client R :=
  get_usage_stats c platform "post" now.

End limiter.

(** *** [wait_for_rate_limit_reset] *)

Definition usec_per_hour : Z := 3600 * Clock.usec_per_second.

(** [now.replace(minute=0, second=0, microsecond=0)] *)
Definition hour_start (now : Z) : Z := now - now mod usec_per_hour.

(** [now.replace(hour=0, minute=0, second=0, microsecond=0)] *)
Definition midnight (now : Z) : Z := now - now mod Clock.usec_per_day.

(** [now.replace(year=year, month=month, day=1, hour=0, minute=0,
    second=0, microsecond=0)]; [None] is the [ValueError] of a year
    outside 1..9999. *)
Definition first_of_month (year month : Z) : option Z :=
  if (1 <=? year) && (year <=? 9999)
  then Some ((Calendar.ymd2ord (year, month, 1) - 1) * Clock.usec_per_day)
  else None.

(** [int(delta.total_seconds())] for a difference of [delta]
    microseconds.  [total_seconds] is the quotient by 10^6 as the nearest
    double and [int] truncates it.  The differences that occur here are
    shorter than 32 days: the double is within 2^-31 of the quotient,
    which is an integer or at least 10^-6 away from the next one, so the
    truncation is that of the exact quotient. *)
Definition whole_seconds (delta : Z) : Z := Z.quot delta Clock.usec_per_second.

(** [None] is the exception of a next reset beyond [datetime.max]. *)
Definition wait_for_rate_limit_reset (period : RateLimitPeriod) (now : Z) : option Z :=
  let next_reset :=
    match period with
    | HOURLY => Clock.add_seconds (hour_start now) 3600
    | DAILY => Clock.add_seconds (midnight now) 86400
    | WEEKLY =>
        let days_until_monday := (7 - Clock.weekday now) mod 7 in
        Clock.add_seconds (midnight now) (days_until_monday * 86400)
    | MONTHLY =>
        if Calendar.month now =? 12
        then first_of_month (Calendar.year now + 1) 1
        else first_of_month (Calendar.year now) (Calendar.month now + 1)
    end in
  (λ next, whole_seconds (next - now)) <$> next_reset.

End RateLimit.

(** ** The ISO-8601 week, as the specification names it

    This definition follows the specification's words ("ISO-week
    identifier anchored to Monday"), not the source: week 1 of an ISO year
    is the week, Monday to Sunday, that holds the year's first Thursday.
    It is compared with [RateLimit.time_key WEEKLY] below. *)

Module IsoWeek.

(** The day number of the Monday of ISO week 1 of [year]. *)
Definition week1_monday (year : Z) : Z :=
  let firstday := Calendar.days_before_year year + 1 in
  let firstweekday := (firstday + 6) mod 7 in
  let monday := firstday - firstweekday in
  if 3 <? firstweekday then monday + 7 else monday.

(** ISO year and ISO week number of a clock value. *)
Definition year_week (t : Z) : Z * Z :=
  let today := Clock.ordinal t in
  let year := Calendar.year t in
  if today <? week1_monday year
  then (year - 1, (today - week1_monday (year - 1)) / 7 + 1)
  else if week1_monday (year + 1) <=? today
       then (year + 1, 1)
       else (year, (today - week1_monday year) / 7 + 1).

(** The identifier in the layout of the weekly key, [YYYY-Www]. *)
Definition identifier (t : Z) : string :=
  Calendar.fmt4 (year_week t).1 +:+ "-W" +:+ Calendar.fmt2 (year_week t).2.

End IsoWeek.

(** ** Regular expressions of [re.sub(pattern, '', text)]

    Patterns are matched by derivatives.  Every pattern of
    [DANGEROUS_PATTERNS] has, from a given start, either one match only or
    (the lazy [.*?] ones) the shortest as the match [re] takes, so the
    shortest match from the leftmost start is the one [re.sub] removes. *)

Module Regex.

Inductive regex : Type :=
| Void
| Eps
| Chr (p : ascii → bool)
| Cat (r1 r2 : regex)
| Alt (r1 r2 : regex)
| Star (r : regex).

Fixpoint nullable (r : regex) : bool :=
  match r with
  | Void => false
  | Eps => true
  | Chr _ => false
  | Cat r1 r2 => nullable r1 && nullable r2
  | Alt r1 r2 => nullable r1 || nullable r2
  | Star _ => true
  end.

Fixpoint deriv (c : ascii) (r : regex) : regex :=
  match r with
  | Void | Eps => Void
  | Chr p => if p c then Eps else Void
  | Cat r1 r2 =>
      if nullable r1 then Alt (Cat (deriv c r1) r2) (deriv c r2)
      else Cat (deriv c r1) r2
  | Alt r1 r2 => Alt (deriv c r1) (deriv c r2)
  | Star r1 => Cat (deriv c r1) (Star r1)
  end.

(** Length of the shortest match of [r] at the start of [s], counted
    from [n]. *)
Fixpoint match_len (r : regex) (s : string) (n : nat) : option nat :=
  if nullable r then Some n
  else match s with
       | String c s' => match_len (deriv c r) s' (S n)
       | EmptyString => None
       end.

(** [re.sub(r, '', s)]; [skip] characters of a match are still to drop. *)
Fixpoint remove_matches (r : regex) (skip : nat) (s : string) : string :=
  match s with
  | String c s' =>
      match skip with
      | S k => remove_matches r k s'
      | O =>
          match match_len r s 0 with
          | Some (S k) => remove_matches r k s'
          | _ => String c (remove_matches r 0 s')
          end
      end
  | EmptyString => EmptyString
  end.

(** A literal, [re.IGNORECASE]. *)
Fixpoint lit (s : string) : regex :=
  match s with
  | String c s' => Cat (Chr (λ x, Ascii.eqb (Py.lower_char x) (Py.lower_char c))) (lit s')
  | EmptyString => Eps
  end.

Definition plus (r : regex) : regex := Cat r (Star r).

(** [.] with [re.DOTALL] *)
Definition any : regex := Chr (λ _, true).

(** [[^>]] *)
Definition not_gt : regex := Chr (λ x, negb (Ascii.eqb x ">")).

(** [\s] *)
Definition space : regex := Chr Py.isspace.

(** [\w] on code points 0..255: letters, digits and other numerics, [_]. *)
Definition word_char (c : ascii) : bool :=
  let n := Z.of_N (N_of_ascii c) in
  ((48 <=? n) && (n <=? 57)) || ((65 <=? n) && (n <=? 90)) || ((97 <=? n) && (n <=? 122))
  || (n =? 95) || (n =? 170) || (n =? 178) || (n =? 179) || (n =? 181) || (n =? 185)
  || (n =? 186) || ((188 <=? n) && (n <=? 190))
  || ((192 <=? n) && (n <=? 214)) || ((216 <=? n) && (n <=? 246)) || (248 <=? n).

Definition word : regex := Chr word_char.

(** [<tag[^>]*>.*?</tag>] *)
Definition element (tag : string) : regex :=
  Cat (lit ("<" +:+ tag)) (Cat (Star not_gt) (Cat (lit ">")
    (Cat (Star any) (lit ("</" +:+ tag +:+ ">"))))).

(** [<tag[^>]*>] *)
Definition open_tag (tag : string) : regex :=
  Cat (lit ("<" +:+ tag)) (Cat (Star not_gt) (lit ">")).

End Regex.

(** ** [SecurityValidator.sanitize_text] *)

Module Security.

Definition DANGEROUS_PATTERNS : list Regex.regex :=
  [ Regex.element "script";
    Regex.lit "javascript:";
    Regex.Cat (Regex.lit "on") (Regex.Cat (Regex.plus Regex.word)
      (Regex.Cat (Regex.Star Regex.space) (Regex.lit "=")));
    Regex.element "iframe";
    Regex.element "object";
    Regex.element "embed";
    Regex.open_tag "link";
    Regex.open_tag "meta";
    Regex.element "style";
    Regex.lit "data:text/html";
    Regex.lit "vbscript:";
    Regex.Cat (Regex.lit "expression") (Regex.Cat (Regex.Star Regex.space) (Regex.lit "(")) ].

(** [text.replace('\x00', '')] *)
Fixpoint remove_nul (s : string) : string :=
  match s with
  | String c s' => if Ascii.eqb c zero then remove_nul s' else String c (remove_nul s')
  | EmptyString => EmptyString
  end.

(** [html.escape(text)], quotes included. *)
Fixpoint html_escape (s : string) : string :=
  match s with
  | String c s' =>
      let n := N_of_ascii c in
      (if (n =? 38)%N then "&amp;"
       else if (n =? 60)%N then "&lt;"
       else if (n =? 62)%N then "&gt;"
       else if (n =? 34)%N then "&quot;"
       else if (n =? 39)%N then "&#x27;"
       else String c EmptyString) +:+ html_escape s'
  | EmptyString => EmptyString
  end.

(** [re.sub(r'\s+', ' ', text)]; [in_run] is true after a space. *)
Fixpoint collapse_spaces (in_run : bool) (s : string) : string :=
  match s with
  | String c s' =>
      if Py.isspace c
      then (if in_run then collapse_spaces true s'
            else String " " (collapse_spaces true s'))
      else String c (collapse_spaces false s')
  | EmptyString => EmptyString
  end.

(** [text[:stop]]: a negative [stop] counts from the end. *)
Definition slice_to (text : string) (stop : Z) : string :=
  let n := Z.of_nat (String.length text) in
  let stop := if stop <? 0 then Z.max 0 (n + stop) else Z.min stop n in
  String.substring 0 (Z.to_nat stop) text.

(** The last step: [if max_length and len(text) > max_length]. *)
Definition limit_length (text : string) (max_length : option Z) : string :=
  match max_length with
  | Some m =>
      if negb (m =? 0) && (m <? Z.of_nat (String.length text))
      then slice_to text (m - 3) +:+ "..."
      else text
  | None => text
  end.

Section sanitize.

(** [bleach.clean(text, tags=ALLOWED_TAGS, attributes={}, strip=True)],
    a function of the text: the library is not part of the
    repository. *)
Variable bleach_clean : string → string.

(** The text before the length limit is applied. *)
Definition cleaned (text : string) : string :=
  let text := remove_nul text in
  let text := html_escape text in
  let text := bleach_clean text in
  let text := foldl (λ t pattern, Regex.remove_matches pattern 0 t) text DANGEROUS_PATTERNS in
  Py.strip (collapse_spaces false text).

Definition sanitize_text (text : string) (max_length : option Z) : string :=
  limit_length (cleaned text) max_length.

End sanitize.

End Security.

(** ** [detect_sql_injection], [validate_social_content] and
    [sanitize_for_social] *)

Module Validation.

(** [c.upper()] for one code point of 0..255.  [ß] becomes [SS].  The
    capitals of [ÿ] and [µ] lie outside 0..255: they are letters that no
    pattern of this module names, as [ÿ] and [µ] are, which stand for
    them. *)
Definition upper_char (c : ascii) : string :=
  let n := N_of_ascii c in
  if (((97 <=? n) && (n <=? 122))
      || ((224 <=? n) && (n <=? 254) && negb (n =? 247)))%N
  then String (ascii_of_N (n - 32)) EmptyString
  else if (n =? 223)%N then "SS"
  else String c EmptyString.

Fixpoint upper (s : string) : string :=
  match s with
  | String c s' => upper_char c +:+ upper s'
  | EmptyString => EmptyString
  end.

(** A pattern of [re.search]: its body, and whether [\b] stands before
    and after it. *)
Record pattern : Type := Pattern {
  left_boundary : bool;
  body : Regex.regex;
  right_boundary : bool
}.

Definition head (s : string) : option ascii :=
  match s with
  | String c _ => Some c
  | EmptyString => None
  end.

(** The last character of [s], or [prev] before an empty [s]. *)
Fixpoint last_char (prev : option ascii) (s : string) : option ascii :=
  match s with
  | String c s' => last_char (Some c) s'
  | EmptyString => prev
  end.

Definition is_word (c : option ascii) : bool :=
  match c with
  | Some c => Regex.word_char c
  | None => false
  end.

(** [\b] between [prev] and [next]; [None] is an end of the text. *)
Definition boundary (prev next : option ascii) : bool :=
  xorb (is_word prev) (is_word next).

(** Some prefix of [s] matches [r], with [\b] after it if [right];
    [prev] is the character before [s]. *)
Fixpoint matches (right : bool) (r : Regex.regex) (prev : option ascii) (s : string)
  : bool :=
  (Regex.nullable r && (negb right || boundary prev (head s)))
  || match s with
     | String c s' => matches right (Regex.deriv c r) (Some c) s'
     | EmptyString => false
     end.

Definition found_at (p : pattern) (prev : option ascii) (s : string) : bool :=
  (negb (left_boundary p) || boundary prev (head s))
  && matches (right_boundary p) (body p) prev s.

Fixpoint search_from (p : pattern) (prev : option ascii) (s : string) : bool :=
  found_at p prev s
  || match s with
     | String c s' => search_from p (Some c) s'
     | EmptyString => false
     end.

(** [re.search(p, s, re.IGNORECASE)] finds a match. *)
Definition search (p : pattern) (s : string) : bool := search_from p None s.

Definition alternatives (rs : list Regex.regex) : Regex.regex :=
  foldr Regex.Alt Regex.Void rs.

(** [\d]: of the code points 0..255 the digits 0 to 9. *)
Definition digit : Regex.regex :=
  Regex.Chr (λ c, bool_decide (is_Some (Py.digit_of c))).

(** An optional quote, single or double. *)
Definition quote_opt : Regex.regex :=
  Regex.Alt (Regex.Chr (λ c, (N_of_ascii c =? 39)%N || (N_of_ascii c =? 34)%N)) Regex.Eps.

Definition SQL_KEYWORDS : list string :=
  ["SELECT"; "INSERT"; "UPDATE"; "DELETE"; "DROP"; "CREATE"; "ALTER"; "EXEC"; "UNION"]%string.

Definition COMMENT_MARKS : list string := ["--"; "#"; "/*"; "*/"]%string.

Definition or_and : Regex.regex := Regex.Alt (Regex.lit "OR") (Regex.lit "AND").

Definition SQL_INJECTION_PATTERNS : list pattern :=
  [ Pattern true (alternatives (Regex.lit <$> SQL_KEYWORDS)) true;
    Pattern true
      (Regex.Cat or_and (Regex.Cat (Regex.plus Regex.space) (Regex.Cat (Regex.plus digit)
        (Regex.Cat (Regex.Star Regex.space) (Regex.Cat (Regex.lit "=")
          (Regex.Cat (Regex.Star Regex.space) (Regex.plus digit)))))))
      false;
    Pattern true
      (Regex.Cat or_and (Regex.Cat (Regex.plus Regex.space) (Regex.Cat quote_opt
        (Regex.Cat (Regex.plus Regex.word) (Regex.Cat quote_opt
          (Regex.Cat (Regex.Star Regex.space) (Regex.Cat (Regex.lit "=")
            (Regex.Cat (Regex.Star Regex.space) (Regex.Cat quote_opt
              (Regex.Cat (Regex.plus Regex.word) quote_opt))))))))))
      false;
    Pattern false (alternatives (Regex.lit <$> COMMENT_MARKS)) false;
    Pattern true (Regex.Cat (Regex.lit "xp_") (Regex.plus Regex.word)) false;
    Pattern true (Regex.Cat (Regex.lit "sp_") (Regex.plus Regex.word)) false ].

(** The patterns are searched in the upper-case text. *)
Definition detect_sql_injection (text : string) : bool :=
  existsb (λ p, search p (upper text)) SQL_INJECTION_PATTERNS.

(** [.] without [re.DOTALL] *)
Definition not_newline : Regex.regex := Regex.Chr (λ c, negb (Ascii.eqb c "010")).

(** [<tag[^>]*>.*?</tag>] without [re.DOTALL] *)
Definition element_line (tag : string) : Regex.regex :=
  Regex.Cat (Regex.lit ("<" +:+ tag)) (Regex.Cat (Regex.Star Regex.not_gt)
    (Regex.Cat (Regex.lit ">") (Regex.Cat (Regex.Star not_newline)
      (Regex.lit ("</" +:+ tag +:+ ">"))))).

(** [DANGEROUS_PATTERNS] as [validate_social_content] searches them:
    the source of each pattern and the pattern. *)
Definition DANGEROUS_PATTERNS : list (string * Regex.regex) :=
  [ ("<script[^>]*>.*?</script>", element_line "script");
    ("javascript:", Regex.lit "javascript:");
    ("on\w+\s*=",
     Regex.Cat (Regex.lit "on") (Regex.Cat (Regex.plus Regex.word)
       (Regex.Cat (Regex.Star Regex.space) (Regex.lit "="))));
    ("<iframe[^>]*>.*?</iframe>", element_line "iframe");
    ("<object[^>]*>.*?</object>", element_line "object");
    ("<embed[^>]*>.*?</embed>", element_line "embed");
    ("<link[^>]*>", Regex.open_tag "link");
    ("<meta[^>]*>", Regex.open_tag "meta");
    ("<style[^>]*>.*?</style>", element_line "style");
    ("data:text/html", Regex.lit "data:text/html");
    ("vbscript:", Regex.lit "vbscript:");
    ("expression\s*\(",
     Regex.Cat (Regex.lit "expression") (Regex.Cat (Regex.Star Regex.space) (Regex.lit "("))) ]%string.

(** [limits.get(platform.lower(), 1000)] *)
Definition platform_limit (platform : string) : Z :=
  let platform_lower := Py.lower platform in
  if String.eqb platform_lower "twitter" then 280
  else if String.eqb platform_lower "mastodon" then 500
  else if String.eqb platform_lower "discord" then 2000
  else 1000.

Record validation : Type := Validation_result {
  valid : bool;
  content : string;
  warnings : list string;
  errors : list string
}.

Section validate.

Variable bleach_clean : string → string.

Definition validate_social_content (text platform : string) : validation :=
  let max_length := platform_limit platform in
  let sanitized_content := Security.sanitize_text bleach_clean text (Some max_length) in
  let dangerous :=
    List.filter (λ sp, search (Pattern false sp.2 false) text) DANGEROUS_PATTERNS in
  let sql := detect_sql_injection text in
  let empty := String.eqb (Py.strip sanitized_content) EmptyString in
  Validation_result
    (bool_decide (dangerous = []) && negb sql && negb empty)
    sanitized_content
    ((if bool_decide (String.length sanitized_content = String.length text) then []
      else ["Content was sanitized and may have been modified"%string])
     ++ (if max_length <? Z.of_nat (String.length sanitized_content)
         then ["Content exceeds " +:+ platform +:+ " limit of " +:+ pretty max_length
               +:+ " characters"]
         else []))
    (((λ sp, "Dangerous pattern detected: " +:+ sp.1) <$> dangerous)
     ++ (if sql then ["Potential SQL injection detected"%string] else [])
     ++ (if empty then ["Content is empty after sanitization"%string] else [])).

Definition sanitize_for_social (text platform : string) : string :=
  let validation := validate_social_content text platform in
  if valid validation then content validation else EmptyString.

End validate.

End Validation.

(** ** Notions used by the statements *)

Module Notions.

Import DataClient RateLimit.

Definition is_str_key (k : Py.key) : bool :=
  match k with
  | Py.KStr _ => true
  | _ => false
  end.

(** The values [json.loads] can return: [None], booleans, integers,
    floats, strings, lists of such values, and dictionaries of such
    values whose keys are distinct strings. *)
Fixpoint json_native (v : Py.value) : bool :=
  match v with
  | Py.VNone | Py.VBool _ | Py.VInt _ | Py.VStr _ | Py.VFloat _ => true
  | Py.VList xs => forallb json_native xs
  | Py.VDict items =>
      forallb (λ item, is_str_key item.1 && json_native item.2) items
      && bool_decide (NoDup items.*1)
  | Py.VTuple _ | Py.VObj _ => false
  end.

(** An entry that a read at [now] does not find expired. *)
Definition live (e : entry) (now : Z) : Prop :=
  match expires_at e with
  | Some t => now <= t
  | None => True
  end.


(** The check [_ord2ymd] relies on for day [r] (from 0) of a year: the
    month it settles on is the month of that day. *)
Definition month_day_ok (leap : bool) (r : Z) : bool :=
  let month := Z.shiftr (r + 50) 5 in
  let preceding := Calendar.days_before_month leap month in
  let '(m, p) :=
    if r <? preceding
    then (month - 1, preceding - Calendar.days_in_month leap (month - 1))
    else (month, preceding) in
  (1 <=? m) && (m <=? 12) && (p =? Calendar.days_before_month leap m)
  && (p <=? r) && (r <? p + Calendar.days_in_month leap m).

(** 2024-01-01T00:00:00, a Monday, as a clock value for the examples. *)
Definition new_year_2024 : Z := 63839664000000000.

(** Weeks from Monday to Sunday, counted from the week of day 1
    (0001-01-01, a Monday). *)
Definition week_index (t : Z) : Z := (Clock.ordinal t - 1) / 7.

(** Monday 00:00 of the week of [t]. *)
Definition week_start (t : Z) : Z :=
  t - t mod Clock.usec_per_day - Clock.weekday t * Clock.usec_per_day.

(** Every character of [s] satisfies [p]. *)
Fixpoint all_chars (p : ascii → bool) (s : string) : bool :=
  match s with
  | String c s' => p c && all_chars p s'
  | EmptyString => true
  end.

(** No colon in [s]: the separator of the fields of a key. *)
Definition no_colon (s : string) : bool :=
  all_chars (λ c, negb (Ascii.eqb c ":")) s.

(** No [<] in [s]: no tag can start. *)
Definition no_markup (s : string) : bool :=
  all_chars (λ c, negb (Ascii.eqb c "<")) s.

(** Two directories from which every key reads the same at [now]. *)
Definition same_reads (now : Z) (fs fs' : files) : Prop :=
  ∀ key, (_get_local fs key now).1 = (_get_local fs' key now).1.

Definition exceeded (report : RateLimitPeriod * RateLimitResult) : bool :=
  bool_decide (report.2 = LIMIT_EXCEEDED).

(** The period name left in ['blocked_by'] by a run of reports. *)
Definition last_blocked (blocked_by : option string)
    (reports : list (RateLimitPeriod * RateLimitResult)) : option string :=
  foldl (λ b report, if exceeded report then Some (period_value report.1) else b)
        blocked_by reports.

Section runs.

Context {R : Type} `{!Primary R}.
Variable limits : platform_limits.

(** The file [key] of the client holds the count [n] and the expiry
    [ex]. *)
Definition bucket_holds (c : client R) (key : string) (n : Z) (ex : option Z) : Prop :=
  ∃ e, local c !! key = Some (Some e) ∧ value e = Json.JInt n ∧ expires_at e = ex.

(** [increment_usage(platform, action, period)] called once at each of
    [times], in this order. *)
Fixpoint increment_usage_at (c : client R) (platform action : string)
    (period : RateLimitPeriod) (times : list Z) : client R :=
  match times with
  | [] => c
  | t :: times' =>
      increment_usage_at (increment_usage c platform action period 1 t).2
        platform action period times'
  end.

(** What [check_rate_limit] reports for each of [periods] when they are
    checked one after the other, as [is_action_allowed] does. *)
Fixpoint period_reports (c : client R) (platform action : string) (now : Z)
    (periods : list RateLimitPeriod) : list (RateLimitPeriod * RateLimitResult) :=
  match periods with
  | [] => []
  | period :: periods' =>
      let '((result, _, _), c1) := check_rate_limit limits c platform action period now in
      (period, result) :: period_reports c1 platform action now periods'
  end.

(** The bucket count of [period] as [check_rate_limit] would read it. *)
Definition usage_count (c : client R) (platform action : string)
    (period : RateLimitPeriod) (now : Z) : option Z :=
  (read_count c (_get_time_window_key (Py.lower platform) period action now) now).1.

End runs.

End Notions.

(** * Properties *)

(** ** Unknown platforms and periods without limit *)

Section fail_open.

Import DataClient RateLimit.
Context {R : Type} `{!Primary R}.

(** C9.  For a platform that is not in the configuration (after
    lower-casing, as the code looks it up), and for a configured platform
    asked about a period it has no limit for, [check_rate_limit] answers
    [ALLOWED] with count 0 against the limit 999999; it reads no counter
    and leaves the client as it was. *)
Theorem check_rate_limit_unconfigured_fail_open
    (limits : platform_limits) (c : client R) (platform action : string)
    (period : RateLimitPeriod) (now : Z) :
  (limits !! Py.lower platform = None
   ∨ ∃ d, limits !! Py.lower platform = Some d ∧ period_limit d period = None) →
  check_rate_limit limits c platform action period now = ((ALLOWED, 0, 999999), c).
Proof.
  intros [Hnone | (d & Hd & Hp)]; unfold check_rate_limit.
  - by rewrite Hnone.
  - by rewrite Hd, Hp.
Qed.

End fail_open.

(** The default configuration has no weekly limit for twitter. *)
Lemma check_rate_limit_unconfigured_fail_open_witness :
  RateLimit.check_rate_limit RateLimit.default_limits
    (DataClient.Client (R:=unit) false None ∅) "Twitter" "post" RateLimit.WEEKLY Notions.new_year_2024
  = ((RateLimit.ALLOWED, 0, 999999), DataClient.Client false None ∅).
Proof.
  apply check_rate_limit_unconfigured_fail_open.
  right. exists [(RateLimit.HOURLY, 5); (RateLimit.DAILY, 50)].
  split; reflexivity.
Defined.

(** ** The guard of the posting loop *)

Section posting_guard.

Import DataClient RateLimit.
Context {R : Type} `{!Primary R}.

(** C2.  [is_action_allowed] returns a pair, and [not] of a pair is
    false: whatever the limits, the counters and the platform, the guard
    of [_social_posting_loop] does not skip the platform. *)
Theorem posting_guard_never_skips
    (limits : platform_limits) (c : client R) (platform : string) (now : Z) :
  (posting_guard_skips limits c platform now).1 = false.
Proof.
  unfold posting_guard_skips.
  by destruct (is_action_allowed limits c platform "post" true now) as [answer c1].
Qed.

End posting_guard.

(** ** The fallback directory *)

Section local_files.

Import Notions.
Implicit Types (fs : DataClient.files) (key : string) (e : DataClient.entry) (now : Z).

Lemma file_key_kind key :
  DataClient.file_key key = true → DataClient.name_kind_of key = DataClient.FileName.
Proof. unfold DataClient.file_key. by destruct (DataClient.name_kind_of key). Qed.

Lemma get_local_absent fs key now :
  fs !! key = None → DataClient._get_local fs key now = (Py.VNone, fs).
Proof.
  intros Hk. unfold DataClient._get_local. rewrite Hk. by destruct (DataClient.file_key key).
Qed.

Lemma get_local_live fs key e now :
  DataClient.file_key key = true →
  fs !! key = Some (Some e) → live e now →
  DataClient._get_local fs key now = (Json.loads (DataClient.value e), fs).
Proof.
  intros Hfile Hk Hlive. unfold DataClient._get_local, live in *. rewrite Hfile, Hk.
  destruct (DataClient.expires_at e) as [t|]; [|done].
  destruct (Z.ltb_spec t now); [lia | done].
Qed.

Lemma get_local_expired fs key e t now :
  DataClient.file_key key = true →
  fs !! key = Some (Some e) → DataClient.expires_at e = Some t → t < now →
  DataClient._get_local fs key now = (Py.VNone, base.delete key fs).
Proof.
  intros Hfile Hk He Ht. unfold DataClient._get_local, DataClient._delete_local.
  rewrite Hfile, Hk, He, (file_key_kind _ Hfile).
  destruct (Z.ltb_spec t now); [done | lia].
Qed.

Lemma int_of_count (n : Z) : Py.int_of (Py.or_else (Py.VInt n) (Py.VInt 0)) = Some n.
Proof.
  unfold Py.or_else. simpl. destruct (Z.eqb_spec n 0); simpl; congruence.
Qed.

Lemma increment_local_absent fs key (amount : Z) now :
  DataClient.file_key key = true →
  fs !! key = None →
  DataClient._increment_local fs key amount now
  = (amount, <[key := Some (DataClient.Entry (Json.JInt amount) now None)]> fs).
Proof.
  intros Hfile Hk. unfold DataClient._increment_local.
  rewrite get_local_absent by done. cbn. unfold DataClient._set_local. by rewrite Hfile.
Qed.

Lemma increment_local_live fs key e (n amount : Z) now :
  DataClient.file_key key = true →
  fs !! key = Some (Some e) → live e now →
  Py.int_of (Py.or_else (Json.loads (DataClient.value e)) (Py.VInt 0)) = Some n →
  DataClient._increment_local fs key amount now
  = (n + amount, <[key := Some (DataClient.Entry (Json.JInt (n + amount)) now None)]> fs).
Proof.
  intros Hfile Hk Hlive Hn. unfold DataClient._increment_local.
  rewrite (get_local_live _ _ e) by done. rewrite Hn.
  unfold DataClient._set_local. by rewrite Hfile.
Qed.

Lemma increment_local_expired fs key e t (amount : Z) now :
  DataClient.file_key key = true →
  fs !! key = Some (Some e) → DataClient.expires_at e = Some t → t < now →
  DataClient._increment_local fs key amount now
  = (amount, <[key := Some (DataClient.Entry (Json.JInt amount) now None)]> fs).
Proof.
  intros Hfile Hk He Ht. unfold DataClient._increment_local.
  rewrite (get_local_expired _ _ e t) by done.
  cbn. unfold DataClient._set_local. rewrite Hfile. cbn. by rewrite insert_delete_eq.
Qed.

End local_files.

(** ** The client without primary store *)

Section fallback_client.

Context {R : Type} `{!Primary R}.
Implicit Types (c : DataClient.client R) (key : string) (now : Z).

Lemma primary_fallback c : DataClient.use_redis c = false → DataClient.primary c = None.
Proof. unfold DataClient.primary. by intros ->. Qed.

Lemma get_fallback c key now :
  DataClient.use_redis c = false →
  DataClient.get c key now
  = DataClient.on_local c (λ fs, DataClient._get_local fs key now).
Proof. intros Hc. unfold DataClient.get. by rewrite primary_fallback. Qed.

Lemma set_fallback c key v expire now :
  DataClient.use_redis c = false →
  DataClient.set c key v expire now
  = DataClient.on_local c (λ fs, DataClient._set_local fs key v expire now).
Proof. intros Hc. unfold DataClient.set. by rewrite primary_fallback. Qed.

Lemma increment_fallback c key amount now :
  DataClient.use_redis c = false →
  DataClient.increment c key amount now
  = DataClient.on_local c (λ fs, DataClient._increment_local fs key amount now).
Proof. intros Hc. unfold DataClient.increment. by rewrite primary_fallback. Qed.

Lemma on_local_eq {A} c (op : DataClient.files → A * DataClient.files) a fs :
  op (DataClient.local c) = (a, fs) →
  DataClient.on_local c op = (a, DataClient.with_local c fs).
Proof. unfold DataClient.on_local. by intros ->. Qed.

End fallback_client.

(** ** Counting in one bucket of the fallback directory *)

Section bucket.

Import RateLimit Notions.
Context {R : Type} `{!Primary R}.
Implicit Types (c : DataClient.client R) (now t : Z).

Variables (platform action : string) (period : RateLimitPeriod).

Local Abbreviation key_at t :=
  (_get_time_window_key (Py.lower platform) period action t).

Lemma increment_usage_fresh c (amount : Z) t :
  DataClient.use_redis c = false →
  DataClient.file_key (key_at t) = true →
  DataClient.local c !! key_at t = None →
  let c' := (increment_usage c platform action period amount t).2 in
  DataClient.use_redis c' = false
  ∧ bucket_holds c' (key_at t) amount (Clock.add_seconds t (_get_ttl_seconds period))
  ∧ ∀ k, k ≠ key_at t → DataClient.local c' !! k = DataClient.local c !! k.
Proof.
  intros Hc Hfile Hk. unfold increment_usage. fold (key_at t).
  rewrite increment_fallback by done.
  rewrite (on_local_eq _ _ _ _ (increment_local_absent _ _ amount t Hfile Hk)).
  rewrite Z.eqb_refl. rewrite set_fallback by done.
  unfold DataClient.on_local, DataClient._set_local. rewrite Hfile. cbn.
  assert ((_get_ttl_seconds period =? 0) = false) as -> by (by destruct period).
  unfold bucket_holds, DataClient.with_local.
  destruct (Clock.add_seconds t (_get_ttl_seconds period)) as [x|]; cbn.
  - split; [done|]. split.
    + eexists. rewrite lookup_insert_eq. done.
    + intros k Hne. by rewrite !lookup_insert_ne.
  - split; [done|]. split.
    + eexists. rewrite lookup_insert_eq. done.
    + intros k Hne. by rewrite !lookup_insert_ne.
Qed.

Lemma increment_usage_again c (n amount : Z) (ex : option Z) t :
  DataClient.use_redis c = false →
  DataClient.file_key (key_at t) = true →
  bucket_holds c (key_at t) n ex →
  (∀ x, ex = Some x → t <= x) →
  n ≠ 0 →
  let c' := (increment_usage c platform action period amount t).2 in
  (increment_usage c platform action period amount t).1 = n + amount
  ∧ DataClient.use_redis c' = false
  ∧ bucket_holds c' (key_at t) (n + amount) None
  ∧ ∀ k, k ≠ key_at t → DataClient.local c' !! k = DataClient.local c !! k.
Proof.
  intros Hc Hfile (e & Hk & Hv & Hex) Hlive Hn. unfold increment_usage. fold (key_at t).
  rewrite increment_fallback by done.
  assert (Hl : live e t).
  { unfold live. rewrite Hex. destruct ex; [by apply Hlive | done]. }
  assert (Hcount : Py.int_of (Py.or_else (Json.loads (DataClient.value e)) (Py.VInt 0)) = Some n).
  { rewrite Hv. apply int_of_count. }
  rewrite (on_local_eq _ _ _ _ (increment_local_live _ _ e n amount t Hfile Hk Hl Hcount)).
  destruct (Z.eqb_spec (n + amount) amount); [lia|].
  unfold bucket_holds, DataClient.with_local. cbn.
  split; [done|]. split; [done|]. split.
  - eexists. rewrite lookup_insert_eq. done.
  - intros k Hne. by rewrite lookup_insert_ne.
Qed.

(** A call after the expiry starts the count again, with a new expiry. *)
Lemma increment_usage_expired c (n amount x : Z) t :
  DataClient.use_redis c = false →
  DataClient.file_key (key_at t) = true →
  bucket_holds c (key_at t) n (Some x) →
  x < t →
  let c' := (increment_usage c platform action period amount t).2 in
  DataClient.use_redis c' = false
  ∧ bucket_holds c' (key_at t) amount (Clock.add_seconds t (_get_ttl_seconds period)).
Proof.
  intros Hc Hfile (e & Hk & Hv & Hex) Hx. unfold increment_usage. fold (key_at t).
  rewrite increment_fallback by done.
  rewrite (on_local_eq _ _ _ _ (increment_local_expired _ _ e x amount t Hfile Hk Hex Hx)).
  rewrite Z.eqb_refl. rewrite set_fallback by done.
  unfold DataClient.on_local, DataClient._set_local. rewrite Hfile. cbn.
  assert ((_get_ttl_seconds period =? 0) = false) as -> by (by destruct period).
  unfold bucket_holds, DataClient.with_local.
  destruct (Clock.add_seconds t (_get_ttl_seconds period)) as [x'|]; cbn.
  - split; [done|]. eexists. rewrite lookup_insert_eq. done.
  - split; [done|]. eexists. rewrite lookup_insert_eq. done.
Qed.

Lemma read_count_bucket c (n : Z) (ex : option Z) (key : string) now :
  DataClient.use_redis c = false →
  DataClient.file_key key = true →
  bucket_holds c key n ex →
  (∀ x, ex = Some x → now <= x) →
  read_count c key now = (Some n, c).
Proof.
  intros Hc Hfile (e & Hk & Hv & Hex) Hlive. unfold read_count.
  rewrite get_fallback by done.
  assert (Hl : live e now).
  { unfold live. rewrite Hex. destruct ex; [by apply Hlive | done]. }
  rewrite (on_local_eq _ _ _ _ (get_local_live _ _ e now Hfile Hk Hl)).
  rewrite Hv. cbn [Json.loads]. rewrite int_of_count. by destruct c.
Qed.

Lemma read_count_absent c (key : string) now :
  DataClient.use_redis c = false →
  DataClient.local c !! key = None →
  read_count c key now = (Some 0, c).
Proof.
  intros Hc Hk. unfold read_count. rewrite get_fallback by done.
  rewrite (on_local_eq _ _ _ _ (get_local_absent _ _ now Hk)). by destruct c.
Qed.

(** Further calls within the bucket: the count goes up by one each. *)
Lemma increment_usage_at_again (times : list Z) : ∀ c (n : Z) (ex : option Z) (key : string),
  DataClient.use_redis c = false →
  DataClient.file_key key = true →
  bucket_holds c key n ex →
  0 < n →
  Forall (λ t, key_at t = key ∧ ∀ x, ex = Some x → t <= x) times →
  DataClient.use_redis (increment_usage_at c platform action period times) = false
  ∧ ∃ ex', bucket_holds (increment_usage_at c platform action period times) key
             (n + Z.of_nat (length times)) ex'
           ∧ (ex' = ex ∨ ex' = None).
Proof.
  induction times as [|t times IH]; intros c n ex key Hc Hfile Hb Hn Hall;
    cbn [increment_usage_at length].
  - split; [done|]. exists ex. rewrite Z.add_0_r. auto.
  - apply Forall_cons in Hall as [[Hkey Ht] Hall]. subst key.
    destruct (increment_usage_again c n 1 ex t Hc Hfile Hb Ht ltac:(lia))
      as (_ & Hc' & Hb' & _).
    destruct (IH _ (n + 1) None (key_at t) Hc' Hfile Hb' ltac:(lia))
      as (Hc'' & ex' & Hb'' & Hex').
    { eapply Forall_impl; [exact Hall|]. intros t' [Hk' _]. split; [exact Hk' | congruence]. }
    split; [done|]. exists ex'. split.
    + replace (n + Z.of_nat (S (length times)))
        with (n + 1 + Z.of_nat (length times)) by lia. exact Hb''.
    + right. by destruct Hex'.
Qed.

(** [increment_usage] called at [times], all of one bucket that had no
    file, none later than the expiry the first call sets: the count read
    afterwards is the number of calls. *)
Lemma usage_count_after_increments c (times : list Z) now :
  DataClient.use_redis c = false →
  DataClient.file_key (key_at now) = true →
  DataClient.local c !! key_at now = None →
  Forall (λ t, key_at t = key_at now) times →
  (∀ t1, head times = Some t1 →
     Forall (λ t, t <= t1 + _get_ttl_seconds period * Clock.usec_per_second) (now :: times)) →
  let c' := increment_usage_at c platform action period times in
  DataClient.use_redis c' = false
  ∧ usage_count c' platform action period now = Some (Z.of_nat (length times)).
Proof.
  intros Hc Hfile Hfresh Hkeys Hlive. unfold usage_count. fold (key_at now).
  destruct times as [|t1 times]; cbn.
  - split; [done|]. by rewrite read_count_absent.
  - apply Forall_cons in Hkeys as [Hk1 Hkeys].
    specialize (Hlive t1 eq_refl).
    apply Forall_cons in Hlive as [Hnow Hlive]. apply Forall_cons in Hlive as [_ Hlive].
    rewrite <- Hk1 in Hfresh.
    destruct (increment_usage_fresh c 1 t1 Hc ltac:(by rewrite Hk1) Hfresh)
      as (Hc1 & Hb1 & _).
    rewrite Hk1 in Hb1.
    assert (Hbound : ∀ t x, t <= t1 + _get_ttl_seconds period * Clock.usec_per_second →
              Clock.add_seconds t1 (_get_ttl_seconds period) = Some x → t <= x).
    { intros t x Ht. unfold Clock.add_seconds.
      case_match; [|done]. intros [= <-]. done. }
    destruct (increment_usage_at_again times _ 1 _ (key_at now) Hc1 Hfile Hb1 ltac:(lia))
      as (Hc2 & ex' & Hb2 & Hex').
    { rewrite Forall_forall in Hkeys, Hlive. apply Forall_forall. intros t Ht.
      split; [by apply Hkeys|]. intros x Hx. apply (Hbound t x); [by apply Hlive | done]. }
    split; [done|].
    rewrite (read_count_bucket _ (1 + Z.of_nat (length times)) ex').
    + cbn. f_equal. lia.
    + done.
    + done.
    + done.
    + intros x Hx. destruct Hex' as [-> | ->]; [|done]. by apply (Hbound now x).
Qed.

End bucket.

(** ** The 90% threshold in double precision *)

Section threshold.

Lemma round53_small (n : Z) : 0 < n < 2 ^ 53 → Float.round53 n = (n, 0).
Proof.
  intros Hn. unfold Float.round53.
  assert (Z.log2 (Z.abs n) < 53) by (apply Z.log2_lt_pow2; lia).
  destruct (Z.leb_spec (Z.log2 (Z.abs n) - 52) 0); [done | lia].
Qed.

(** Above [2^53] the rounded value [q * 2^s] is within half a unit [2^s]
    of [p], and it is the multiple of the unit that lies within a
    quarter of a unit of [p] when there is one. *)
Lemma round53_large (p : Z) :
  2 ^ 53 <= p →
  ∃ s T q, 0 < s ∧ T = 2 ^ s ∧ Float.round53 p = (q, s)
    ∧ T * 2 ^ 52 <= p < T * 2 ^ 53
    ∧ 2 * Z.abs (q * T - p) <= T
    ∧ (∀ k, 4 * Z.abs (k * T - p) < T → q = k).
Proof.
  intros Hp. unfold Float.round53.
  assert (Hpos : 0 < p) by lia.
  rewrite (Z.abs_eq p) by lia.
  destruct (Z.log2_spec p Hpos) as [Hlo Hhi].
  assert (53 <= Z.log2 p) by (apply Z.log2_le_pow2; lia).
  set (s := Z.log2 p - 52) in *.
  destruct (Z.leb_spec s 0); [lia|].
  eexists s, (2 ^ s), _. split; [done|]. split; [done|]. split; [reflexivity|].
  rewrite (Z.sgn_pos p) by lia. rewrite Z.mul_1_l.
  assert (HT : 2 ^ s = 2 * 2 ^ (s - 1)).
  { replace s with (1 + (s - 1)) at 1 by lia. by rewrite Z.pow_add_r by lia. }
  assert (0 < 2 ^ (s - 1)) by (apply Z.pow_pos_nonneg; lia).
  assert (Hb : 2 ^ Z.log2 p = 2 ^ s * 2 ^ 52).
  { rewrite <- Z.pow_add_r by lia. f_equal. lia. }
  assert (Hb' : 2 ^ Z.succ (Z.log2 p) = 2 ^ s * 2 ^ 53).
  { rewrite <- Z.pow_add_r by lia. f_equal. lia. }
  pose proof (Z.div_mod p (2 ^ s) ltac:(lia)) as Hdm.
  pose proof (Z.mod_pos_bound p (2 ^ s) ltac:(lia)) as Hmod.
  set (T := 2 ^ s) in *. set (h := 2 ^ (s - 1)) in *.
  set (q := p / T) in *. set (r := p mod T) in *.
  split; [lia|]. split.
  - destruct (Z.ltb_spec h r); simpl; [nia|].
    destruct (Z.eqb_spec r h); simpl; [destruct (Z.odd q); nia | nia].
  - intros k Hk.
    assert (0 <= k - q).
    { destruct (Z.le_gt_cases 0 (k - q)); [done|]. exfalso.
      assert ((k - q) * T <= (-1) * T) by (apply Z.mul_le_mono_nonneg_r; lia). lia. }
    assert (k - q <= 1).
    { destruct (Z.le_gt_cases (k - q) 1); [done|]. exfalso.
      assert (2 * T <= (k - q) * T) by (apply Z.mul_le_mono_nonneg_r; lia). lia. }
    assert (k = q ∧ 2 * r < h ∨ k = q + 1 ∧ h < r) as [[-> Hr] | [-> Hr]].
    { assert (k = q ∨ k = q + 1) as [-> | ->] by lia; [left | right]; (split; [done | lia]). }
    + destruct (Z.ltb_spec h r); [lia|]. by destruct (Z.eqb_spec r h); [lia|].
    + by destruct (Z.ltb_spec h r); [|lia].
Qed.

(** For limits below [2^49] the test [current_count >= limit * 0.9] is
    the exact test [9 * limit <= 10 * current_count]. *)
Lemma ninety_percent_threshold (L c : Z) :
  0 < L < 2 ^ 49 →
  ∃ x, Float.mul_nine_tenths L = Some x ∧ Float.int_ge c x = (9 * L <=? 10 * c).
Proof.
  intros HL. unfold Float.mul_nine_tenths, Float.of_int.
  rewrite round53_small by lia.
  destruct (Z.leb_spec (2 ^ 1024) (Z.abs L * 2 ^ 0)) as [Hbig|_]; [exfalso; lia|].
  unfold Float.nine_tenths.
  destruct (Z.eq_dec L 1) as [-> | HL1].
  - rewrite round53_small by lia. eexists; split; [done|]. simpl.
    destruct (Z.leb_spec 8106479329266893 (c * 9007199254740992));
      destruct (Z.leb_spec 9 (10 * c)); lia.
  - destruct (round53_large (L * 8106479329266893) ltac:(lia))
      as (s & T & q & Hs & HT & -> & Hrange & Hnear & Huniq).
    eexists; split; [done|]. unfold Float.int_ge.
    replace (0 + s - 53) with (s - 53) by lia.
    assert (s < 50).
    { apply (Z.pow_lt_mono_r_iff 2); [lia | lia |]. rewrite <- HT. lia. }
    destruct (Z.leb_spec 0 (s - 53)); [lia|].
    replace (- (s - 53)) with (53 - s) by lia.
    assert (HAT : 2 ^ (53 - s) * T = 2 ^ 53).
    { rewrite HT, <- Z.pow_add_r by lia. f_equal. lia. }
    assert (0 < T) by (rewrite HT; apply Z.pow_pos_nonneg; lia).
    set (A := 2 ^ (53 - s)) in *.
    destruct (Z.leb_spec q (c * A)) as [Hq | Hq];
      destruct (Z.leb_spec (9 * L) (10 * c)) as [Hc | Hc]; try done; exfalso.
    + assert (q * T <= c * A * T) by (apply Z.mul_le_mono_nonneg_r; lia).
      replace (c * A * T) with (c * 2 ^ 53) in * by (rewrite <- HAT; ring).
      lia.
    + assert ((c * A + 1) * T <= q * T) by (apply Z.mul_le_mono_nonneg_r; lia).
      replace ((c * A + 1) * T) with (c * 2 ^ 53 + T) in * by (rewrite <- HAT; ring).
      destruct (Z.eq_dec (10 * c) (9 * L)) as [Heq | Hne]; [|lia].
      assert (q = c * A); [|lia].
      apply Huniq.
      replace (c * A * T) with (c * 2 ^ 53) by (rewrite <- HAT; ring).
      lia.
Qed.

(** The comparison chain of [check_rate_limit] on ordinary counters. *)
Lemma classify_exact (current limit : Z) :
  0 < limit < 2 ^ 49 → Z.abs current < 2 ^ 1023 →
  RateLimit.classify current limit
  = Some (if limit <=? current then RateLimit.LIMIT_EXCEEDED
          else if 9 * limit <=? 10 * current then RateLimit.LIMIT_REACHED
          else RateLimit.ALLOWED).
Proof.
  intros HL Hc. unfold RateLimit.classify, log_rate_limit_raises.
  destruct (Z.ltb_spec 0 limit); [|lia].
  destruct (Z.leb_spec ((2 ^ 1024 - 2 ^ 970) * limit) (Z.abs current)); [exfalso; lia|].
  cbn [andb]. destruct (limit <=? current); [done|].
  destruct (ninety_percent_threshold limit current HL) as (x & -> & ->). done.
Qed.

End threshold.

(** ** Classification of the bucket count *)

Section classification.

Import RateLimit Notions.
Context {R : Type} `{!Primary R}.

(** C1, as the code has it.  For a platform and period with configured
    limit [L] ([0 < L < 2^49]) and a bucket count [n] ([|n| < 2^1023]),
    [check_rate_limit] answers [LIMIT_EXCEEDED] when [n >= L],
    [LIMIT_REACHED] when [n] is at least 90% of [L] and below [L], and
    [ALLOWED] below 90%; the count [L - 1] is [LIMIT_REACHED] exactly
    when [L >= 10].  In particular, on a client without primary store
    whose bucket key is a file name and has no file yet, after [L - 1]
    calls of [increment_usage] in the bucket, none of them (nor the
    check) later than the expiry the first call sets, the answer is
    [LIMIT_REACHED] when [L >= 10] and [ALLOWED] when [L < 10]. *)
Theorem check_rate_limit_classification
    (limits : platform_limits) (platform action : string) (period : RateLimitPeriod)
    (now : Z) (d : list (RateLimitPeriod * Z)) (L : Z) :
  limits !! Py.lower platform = Some d →
  period_limit d period = Some L →
  0 < L < 2 ^ 49 →
  (∀ (c : DataClient.client R) (n : Z),
     usage_count c platform action period now = Some n →
     Z.abs n < 2 ^ 1023 →
     let answer := (check_rate_limit limits c platform action period now).1 in
     answer.1.2 = n ∧ answer.2 = L
     ∧ (L <= n → answer.1.1 = LIMIT_EXCEEDED)
     ∧ (9 * L <= 10 * n < 10 * L → answer.1.1 = LIMIT_REACHED)
     ∧ (10 * n < 9 * L → answer.1.1 = ALLOWED)
     ∧ (n = L - 1 → (answer.1.1 = LIMIT_REACHED ↔ 10 <= L)))
  ∧ (∀ (c : DataClient.client R) (times : list Z),
       DataClient.use_redis c = false →
       DataClient.file_key (_get_time_window_key (Py.lower platform) period action now)
       = true →
       DataClient.local c
         !! _get_time_window_key (Py.lower platform) period action now = None →
       Forall (λ t, _get_time_window_key (Py.lower platform) period action t
                    = _get_time_window_key (Py.lower platform) period action now) times →
       (∀ t1, head times = Some t1 →
          Forall (λ t, t <= t1 + _get_ttl_seconds period * Clock.usec_per_second)
                 (now :: times)) →
       Z.of_nat (length times) = L - 1 →
       (check_rate_limit limits (increment_usage_at c platform action period times)
          platform action period now).1
       = (if 10 <=? L then LIMIT_REACHED else ALLOWED, L - 1, L)).
Proof.
  intros Hd Hp HL.
  assert (Hcheck : ∀ (c : DataClient.client R) (n : Z),
            usage_count c platform action period now = Some n →
            Z.abs n < 2 ^ 1023 →
            (check_rate_limit limits c platform action period now).1
            = (if L <=? n then LIMIT_EXCEEDED
               else if 9 * L <=? 10 * n then LIMIT_REACHED else ALLOWED, n, L)).
  { intros c n Hn Hrange. unfold usage_count in Hn. unfold check_rate_limit.
    rewrite Hd, Hp.
    destruct (read_count c _ now) as [count c1]. cbn in Hn. subst count.
    by rewrite classify_exact. }
  split.
  - intros c n Hn Hrange answer. subst answer. rewrite (Hcheck c n Hn Hrange). cbn.
    split; [done|]. split; [done|].
    destruct (Z.leb_spec L n); destruct (Z.leb_spec (9 * L) (10 * n));
      repeat split; intros; try done; try lia.
  - intros c times Hc Hfile Hfresh Hkeys Hlive Hlen.
    destruct (usage_count_after_increments platform action period c times now
                Hc Hfile Hfresh Hkeys Hlive) as [_ Hcount].
    rewrite Hlen in Hcount.
    rewrite (Hcheck _ (L - 1) Hcount) by lia.
    destruct (Z.leb_spec L (L - 1)); [lia|].
    by destruct (Z.leb_spec (9 * L) (10 * (L - 1))); destruct (Z.leb_spec 10 L); try lia.
Qed.

End classification.

(** Mastodon's hourly limit is 10: nine posts are [LIMIT_REACHED]. *)
Lemma check_rate_limit_classification_witness :
  (RateLimit.check_rate_limit RateLimit.default_limits
     (Notions.increment_usage_at (DataClient.Client (R:=unit) false None ∅)
        "mastodon" "post" RateLimit.HOURLY (replicate 9 Notions.new_year_2024))
     "mastodon" "post" RateLimit.HOURLY Notions.new_year_2024).1
  = (RateLimit.LIMIT_REACHED, 9, 10).
Proof.
  refine (proj2 (check_rate_limit_classification RateLimit.default_limits
                   "mastodon" "post" RateLimit.HOURLY Notions.new_year_2024
                   [(RateLimit.HOURLY, 10); (RateLimit.DAILY, 100)] 10 _ _ _)
                (DataClient.Client false None ∅) (replicate 9 Notions.new_year_2024)
                _ _ _ _ _ _).
  - reflexivity.
  - reflexivity.
  - lia.
  - reflexivity.
  - vm_compute. reflexivity.
  - reflexivity.
  - repeat constructor.
  - intros t1 [= <-]. repeat constructor; vm_compute; discriminate.
  - reflexivity.
Defined.

(** Twitter's hourly limit is 5: after four posts in the hour the count is
    [L - 1 = 4], below 90% of 5, and the answer is [ALLOWED]. *)
Lemma check_rate_limit_four_of_five_allowed :
  (RateLimit.check_rate_limit RateLimit.default_limits
     (Notions.increment_usage_at (DataClient.Client (R:=unit) false None ∅)
        "twitter" "post" RateLimit.HOURLY (replicate 4 Notions.new_year_2024))
     "twitter" "post" RateLimit.HOURLY Notions.new_year_2024).1
  = (RateLimit.ALLOWED, 4, 5)
  ∧ (RateLimit.check_rate_limit RateLimit.default_limits
       (Notions.increment_usage_at (DataClient.Client (R:=unit) false None ∅)
          "twitter" "post" RateLimit.HOURLY (replicate 4 Notions.new_year_2024))
       "twitter" "post" RateLimit.HOURLY Notions.new_year_2024).1.1.1
    ≠ RateLimit.LIMIT_REACHED.
Proof. split; [vm_compute; reflexivity | vm_compute; discriminate]. Qed.

(** ** The expiry of a counter on the fallback directory *)

Section expiry.

Import RateLimit Notions.
Context {R : Type} `{!Primary R}.

(** C8, as the code has it.  Without primary store, for a key that is a
    file name and whose file holds an expiry:
    - when the entry has expired, or its value converts with [int],
      [increment] rewrites the file without expiry;
    - when the entry is live and its value does not convert, [increment]
      returns 0 and the file, expiry included, stays as it is.
    So a bucket counter gets its period's expiry from the first
    [increment_usage]; a second call in the bucket that is not later than
    that expiry leaves the counter at 2 without expiry, and a second call
    after it starts the counter again at 1 with a new expiry. *)
Theorem increment_drops_expiry (c : DataClient.client R) :
  DataClient.use_redis c = false →
  (∀ (key : string) (amount now : Z) (e : DataClient.entry) (x : Z),
     DataClient.file_key key = true →
     DataClient.local c !! key = Some (Some e) →
     DataClient.expires_at e = Some x →
     (x < now
      ∨ ∃ n, Py.int_of (Py.or_else (Json.loads (DataClient.value e)) (Py.VInt 0)) = Some n) →
     ∃ e', DataClient.local (DataClient.increment c key amount now).2 !! key
             = Some (Some e')
           ∧ DataClient.expires_at e' = None)
  ∧ (∀ (key : string) (amount now : Z) (e : DataClient.entry) (x : Z),
       DataClient.file_key key = true →
       DataClient.local c !! key = Some (Some e) →
       DataClient.expires_at e = Some x →
       now <= x →
       Py.int_of (Py.or_else (Json.loads (DataClient.value e)) (Py.VInt 0)) = None →
       (DataClient.increment c key amount now).1 = 0
       ∧ DataClient.local (DataClient.increment c key amount now).2 = DataClient.local c)
  ∧ (∀ (platform action : string) (period : RateLimitPeriod) (t1 t2 x : Z),
       let key := _get_time_window_key (Py.lower platform) period action t1 in
       DataClient.file_key key = true →
       DataClient.local c !! key = None →
       _get_time_window_key (Py.lower platform) period action t2 = key →
       Clock.add_seconds t1 (_get_ttl_seconds period) = Some x →
       let c1 := (increment_usage c platform action period 1 t1).2 in
       let c2 := (increment_usage c1 platform action period 1 t2).2 in
       bucket_holds c1 key 1 (Some x)
       ∧ (t2 <= x → bucket_holds c2 key 2 None)
       ∧ (x < t2 →
            bucket_holds c2 key 1 (Clock.add_seconds t2 (_get_ttl_seconds period)))).
Proof.
  intros Hc. split; [|split].
  - intros key amount now e x Hfile Hk Hx Hcase.
    rewrite increment_fallback by done.
    destruct (Z.lt_ge_cases x now) as [Hexp | Hlive].
    + rewrite (on_local_eq _ _ _ _
                 (increment_local_expired _ _ e x amount now Hfile Hk Hx Hexp)).
      cbn. rewrite lookup_insert_eq. by eexists.
    + destruct Hcase as [? | [n Hn]]; [lia|].
      assert (Hl : live e now) by (unfold live; rewrite Hx; lia).
      rewrite (on_local_eq _ _ _ _
                 (increment_local_live _ _ e n amount now Hfile Hk Hl Hn)).
      cbn. rewrite lookup_insert_eq. by eexists.
  - intros key amount now e x Hfile Hk Hx Hlive Hn.
    rewrite increment_fallback by done.
    assert (Hl : live e now) by (unfold live; rewrite Hx; lia).
    unfold DataClient.on_local, DataClient._increment_local.
    rewrite (get_local_live _ _ e) by done. by rewrite Hn.
  - intros platform action period t1 t2 x key Hfile Hfresh Hkey Hadd c1 c2.
    destruct (increment_usage_fresh platform action period c 1 t1 Hc Hfile Hfresh)
      as (Hc1 & Hb1 & _).
    fold key in Hb1. rewrite Hadd in Hb1. fold c1 in Hc1, Hb1.
    split; [done|].
    rewrite <- Hkey in Hb1, Hfile. split.
    + intros Ht2.
      destruct (increment_usage_again platform action period c1 1 1 (Some x) t2
                  Hc1 Hfile Hb1) as (_ & _ & Hb2 & _).
      * by intros ? [= <-].
      * done.
      * by rewrite Hkey in Hb2.
    + intros Ht2.
      destruct (increment_usage_expired platform action period c1 1 1 x t2
                  Hc1 Hfile Hb1 Ht2) as (_ & Hb2).
      by rewrite Hkey in Hb2.
Qed.

End expiry.

(** Two posts to twitter within the first hour of 2024. *)
Lemma increment_drops_expiry_witness :
  let c := DataClient.Client (R:=unit) false None ∅ in
  let t1 := Notions.new_year_2024 in
  let t2 := 63839664060000000 in
  let key := "rate_limit:twitter:post:hourly:2024-01-01-00"%string in
  let c1 := (RateLimit.increment_usage c "twitter" "post" RateLimit.HOURLY 1 t1).2 in
  let c2 := (RateLimit.increment_usage c1 "twitter" "post" RateLimit.HOURLY 1 t2).2 in
  Notions.bucket_holds c1 key 1 (Some 63839667600000000) ∧ Notions.bucket_holds c2 key 2 None.
Proof.
  intros c t1 t2 key.
  destruct (proj2 (proj2 (increment_drops_expiry c eq_refl))
              "twitter"%string "post"%string RateLimit.HOURLY t1 t2 63839667600000000)
    as (Hfirst & Hsecond & _).
  - vm_compute. reflexivity.
  - reflexivity.
  - reflexivity.
  - reflexivity.
  - split; [exact Hfirst|]. apply Hsecond. vm_compute. discriminate.
Defined.

(** Two entries that keep an expiry.  The file [k.json] holds the text
    [abc] and an expiry an hour ahead: [increment] returns 0 and leaves
    it.  And twitter's monthly counter, were it configured, would get an
    expiry of 30 days with a post on 2024-01-01 00:00; a second post in
    the same bucket on 2024-01-31 12:00 finds it expired and starts the
    counter again at 1, with an expiry 30 days on. *)
Lemma increment_keeps_expiry :
  (let e := DataClient.Entry (Json.JStr "abc") Notions.new_year_2024
              (Some (Notions.new_year_2024 + 3600000000)) in
   let c := DataClient.Client (R:=unit) false None {[ "k"%string := Some e ]} in
   DataClient.increment c "k" 1 Notions.new_year_2024 = (0, c)
   ∧ DataClient.local c !! "k"%string = Some (Some e))
  ∧ (let t1 := Notions.new_year_2024 in
     let t2 := 63842299200000000 in
     let key := "rate_limit:twitter:post:monthly:2024-01"%string in
     let c := DataClient.Client (R:=unit) false None ∅ in
     let c1 := (RateLimit.increment_usage c "twitter" "post" RateLimit.MONTHLY 1 t1).2 in
     let c2 := (RateLimit.increment_usage c1 "twitter" "post" RateLimit.MONTHLY 1 t2).2 in
     RateLimit._get_time_window_key "twitter" RateLimit.MONTHLY "post" t1 = key
     ∧ RateLimit._get_time_window_key "twitter" RateLimit.MONTHLY "post" t2 = key
     ∧ DataClient.local c1 !! key
       = Some (Some (DataClient.Entry (Json.JInt 1) t1 (Some 63842256000000000)))
     ∧ DataClient.local c2 !! key
       = Some (Some (DataClient.Entry (Json.JInt 1) t2 (Some 63844891200000000)))).
Proof. vm_compute. repeat split. Qed.

(** ** Values through the fallback directory *)

Section json_values.

Import Notions.

(** Induction on values, with the hypothesis for every item of a list,
    a tuple or a dictionary. *)
Lemma value_ind (P : Py.value → Prop) :
  P Py.VNone →
  (∀ b, P (Py.VBool b)) →
  (∀ n, P (Py.VInt n)) →
  (∀ s, P (Py.VStr s)) →
  (∀ xs, Forall P xs → P (Py.VList xs)) →
  (∀ xs, Forall P xs → P (Py.VTuple xs)) →
  (∀ items, Forall (λ item, P item.2) items → P (Py.VDict items)) →
  (∀ str, P (Py.VObj str)) →
  (∀ x, P (Py.VFloat x)) →
  ∀ v, P v.
Proof.
  intros HNone HBool HInt HStr HList HTuple HDict HObj HFloat.
  fix IH 1. intros [ | b | n | s | xs | xs | items | str | x].
  - exact HNone.
  - apply HBool.
  - apply HInt.
  - apply HStr.
  - apply HList. induction xs as [|x xs IHxs]; constructor; [apply IH | exact IHxs].
  - apply HTuple. induction xs as [|x xs IHxs]; constructor; [apply IH | exact IHxs].
  - apply HDict. induction items as [|[k x] items IHitems]; constructor;
      [apply IH | exact IHitems].
  - apply HObj.
  - apply HFloat.
Qed.

Lemma key_eqb_str (a : string) (k : Py.key) :
  is_str_key k = true → Py.KStr a ≠ k → Py.key_eqb (Py.KStr a) k = false.
Proof.
  destruct k; try done. intros _ Hne. unfold Py.key_eqb. cbn.
  by apply bool_decide_eq_false.
Qed.

(** Setting a string key that the dictionary does not have appends it. *)
Lemma dict_set_fresh (a : string) (v : Py.value) (d : list (Py.key * Py.value)) :
  Forall (λ item, is_str_key item.1 = true) d →
  Py.KStr a ∉ d.*1 →
  Py.dict_set (Py.KStr a) v d = d ++ [(Py.KStr a, v)].
Proof.
  induction d as [|[k x] d IH]; intros Hstr Hfresh; [done|].
  apply Forall_cons in Hstr as [Hk Hstr]. cbn in Hfresh |- *.
  apply not_elem_of_cons in Hfresh as [Hne Hfresh].
  rewrite key_eqb_str by done. by rewrite IH.
Qed.

Lemma loads_members (members : list (string * Json.doc)) :
  ∀ acc : list (Py.key * Py.value),
  Forall (λ item, is_str_key item.1 = true) acc →
  NoDup (acc.*1 ++ (Py.KStr <$> members.*1)) →
  foldl (λ acc member, Py.dict_set (Py.KStr member.1) (Json.loads member.2) acc) acc members
  = acc ++ ((λ member, (Py.KStr member.1, Json.loads member.2)) <$> members).
Proof.
  induction members as [|[n j] members IH]; intros acc Hstr Hdup; cbn.
  - by rewrite app_nil_r.
  - cbn in Hdup. rewrite dict_set_fresh; [|done|].
    + rewrite IH.
      * by rewrite <- app_assoc.
      * apply Forall_app. split; [done|]. by repeat constructor.
      * rewrite fmap_app. cbn. by rewrite <- app_assoc.
    + apply NoDup_app in Hdup as (_ & Hdisj & _). intros Hin.
      apply (Hdisj _ Hin). constructor.
Qed.

(** [json.loads] returns a native value as [json.dumps] got it. *)
Lemma dumps_loads_native (default_str : bool) (v : Py.value) :
  json_native v = true →
  ∃ j, Json.dumps default_str v = Some j ∧ Json.loads j = v.
Proof.
  induction v as [ | b | n | s | xs IH | xs IH | items IH | str | x ] using value_ind;
    intros Hv; try discriminate Hv; [| | | | | | by exists (Json.JFloat x)].
  - by exists Json.JNull.
  - by exists (Json.JBool b).
  - by exists (Json.JInt n).
  - by exists (Json.JStr s).
  - assert (∃ js, mapM (Json.dumps default_str) xs = Some js ∧ map Json.loads js = xs)
      as (js & Hjs & Hxs).
    { cbn in Hv. induction xs as [|x xs IHxs]; [by exists []|].
      apply Forall_cons in IH as [IHx IH]. cbn in Hv. apply andb_prop in Hv as [Hx Hv].
      destruct (IHx Hx) as (j & Hj & Hjx). destruct (IHxs IH Hv) as (js & Hjs & Hjsx).
      exists (j :: js). cbn. rewrite Hj. cbn. rewrite Hjs. cbn. by rewrite Hjx, Hjsx. }
    exists (Json.JArr js). cbn. rewrite Hjs. cbn. by rewrite Hxs.
  - cbn in Hv. apply andb_prop in Hv as [Hv Hdup]. apply bool_decide_eq_true in Hdup.
    assert (∃ ms, mapM (λ item, n ← Json.key_name item.1;
                                 j ← Json.dumps default_str item.2; Some (n, j)) items
                  = Some ms
                  ∧ (λ member, (Py.KStr member.1, Json.loads member.2)) <$> ms = items)
      as (ms & Hms & Hitems).
    { clear Hdup. induction items as [|[k x] items IHitems]; [by exists []|].
      apply Forall_cons in IH as [IHx IH]. cbn in Hv. apply andb_prop in Hv as [Hx Hv].
      apply andb_prop in Hx as [Hk Hx]. destruct k as [a| | | | |]; try done.
      destruct (IHx Hx) as (j & Hj & Hjx). destruct (IHitems IH Hv) as (ms & Hms & Hmsx).
      exists ((a, j) :: ms). cbn in *. rewrite Hj. cbn. rewrite Hms. cbn.
      by rewrite Hjx, Hmsx. }
    exists (Json.JObj ms). cbn. rewrite Hms. cbn. split; [done|].
    rewrite loads_members.
    + cbn. by rewrite Hitems.
    + constructor.
    + cbn. replace (Py.KStr <$> ms.*1) with items.*1; [done|].
      rewrite <- Hitems. by rewrite <- !list_fmap_compose.
Qed.

End json_values.

Section roundtrip.

Import Notions.
Context {R : Type} `{!Primary R}.


End roundtrip.



(** ** The conjunctive policy of [is_action_allowed] *)

Section conjunctive.

Import RateLimit Notions.
Context {R : Type} `{!Primary R}.
Variable limits : platform_limits.
Implicit Types (c : DataClient.client R) (platform action : string) (now : Z).

Lemma period_reports_periods platform action now (periods : list RateLimitPeriod) :
  ∀ c, (period_reports limits c platform action now periods).*1 = periods.
Proof.
  induction periods as [|p periods IH]; intros c; cbn; [done|].
  destruct (check_rate_limit limits c platform action p now) as [[[result n] l] c1].
  cbn. by rewrite IH.
Qed.

(** The loop of [is_action_allowed], in terms of the reports. *)
Lemma check_periods_reports platform action now (periods : list RateLimitPeriod) :
  ∀ (allowed : bool) ds (blocked_by : option string) c,
  ∃ ds' c',
    foldl (check_period limits platform action now) (allowed, ds, blocked_by, c) periods
    = (allowed && negb (existsb exceeded (period_reports limits c platform action now periods)),
       ds',
       last_blocked blocked_by (period_reports limits c platform action now periods),
       c').
Proof.
  induction periods as [|p periods IH]; intros allowed ds blocked_by c; cbn.
  - exists ds, c. by rewrite andb_true_r.
  - destruct (check_rate_limit limits c platform action p now) as [[[result n] l] c1].
    cbn. unfold exceeded at 1 3. cbn.
    destruct (decide (result = LIMIT_EXCEEDED)) as [-> | Hne].
    + destruct (IH false (set_period_details (period_value p)
                            (PeriodDetails (result_value LIMIT_EXCEEDED) n l (Z.max 0 (l - n))) ds)
                  (Some (period_value p)) c1) as (ds' & c' & ->).
      exists ds', c'. cbn. by rewrite andb_false_r.
    + destruct (IH allowed (set_period_details (period_value p)
                              (PeriodDetails (result_value result) n l (Z.max 0 (l - n))) ds)
                  blocked_by c1) as (ds' & c' & ->).
      exists ds', c'. unfold last_blocked, exceeded. cbn.
      by rewrite (bool_decide_eq_false_2 _ Hne).
Qed.


Lemma existsb_exceeded (reports : list (RateLimitPeriod * RateLimitResult)) :
  existsb exceeded reports = true ↔ ∃ period, (period, LIMIT_EXCEEDED) ∈ reports.
Proof.
  rewrite existsb_exists. split.
  - intros ([p result] & Hin & Hex). apply bool_decide_eq_true in Hex. cbn in Hex.
    subst. exists p. by apply list_elem_of_In.
  - intros [p Hin]. exists (p, LIMIT_EXCEEDED). split; [by apply list_elem_of_In | done].
Qed.

Lemma get_local_same_reads (fs : DataClient.files) (key : string) now :
  same_reads now fs (DataClient._get_local fs key now).2.
Proof.
  intros k.
  assert (Hcases : (DataClient._get_local fs key now).2 = fs
                   ∨ ∃ e t, fs !! key = Some (Some e) ∧ DataClient.expires_at e = Some t
                            ∧ t < now
                            ∧ (DataClient._get_local fs key now).2 = base.delete key fs).
  { unfold DataClient._get_local, DataClient._delete_local.
    destruct (DataClient.file_key key) eqn:Hfile; [|by left].
    rewrite (file_key_kind _ Hfile).
    destruct (fs !! key) as [[e|]|] eqn:Hk; [|by left|by left].
    destruct (DataClient.expires_at e) as [t|] eqn:Ht; [|by left].
    destruct (Z.ltb_spec t now) as [Hexp|]; [|by left].
    right. by exists e, t. }
  destruct Hcases as [-> | (e & t & Hk & Ht & Hexp & ->)]; [done|].
  unfold DataClient._get_local.
  destruct (DataClient.file_key k) eqn:Hfile; [|done].
  destruct (decide (k = key)) as [-> | Hne].
  - rewrite lookup_delete_eq, Hk, Ht. by destruct (Z.ltb_spec t now); [|lia].
  - rewrite lookup_delete_ne by done.
    destruct (fs !! k) as [[e0|]|]; [|done|done].
    destruct (DataClient.expires_at e0) as [t0|]; [|done].
    by destruct (t0 <? now).
Qed.

(** Without primary store, a check reads the same from directories that
    read the same, and leaves them so. *)
Lemma check_rate_limit_same_reads c c' platform action period now :
  DataClient.use_redis c = false → DataClient.use_redis c' = false →
  same_reads now (DataClient.local c) (DataClient.local c') →
  (check_rate_limit limits c' platform action period now).1
  = (check_rate_limit limits c platform action period now).1
  ∧ DataClient.use_redis (check_rate_limit limits c' platform action period now).2 = false
  ∧ same_reads now (DataClient.local c)
      (DataClient.local (check_rate_limit limits c' platform action period now).2).
Proof.
  intros Hc Hc' Hsame. unfold check_rate_limit.
  destruct (limits !! Py.lower platform) as [d|]; [|done].
  destruct (period_limit d period) as [limit|]; [|done].
  unfold read_count. rewrite !get_fallback by done. unfold DataClient.on_local.
  set (key := _get_time_window_key (Py.lower platform) period action now).
  pose proof (Hsame key) as Hkey.
  pose proof (get_local_same_reads (DataClient.local c') key now) as Hafter.
  destruct (DataClient._get_local (DataClient.local c) key now) as [v fs1].
  destruct (DataClient._get_local (DataClient.local c') key now) as [v' fs1'].
  cbn in Hkey, Hafter. subst v'.
  assert (Hfinal : same_reads now (DataClient.local c) fs1').
  { intros k. by rewrite Hsame, Hafter. }
  destruct (Py.int_of (Py.or_else v (Py.VInt 0))) as [current|]; [|done].
  by destruct (classify current limit).
Qed.

Lemma period_reports_fallback platform action now (periods : list RateLimitPeriod) :
  ∀ c c',
  DataClient.use_redis c = false → DataClient.use_redis c' = false →
  same_reads now (DataClient.local c) (DataClient.local c') →
  period_reports limits c' platform action now periods
  = (λ period, (period, (check_rate_limit limits c platform action period now).1.1.1))
      <$> periods.
Proof.
  induction periods as [|p periods IH]; intros c c' Hc Hc' Hsame; cbn; [done|].
  destruct (check_rate_limit_same_reads c c' platform action p now Hc Hc' Hsame)
    as (Hresult & Hredis & Hreads).
  destruct (check_rate_limit limits c' platform action p now) as [[[result n] l] c1].
  cbn in Hresult, Hredis, Hreads. rewrite <- Hresult. cbn.
  f_equal. by apply IH.
Qed.

(** C4.  For a configured platform, [is_action_allowed] with
    [check_all_periods] checks every configured period, in the order of
    the configuration, and answers [False] exactly when one of the
    checks reports [LIMIT_EXCEEDED], whatever the others report.
    Without primary store these reports are those of [check_rate_limit]
    on the client as it is when [is_action_allowed] is called. *)
Theorem is_action_allowed_conjunctive c platform action now
    (d : list (RateLimitPeriod * Z)) :
  limits !! Py.lower platform = Some d →
  let reports := period_reports limits c platform action now d.*1 in
  let allowed := (is_action_allowed limits c platform action true now).1.1 in
  reports.*1 = d.*1
  ∧ (allowed = false ↔ ∃ period, (period, LIMIT_EXCEEDED) ∈ reports)
  ∧ (allowed = true ↔ ∀ period, (period, LIMIT_EXCEEDED) ∉ reports)
  ∧ (DataClient.use_redis c = false →
     reports = (λ period, (period, (check_rate_limit limits c platform action period now).1.1.1))
                 <$> d.*1).
Proof.
  intros Hd reports allowed. subst allowed. unfold is_action_allowed. rewrite Hd.
  destruct (check_periods_reports platform action now d.*1 true [] None c)
    as (ds' & c' & ->). cbn. fold reports.
  split; [apply period_reports_periods|].
  pose proof (existsb_exceeded reports) as Hex.
  destruct (existsb exceeded reports); cbn.
  - split; [|split].
    + split; [intros _; by apply Hex | done].
    + split; [done|]. intros Hall. destruct (proj1 Hex eq_refl) as [p Hp].
      by destruct (Hall p).
    + intros Hc. by apply period_reports_fallback.
  - split; [|split].
    + split; [done|]. intros Hp. by apply Hex in Hp.
    + split; [|done]. intros _ p Hp. assert (false = true); [|done].
      apply Hex. by exists p.
    + intros Hc. by apply period_reports_fallback.
Qed.

End conjunctive.

(** Five posts to twitter in the hour and none counted for the day: the
    hourly period alone blocks. *)
Lemma is_action_allowed_conjunctive_witness :
  let c := Notions.increment_usage_at (DataClient.Client (R:=unit) false None ∅)
             "twitter" "post" RateLimit.HOURLY (replicate 5 Notions.new_year_2024) in
  (RateLimit.is_action_allowed RateLimit.default_limits c "twitter" "post" true Notions.new_year_2024).1.1 = false
  ∧ Notions.period_reports RateLimit.default_limits c "twitter" "post" Notions.new_year_2024
      [RateLimit.HOURLY; RateLimit.DAILY]
    = [(RateLimit.HOURLY, RateLimit.LIMIT_EXCEEDED); (RateLimit.DAILY, RateLimit.ALLOWED)].
Proof.
  intros c.
  pose proof (is_action_allowed_conjunctive RateLimit.default_limits c "twitter" "post" Notions.new_year_2024
                [(RateLimit.HOURLY, 5); (RateLimit.DAILY, 50)] eq_refl)
    as (_ & Hfalse & _ & Hreports).
  change ([(RateLimit.HOURLY, 5); (RateLimit.DAILY, 50)].*1)
    with [RateLimit.HOURLY; RateLimit.DAILY] in Hfalse, Hreports.
  rewrite (Hreports eq_refl) in Hfalse |- *.
  split.
  - apply Hfalse. exists RateLimit.HOURLY. vm_compute. left.
  - vm_compute. reflexivity.
Defined.

(** ** Failures of the primary store *)

Section primary_failure.

Context {R : Type} `{!Primary R}.
Implicit Types (c : DataClient.client R) (r : R) (key field : string) (now : Z).

Lemma primary_connected c r :
  DataClient.use_redis c = true → DataClient.redis_client c = Some r →
  DataClient.primary c = Some r.
Proof. unfold DataClient.primary. by intros -> ->. Qed.

(** [set], [get] and [delete] retry on the fallback directory. *)
Lemma set_get_delete_retry_locally c r r1 key (v : Py.value) (expire : option Z) now :
  DataClient.use_redis c = true → DataClient.redis_client c = Some r →
  (∀ v1, DataClient.redis_value v = Returned v1 →
     redis_set r key v1 expire = (Raised, r1) →
     DataClient.set c key v expire now
     = DataClient.on_local (DataClient.with_redis c r1)
         (λ fs, DataClient._set_local fs key v1 expire now))
  ∧ (redis_get r key = (Raised, r1) →
     DataClient.get c key now
     = DataClient.on_local (DataClient.with_redis c r1)
         (λ fs, DataClient._get_local fs key now))
  ∧ (redis_delete r key = (Raised, r1) →
     DataClient.delete c key
     = DataClient.on_local (DataClient.with_redis c r1)
         (λ fs, DataClient._delete_local fs key)).
Proof.
  intros Hc Hr. repeat split.
  - intros v1 Hv Hset. unfold DataClient.set.
    by rewrite (primary_connected c r), Hv, Hset.
  - intros Hget. unfold DataClient.get. by rewrite (primary_connected c r), Hget.
  - intros Hdel. unfold DataClient.delete. by rewrite (primary_connected c r), Hdel.
Qed.

(** The other operations return their sentinel and leave the fallback
    directory alone. *)
Lemma sentinel_on_primary_failure c r r1 key field (v v1 : Py.value) (amount : Z) now :
  DataClient.use_redis c = true → DataClient.redis_client c = Some r →
  (redis_exists r key = (Raised, r1) →
     DataClient.exists_ c key = (false, DataClient.with_redis c r1))
  ∧ (redis_keys r key = (Raised, r1) →
     DataClient.keys c key = ([], DataClient.with_redis c r1))
  ∧ (redis_incrby r key amount = (Raised, r1) →
     DataClient.increment c key amount now = (0, DataClient.with_redis c r1))
  ∧ (DataClient.redis_value v = Returned v1 → redis_hset r key field v1 = (Raised, r1) →
     DataClient.set_hash c key field v now = (false, DataClient.with_redis c r1))
  ∧ (redis_hget r key field = (Raised, r1) →
     DataClient.get_hash c key field now = (Py.VNone, DataClient.with_redis c r1))
  ∧ (redis_hgetall r key = (Raised, r1) →
     DataClient.get_all_hash c key now = (Py.VDict [], DataClient.with_redis c r1)).
Proof.
  intros Hc Hr. repeat split.
  - intros Hx. unfold DataClient.exists_. by rewrite (primary_connected c r), Hx.
  - intros Hx. unfold DataClient.keys. by rewrite (primary_connected c r), Hx.
  - intros Hx. unfold DataClient.increment. by rewrite (primary_connected c r), Hx.
  - intros Hv Hx. unfold DataClient.set_hash.
    by rewrite (primary_connected c r), Hv, Hx.
  - intros Hx. unfold DataClient.get_hash. by rewrite (primary_connected c r), Hx.
  - intros Hx. unfold DataClient.get_all_hash. by rewrite (primary_connected c r), Hx.
Qed.

End primary_failure.

(** C6 at a connected client whose primary store raises on every call,
    the file [visits.json] holding 4: [get] retries locally and returns 4,
    but [increment] returns 0 where the local store would return 5, and
    [exists] returns [False] where the file exists; the directory is not
    touched. *)
Theorem increment_exists_no_local_retry :
  let fs : DataClient.files :=
    {[ "visits"%string := Some (DataClient.Entry (Json.JInt 4) Notions.new_year_2024 None) ]} in
  let c := DataClient.Client (R:=unit) true (Some ()) fs in
  (DataClient.get c "visits" Notions.new_year_2024).1 = Py.VInt 4
  ∧ DataClient.increment c "visits" 1 Notions.new_year_2024 = (0, c)
  ∧ (DataClient._increment_local fs "visits" 1 Notions.new_year_2024).1 = 5
  ∧ DataClient.exists_ c "visits" = (false, c)
  ∧ DataClient._exists_local fs "visits" = true.
Proof. vm_compute. repeat split. Qed.

(** ** [execute_with_rate_limit] *)

Section execute.

Import RateLimit Notions.
Context {R : Type} `{!Primary R}.
Variable limits : platform_limits.
Implicit Types (c : DataClient.client R) (platform action : string) (now : Z).

Lemma append_inv_head (s a b : string) : s +:+ a = s +:+ b → a = b.
Proof. induction s as [|ch s IH]; cbn; [done|]. intros [= Heq]. by apply IH. Qed.

(** The keys of two periods differ. *)
Lemma time_window_key_period platform action (p q : RateLimitPeriod) now :
  _get_time_window_key platform p action now = _get_time_window_key platform q action now →
  p = q.
Proof.
  unfold _get_time_window_key. intros Heq.
  do 5 apply append_inv_head in Heq.
  by destruct p, q.
Qed.


(** The count read from a bucket depends on the file of the bucket only. *)
Lemma usage_count_local c c' platform action (period : RateLimitPeriod) now :
  DataClient.use_redis c = false → DataClient.use_redis c' = false →
  DataClient.local c' !! _get_time_window_key (Py.lower platform) period action now
  = DataClient.local c !! _get_time_window_key (Py.lower platform) period action now →
  usage_count c' platform action period now = usage_count c platform action period now.
Proof.
  intros Hc Hc' Hk. unfold usage_count, read_count.
  rewrite !get_fallback by done. unfold DataClient.on_local, DataClient._get_local.
  rewrite Hk.
  destruct (DataClient.file_key _); [|done].
  destruct (DataClient.local c !! _) as [[e|]|]; [|done|done].
  destruct (DataClient.expires_at e) as [t|]; [|done].
  by destruct (t <? now).
Qed.





End execute.

(** ** The calendar *)

Section calendar.

Import Notions.

Lemma month_day_ok_all (leap : bool) (r : Z) :
  0 <= r < 365 + (if leap then 1 else 0) → month_day_ok leap r = true.
Proof.
  intros Hr.
  assert (Hall : forallb (λ k, month_day_ok leap (Z.of_nat k)) (seq 0 (if leap then 366 else 365)) = true)
    by (destruct leap; vm_compute; reflexivity).
  rewrite forallb_forall in Hall.
  specialize (Hall (Z.to_nat r)). rewrite Z2Nat.id in Hall by lia.
  apply Hall. apply in_seq. destruct leap; lia.
Qed.


Section digits.

Variables a b c e : Z.
Hypothesis Ha : 0 <= a.
Hypothesis Hb : 0 <= b <= 3.
Hypothesis Hc : 0 <= c <= 24.
Hypothesis He : 0 <= e <= 3.

Lemma days_before_year_digits :
  Calendar.days_before_year (400 * a + 100 * b + 4 * c + e + 1)
  = 146097 * a + 36524 * b + 1461 * c + 365 * e.
Proof.
  unfold Calendar.days_before_year.
  replace (400 * a + 100 * b + 4 * c + e + 1 - 1) with (400 * a + 100 * b + 4 * c + e) by lia.
  rewrite <- (Z.div_unique (400 * a + 100 * b + 4 * c + e) 4 (100 * a + 25 * b + c) e) by lia.
  rewrite <- (Z.div_unique (400 * a + 100 * b + 4 * c + e) 100 (4 * a + b) (4 * c + e)) by lia.
  rewrite <- (Z.div_unique (400 * a + 100 * b + 4 * c + e) 400 a (100 * b + 4 * c + e)) by lia.
  lia.
Qed.

Lemma is_leap_digits :
  Calendar.is_leap (400 * a + 100 * b + 4 * c + e + 1)
  = (e =? 3) && (negb (c =? 24) || (b =? 3)).
Proof.
  unfold Calendar.is_leap.
  set (y := 400 * a + 100 * b + 4 * c + e + 1).
  destruct (Z.eqb_spec e 3) as [-> | Hne].
  - rewrite <- (Z.mod_unique y 4 (100 * a + 25 * b + c + 1) 0) by (subst y; lia). cbn [Z.eqb andb].
    destruct (Z.eqb_spec c 24) as [-> | Hc24]; cbn [negb orb].
    + rewrite <- (Z.mod_unique y 100 (4 * a + b + 1) 0) by (subst y; lia). cbn [Z.eqb negb orb].
      destruct (Z.eqb_spec b 3) as [-> | Hb3].
      * by rewrite <- (Z.mod_unique y 400 (a + 1) 0) by (subst y; lia).
      * rewrite <- (Z.mod_unique y 400 a (100 * (b + 1))) by (subst y; lia).
        destruct (Z.eqb_spec (100 * (b + 1)) 0); [lia | done].
    + rewrite <- (Z.mod_unique y 100 (4 * a + b) (4 * (c + 1))) by (subst y; lia).
      destruct (Z.eqb_spec (4 * (c + 1)) 0); [lia | done].
  - rewrite <- (Z.mod_unique y 4 (100 * a + 25 * b + c) (e + 1)) by (subst y; lia).
    destruct (Z.eqb_spec (e + 1) 0); [lia | done].
Qed.

End digits.

Lemma ord2ymd_spec (n : Z) :
  1 <= n →
  ∃ y m d, Calendar.ord2ymd n = (y, m, d)
    ∧ 1 <= y ∧ 1 <= m <= 12
    ∧ 1 <= d
    ∧ 1 <= Calendar.days_before_month (Calendar.is_leap y) m + d <= 366
    ∧ n = Calendar.days_before_year y + Calendar.days_before_month (Calendar.is_leap y) m + d
    ∧ (n <= Clock.max_ordinal → y <= 9999).
Proof.
  intros Hn. unfold Calendar.ord2ymd.
  set (n0 := n - 1).
  set (a := n0 / 146097). set (r1 := n0 mod 146097).
  set (b := r1 / 36524). set (r2 := r1 mod 36524).
  set (c := r2 / 1461). set (r3 := r2 mod 1461).
  set (e := r3 / 365). set (r := r3 mod 365).
  assert (Ha : n0 = 146097 * a + r1 ∧ 0 <= r1 < 146097)
    by (subst a r1; split; [apply Z.div_mod; lia | apply Z.mod_pos_bound; lia]).
  assert (Hb : r1 = 36524 * b + r2 ∧ 0 <= r2 < 36524)
    by (subst b r2; split; [apply Z.div_mod; lia | apply Z.mod_pos_bound; lia]).
  assert (Hc : r2 = 1461 * c + r3 ∧ 0 <= r3 < 1461)
    by (subst c r3; split; [apply Z.div_mod; lia | apply Z.mod_pos_bound; lia]).
  assert (He : r3 = 365 * e + r ∧ 0 <= r < 365)
    by (subst e r; split; [apply Z.div_mod; lia | apply Z.mod_pos_bound; lia]).
  clearbody a r1 b r2 c r3 e r. subst n0.
  assert (0 <= a ∧ 0 <= b <= 4 ∧ 0 <= c <= 24 ∧ 0 <= e <= 4) by lia.
  destruct (Z.eqb_spec e 4) as [He4 | He4]; [|destruct (Z.eqb_spec b 4) as [Hb4 | Hb4]]; cbn [orb].
  - exists (400 * a + 100 * b + 4 * c + 3 + 1), 12, 31.
    rewrite is_leap_digits, days_before_year_digits by lia.
    assert (((3 =? 3) && (negb (c =? 24) || (b =? 3))) = true) as ->
      by (destruct (Z.eqb_spec c 24); [lia | done]).
    change (Calendar.days_before_month true 12) with 335.
    repeat split; unfold Clock.max_ordinal; try lia. f_equal. f_equal. lia.
  - exists (400 * a + 100 * 3 + 4 * 24 + 3 + 1), 12, 31.
    rewrite is_leap_digits, days_before_year_digits by lia.
    change (Calendar.days_before_month _ 12) with 335.
    repeat split; unfold Clock.max_ordinal; try lia. f_equal. f_equal. lia.
  - set (leap := (e =? 3) && (negb (c =? 24) || (b =? 3))).
    pose proof (month_day_ok_all leap r ltac:(destruct leap; lia)) as Hmd.
    unfold month_day_ok in Hmd.
    set (month := Z.shiftr (r + 50) 5) in *.
    set (preceding := Calendar.days_before_month leap month) in *.
    assert (Hy : a * 400 + 1 + b * 100 + c * 4 + e = 400 * a + 100 * b + 4 * c + e + 1) by lia.
    rewrite Hy.
    destruct (r <? preceding).
    + apply andb_prop in Hmd as [Hmd H5]. apply andb_prop in Hmd as [Hmd H4].
      apply andb_prop in Hmd as [Hmd H3]. apply andb_prop in Hmd as [H1 H2].
      eexists _, _, _. split; [reflexivity|].
      rewrite is_leap_digits, days_before_year_digits by lia. fold leap.
      apply Z.eqb_eq in H3. rewrite <- H3.
      assert (Calendar.days_in_month leap (month - 1) <= 31)
        by (unfold Calendar.days_in_month; repeat case_match; lia).
      repeat split; try lia. unfold Clock.max_ordinal. lia.
    + apply andb_prop in Hmd as [Hmd H5]. apply andb_prop in Hmd as [Hmd H4].
      apply andb_prop in Hmd as [Hmd H3]. apply andb_prop in Hmd as [H1 H2].
      eexists _, _, _. split; [reflexivity|].
      rewrite is_leap_digits, days_before_year_digits by lia. fold leap.
      assert (Calendar.days_in_month leap month <= 31)
        by (unfold Calendar.days_in_month; repeat case_match; lia).
      repeat split; try lia. unfold Clock.max_ordinal. lia.
Qed.

Lemma digit_inj (a b : Z) : Calendar.digit a = Calendar.digit b → a mod 10 = b mod 10.
Proof.
  unfold Calendar.digit. intros Heq.
  apply (f_equal N_of_ascii) in Heq.
  pose proof (Z.mod_pos_bound a 10 ltac:(lia)).
  pose proof (Z.mod_pos_bound b 10 ltac:(lia)).
  rewrite !N_ascii_embedding in Heq by lia. lia.
Qed.

Lemma fmt2_inj (a b : Z) : 0 <= a < 100 → 0 <= b < 100 → Calendar.fmt2 a = Calendar.fmt2 b → a = b.
Proof.
  unfold Calendar.fmt2. intros Ha Hb [= H1 H2].
  apply digit_inj in H1, H2. Z.div_mod_to_equations. lia.
Qed.

Lemma fmt4_inj (a b : Z) (s1 s2 : string) :
  0 <= a < 10000 → 0 <= b < 10000 →
  Calendar.fmt4 a +:+ s1 = Calendar.fmt4 b +:+ s2 → a = b ∧ s1 = s2.
Proof.
  unfold Calendar.fmt4, Calendar.fmt2. cbn. intros Ha Hb [= H1 H2 H3 H4 Hs].
  apply digit_inj in H1, H2, H3, H4. split; [|done].
  Z.div_mod_to_equations. lia.
Qed.

Lemma ordinal_valid (t : Z) : Clock.valid t → 1 <= Clock.ordinal t <= Clock.max_ordinal.
Proof.
  unfold Clock.valid, Clock.ordinal, Clock.datetime_end, Clock.max_ordinal,
    Clock.usec_per_day, Clock.usec_per_second.
  intros Ht. Z.div_mod_to_equations. lia.
Qed.

Lemma ordinal_monday (t : Z) :
  Clock.ordinal (t - Clock.weekday t * Clock.usec_per_day) = 7 * week_index t + 1.
Proof.
  unfold week_index, Clock.weekday, Clock.ordinal.
  replace (t - (t / Clock.usec_per_day + 1 + 6) mod 7 * Clock.usec_per_day)
    with (t + (- ((t / Clock.usec_per_day + 1 + 6) mod 7)) * Clock.usec_per_day) by lia.
  rewrite Z.div_add by done.
  generalize (t / Clock.usec_per_day). intros q. Z.div_mod_to_equations. lia.
Qed.

Lemma weekday_monday (t : Z) :
  Clock.weekday (t - Clock.weekday t * Clock.usec_per_day) = 0.
Proof.
  unfold Clock.weekday at 1. rewrite ordinal_monday. Z.div_mod_to_equations. lia.
Qed.

(** The bucket identifier of the week: year and [%U] of its Monday. *)
Lemma weekly_time_key (t : Z) :
  Clock.valid t →
  ∃ y yday,
    RateLimit.time_key RateLimit.WEEKLY t
    = Calendar.fmt4 y +:+ "-W" +:+ Calendar.fmt2 ((yday + 5) / 7)
    ∧ 1 <= y <= 9999 ∧ 1 <= yday <= 366
    ∧ 7 * week_index t + 1 = Calendar.days_before_year y + yday.
Proof.
  intros Ht. pose proof (ordinal_valid t Ht) as Hord.
  unfold RateLimit.time_key, Calendar.week_U, Calendar.yday, Calendar.year,
    Calendar.month, Calendar.day.
  rewrite weekday_monday, ordinal_monday.
  assert (Hw : 1 <= 7 * week_index t + 1 <= Clock.max_ordinal).
  { unfold week_index. Z.div_mod_to_equations. lia. }
  destruct (ord2ymd_spec (7 * week_index t + 1) ltac:(lia))
    as (y & m & d & -> & Hy & Hm & Hd & Hyday & Hn & Hmax).
  cbn [fst snd].
  exists y, (Calendar.days_before_month (Calendar.is_leap y) m + d).
  split; [|lia].
  do 3 f_equal. change ((0 + 1) mod 7) with 1. f_equal. lia.
Qed.

Lemma weekly_key_same_week (platform action : string) (t1 t2 : Z) :
  Clock.valid t1 → Clock.valid t2 →
  RateLimit._get_time_window_key platform RateLimit.WEEKLY action t1
  = RateLimit._get_time_window_key platform RateLimit.WEEKLY action t2
  ↔ week_index t1 = week_index t2.
Proof.
  intros H1 H2. unfold RateLimit._get_time_window_key. split.
  - intros Heq. do 7 apply append_inv_head in Heq.
    destruct (weekly_time_key t1 H1) as (y1 & d1 & Hk1 & Hy1 & Hd1 & Hw1).
    destruct (weekly_time_key t2 H2) as (y2 & d2 & Hk2 & Hy2 & Hd2 & Hw2).
    rewrite Hk1, Hk2 in Heq.
    apply fmt4_inj in Heq as [-> Heq]; [|lia|lia].
    apply (append_inv_head "-W") in Heq.
    apply fmt2_inj in Heq; [| Z.div_mod_to_equations; lia | Z.div_mod_to_equations; lia].
    Z.div_mod_to_equations. lia.
  - intros Hw. do 7 f_equal.
    unfold RateLimit.time_key.
    unfold Calendar.week_U, Calendar.yday, Calendar.year, Calendar.month, Calendar.day.
    rewrite !weekday_monday, !ordinal_monday, Hw. done.
Qed.

End calendar.

(** ** The weekly bucket *)

Section weekly.

Import RateLimit Notions.

Lemma week_start_index (t : Z) : week_start t = 7 * week_index t * Clock.usec_per_day.
Proof.
  unfold week_start, week_index, Clock.weekday, Clock.ordinal.
  assert (HD : 0 < Clock.usec_per_day) by done.
  set (D := Clock.usec_per_day) in *. clearbody D.
  replace (t - t mod D) with (D * (t / D))
    by (pose proof (Z.div_mod t D ltac:(lia)); lia).
  generalize (t / D). intros q.
  assert (Hq : q - (q + 1 + 6) mod 7 = 7 * ((q + 1 - 1) / 7))
    by (Z.div_mod_to_equations; lia).
  rewrite <- Hq. ring.
Qed.

Lemma ordinal_week_start (t : Z) : Clock.ordinal (week_start t) = 7 * week_index t + 1.
Proof.
  rewrite week_start_index. unfold Clock.ordinal. by rewrite Z.div_mul.
Qed.

(** C5, as the code has it.  The weekly key holds the calendar year of the
    Monday of the current week and that Monday's [%U] week number (weeks
    of the year counted from its first Sunday), not the ISO week.  It is
    the same for two times exactly when they are in the same week from
    Monday 00:00 to Sunday: it changes at Monday 00:00 and only there. *)
Theorem weekly_key_changes_at_monday (platform action : string) (t1 t2 : Z) :
  Clock.valid t1 → Clock.valid t2 →
  (_get_time_window_key platform WEEKLY action t1
   = _get_time_window_key platform WEEKLY action t2
   ↔ week_start t1 = week_start t2)
  ∧ Clock.weekday (week_start t1) = 0
  ∧ week_start t1 mod Clock.usec_per_day = 0
  ∧ week_start t1 <= t1 < week_start t1 + 7 * Clock.usec_per_day
  ∧ time_key WEEKLY t1
    = Calendar.fmt4 (Calendar.year (week_start t1)) +:+ "-W"
      +:+ Calendar.fmt2 (Calendar.week_U (week_start t1)).
Proof.
  intros H1 H2. split; [|split; [|split; [|split]]].
  - rewrite weekly_key_same_week by done. rewrite !week_start_index.
    assert (0 < Clock.usec_per_day) by done. split; [congruence | nia].
  - unfold Clock.weekday. rewrite ordinal_week_start. Z.div_mod_to_equations. lia.
  - rewrite week_start_index. apply Z.mod_mul. done.
  - rewrite week_start_index. unfold week_index, Clock.ordinal.
    assert (HD : 0 < Clock.usec_per_day) by done.
    set (D := Clock.usec_per_day) in *. clearbody D.
    pose proof (Z.div_mod t1 D ltac:(lia)) as Ht.
    pose proof (Z.mod_pos_bound t1 D HD) as Hr.
    revert Ht Hr. generalize (t1 mod D), (t1 / D). intros r q Ht Hr.
    assert (Hq : 7 * ((q + 1 - 1) / 7) <= q < 7 * ((q + 1 - 1) / 7) + 7)
      by (Z.div_mod_to_equations; lia).
    nia.
  - unfold time_key, Calendar.week_U, Calendar.yday, Calendar.year, Calendar.month,
      Calendar.day, Clock.weekday.
    by rewrite ordinal_monday, ordinal_week_start.
Qed.

End weekly.

(** Wednesday 2024-01-03 12:00 and Sunday 2024-01-07 23:59:59 are in the
    week that starts on Monday 2024-01-01. *)
Lemma weekly_key_changes_at_monday_witness :
  RateLimit._get_time_window_key "twitter" RateLimit.WEEKLY "post" 63839880000000000
  = RateLimit._get_time_window_key "twitter" RateLimit.WEEKLY "post" 63840268799000000.
Proof.
  assert (H1 : Clock.valid 63839880000000000)
    by (unfold Clock.valid; vm_compute; split; [discriminate | reflexivity]).
  assert (H2 : Clock.valid 63840268799000000)
    by (unfold Clock.valid; vm_compute; split; [discriminate | reflexivity]).
  apply (proj1 (weekly_key_changes_at_monday "twitter" "post" _ _ H1 H2)).
  reflexivity.
Defined.

(** 2024-01-01 is a Monday and the first day of ISO week 2024-W01; the
    weekly key holds [2024-W00]. *)
Lemma weekly_key_is_not_iso_week :
  RateLimit.time_key RateLimit.WEEKLY Notions.new_year_2024 = "2024-W00"%string
  ∧ IsoWeek.identifier Notions.new_year_2024 = "2024-W01"%string
  ∧ RateLimit.time_key RateLimit.WEEKLY Notions.new_year_2024
    ≠ IsoWeek.identifier Notions.new_year_2024.
Proof. vm_compute. repeat split. discriminate. Qed.

(** ** The length limit of [sanitize_text] *)

Section sanitizer.

Variable bleach_clean : string → string.

Lemma length_append (s1 s2 : string) :
  String.length (s1 +:+ s2) = (String.length s1 + String.length s2)%nat.
Proof. induction s1 as [|ch s1 IH]; simpl; [done | by f_equal]. Qed.

Lemma length_substring_0 (s : string) :
  ∀ n : nat, (n <= String.length s)%nat → String.length (String.substring 0 n s) = n.
Proof.
  induction s as [|ch s IH]; intros [|n] Hn; cbn in *; try done; try lia.
  rewrite IH; [done | lia].
Qed.

Lemma length_slice_to (text : string) (stop : Z) :
  Z.of_nat (String.length (Security.slice_to text stop))
  = if stop <? 0 then Z.max 0 (Z.of_nat (String.length text) + stop)
    else Z.min stop (Z.of_nat (String.length text)).
Proof.
  unfold Security.slice_to. rewrite length_substring_0.
  - destruct (stop <? 0) eqn:Hs; lia.
  - destruct (stop <? 0) eqn:Hs; lia.
Qed.

(** From 3 on the limit holds: the text is cut to [max_length - 3]
    characters and three dots. *)
Lemma sanitize_text_within_limit (text : string) (max_length : Z) :
  3 <= max_length →
  Z.of_nat (String.length (Security.sanitize_text bleach_clean text (Some max_length)))
  <= max_length.
Proof.
  intros Hm. unfold Security.sanitize_text, Security.limit_length.
  destruct (Z.eqb_spec max_length 0); [lia|]. cbn [negb andb].
  destruct (Z.ltb_spec max_length (Z.of_nat (String.length (Security.cleaned bleach_clean text))));
    [|lia].
  rewrite length_append, Nat2Z.inj_add, length_slice_to.
  destruct (Z.ltb_spec (max_length - 3) 0); [lia|].
  change (String.length "...") with 3%nat. lia.
Qed.

Lemma all_chars_append (p : ascii → bool) (s1 s2 : string) :
  Notions.all_chars p (s1 +:+ s2) = Notions.all_chars p s1 && Notions.all_chars p s2.
Proof. induction s1 as [|ch s1 IH]; simpl; [done | by rewrite IH, andb_assoc]. Qed.

Lemma all_chars_substring (p : ascii → bool) (s : string) :
  ∀ n : nat, Notions.all_chars p s = true →
  Notions.all_chars p (String.substring 0 n s) = true.
Proof.
  induction s as [|ch s IH]; intros [|n] Hs; simpl in *; try done.
  apply andb_prop in Hs as [-> Hs]. by apply IH.
Qed.

Lemma all_chars_remove_matches (p : ascii → bool) (r : Regex.regex) (s : string) :
  ∀ skip : nat, Notions.all_chars p s = true →
  Notions.all_chars p (Regex.remove_matches r skip s) = true.
Proof.
  induction s as [|ch s IH]; intros skip Hs; [done|].
  simpl in Hs. apply andb_prop in Hs as [Hch Hs].
  cbn [Regex.remove_matches]. destruct skip as [|k]; [|by apply IH].
  destruct (Regex.match_len r (String ch s) 0) as [[|k]|]; simpl;
    rewrite ?Hch; by apply IH.
Qed.

Lemma all_chars_collapse_spaces (p : ascii → bool) (s : string) :
  p " "%char = true →
  ∀ in_run : bool, Notions.all_chars p s = true →
  Notions.all_chars p (Security.collapse_spaces in_run s) = true.
Proof.
  intros Hspace. induction s as [|ch s IH]; intros in_run Hs; [done|].
  simpl in Hs. apply andb_prop in Hs as [Hch Hs].
  simpl. destruct (Py.isspace ch); [destruct in_run|]; simpl;
    rewrite ?Hch, ?Hspace; by apply IH.
Qed.

Lemma all_chars_strip (p : ascii → bool) (s : string) :
  Notions.all_chars p s = true → Notions.all_chars p (Py.strip s) = true.
Proof.
  unfold Py.strip. intros Hs.
  assert (Hl : Notions.all_chars p (Py.lstrip s) = true).
  { induction s as [|ch s IH]; [done|]. simpl in Hs |- *.
    apply andb_prop in Hs as [Hch Hs].
    destruct (Py.isspace ch); [by apply IH | simpl; by rewrite Hch, Hs]. }
  revert Hl. generalize (Py.lstrip s). clear s Hs.
  intros s. induction s as [|ch s IH]; intros Hs; [done|].
  simpl in Hs |- *. apply andb_prop in Hs as [Hch Hs]. specialize (IH Hs).
  destruct (Py.rstrip s); [destruct (Py.isspace ch); simpl; by rewrite ?Hch|].
  simpl in IH |- *. by rewrite Hch, IH.
Qed.

Lemma no_markup_html_escape (s : string) :
  Notions.no_markup (Security.html_escape s) = true.
Proof.
  unfold Notions.no_markup. induction s as [|ch s IH]; [done|].
  cbn [Security.html_escape]. rewrite all_chars_append, IH, andb_true_r.
  repeat case_match; try done.
  simpl. rewrite andb_true_r. apply negb_true_iff.
  destruct (Ascii.eqb_spec ch "<") as [-> | Hne]; [|done].
  by match goal with H : (N_of_ascii "<" =? 60)%N = false |- _ => vm_compute in H end.
Qed.

(** Script tags: when [bleach.clean] puts no [<] into a text that has
    none, the result of [sanitize_text] has no [<]: no script tag, and no
    other tag, is left in it. *)
Lemma sanitize_text_no_markup (text : string) (max_length : option Z) :
  (∀ s, Notions.no_markup s = true → Notions.no_markup (bleach_clean s) = true) →
  Notions.no_markup (Security.sanitize_text bleach_clean text max_length) = true.
Proof.
  intros Hbleach.
  assert (Hclean : Notions.no_markup (Security.cleaned bleach_clean text) = true).
  { unfold Security.cleaned. apply all_chars_strip, all_chars_collapse_spaces; [done|].
    generalize (Hbleach _ (no_markup_html_escape (Security.remove_nul text))).
    generalize (bleach_clean (Security.html_escape (Security.remove_nul text))).
    induction Security.DANGEROUS_PATTERNS as [|r rs IH]; intros s Hs; [done|].
    simpl. apply IH. by apply all_chars_remove_matches. }
  unfold Security.sanitize_text, Security.limit_length.
  destruct max_length as [m|]; [|done]. case_match; [|done].
  unfold Notions.no_markup, Security.slice_to in *.
  rewrite all_chars_append, all_chars_substring by done. done.
Qed.

(** C10 at the limits 1 and 2: [text[:max_length - 3]] is then a slice
    with a negative end, which drops [3 - max_length] characters from the
    end, and with the three dots the result is [max_length] characters
    longer than the text was: it exceeds the limit. *)
Theorem sanitize_text_short_limit_exceeded (text : string) (max_length : Z) :
  1 <= max_length <= 2 →
  max_length < Z.of_nat (String.length (Security.cleaned bleach_clean text)) →
  Z.of_nat (String.length (Security.sanitize_text bleach_clean text (Some max_length)))
  = Z.of_nat (String.length (Security.cleaned bleach_clean text)) + max_length
  ∧ max_length
    < Z.of_nat (String.length (Security.sanitize_text bleach_clean text (Some max_length))).
Proof.
  intros Hm Hlen. unfold Security.sanitize_text, Security.limit_length.
  destruct (Z.eqb_spec max_length 0); [lia|]. cbn [negb andb].
  destruct (Z.ltb_spec max_length (Z.of_nat (String.length (Security.cleaned bleach_clean text))));
    [|lia].
  rewrite length_append, Nat2Z.inj_add, length_slice_to.
  destruct (Z.ltb_spec (max_length - 3) 0); [|lia].
  change (String.length "...") with 3%nat. lia.
Qed.

End sanitizer.

(** [sanitize_text("abcdef", 2)] is ["abcde..."], eight characters
    ([bleach.clean] leaves a text without markup as it is). *)
Lemma sanitize_text_short_limit_exceeded_witness :
  Security.sanitize_text (λ s, s) "abcdef" (Some 2) = "abcde..."%string
  ∧ 2 < Z.of_nat (String.length (Security.sanitize_text (λ s, s) "abcdef" (Some 2))).
Proof.
  split; [reflexivity|].
  apply (sanitize_text_short_limit_exceeded (λ s, s) "abcdef" 2).
  - lia.
  - vm_compute. reflexivity.
Defined.



(** ** Further facts about the model *)

Section further.

Import RateLimit Notions.

(** [_ymd2ord] undoes [_ord2ymd]. *)
Lemma ymd2ord_ord2ymd (n : Z) : 1 <= n → Calendar.ymd2ord (Calendar.ord2ymd n) = n.
Proof.
  intros Hn. destruct (ord2ymd_spec n Hn) as (y & m & d & -> & _ & _ & _ & _ & Heq & _).
  by rewrite Heq.
Qed.

(** The first component of [is_action_allowed] is [details['allowed']]. *)
Lemma is_action_allowed_details {R : Type} `{!Primary R} (limits : platform_limits)
    (c : DataClient.client R) (platform action : string) (all_periods : bool) (now : Z) :
  (is_action_allowed limits c platform action all_periods now).1.1
  = details_allowed (is_action_allowed limits c platform action all_periods now).1.2.
Proof.
  unfold is_action_allowed. destruct (limits !! Py.lower platform) as [d|]; [|done].
  by destruct (foldl _ _ _) as [[[allowed periods] blocked_by] c1].
Qed.

(** After five posts to twitter in the hour [check_platform_rate_limit],
    which takes the pair apart, answers [False]; the guard of the posting
    loop, which tests the pair, does not skip. *)
Example posting_guard_ignores_denial :
  let c := increment_usage_at (DataClient.Client (R:=unit) false None ∅)
             "twitter" "post" HOURLY (replicate 5 Notions.new_year_2024) in
  (check_platform_rate_limit default_limits c "twitter" "post" Notions.new_year_2024).1 = false
  ∧ (posting_guard_skips default_limits c "twitter" Notions.new_year_2024).1 = false.
Proof. vm_compute. by split. Qed.

(** Values that are not native to JSON, through the fallback directory: a
    dictionary with the keys [1] and ["1"] comes back with the one key
    ["1"] and the value stored last, a [datetime] as its string. *)
Example set_get_coerces :
  let c := DataClient.Client (R:=unit) false None ∅ in
  let v := Py.VDict [(Py.KInt 1, Py.VStr "a"); (Py.KStr "1", Py.VObj "2024-01-01 00:00:00")] in
  (DataClient.get (DataClient.set c "k" v None Notions.new_year_2024).2 "k" Notions.new_year_2024).1
  = Py.VDict [(Py.KStr "1", Py.VStr "2024-01-01 00:00:00")].
Proof. vm_compute. reflexivity. Qed.

(** A value that [json.dumps] refuses (a tuple as dictionary key) leaves
    the file empty: [set] returns [False] and the value stored before is
    gone. *)
Example set_failure_empties_file :
  let c := DataClient.Client (R:=unit) false None ∅ in
  let c1 := (DataClient.set c "k" (Py.VInt 7) None Notions.new_year_2024).2 in
  let bad := Py.VDict [(Py.KOther "(1, 2)", Py.VInt 1)] in
  (DataClient.get c1 "k" Notions.new_year_2024).1 = Py.VInt 7
  ∧ (DataClient.set c1 "k" bad None Notions.new_year_2024).1 = false
  ∧ (DataClient.get (DataClient.set c1 "k" bad None Notions.new_year_2024).2 "k" Notions.new_year_2024).1 = Py.VNone
  ∧ (DataClient.exists_ (DataClient.set c1 "k" bad None Notions.new_year_2024).2 "k").1 = true.
Proof. vm_compute. by repeat split. Qed.

(** With the primary store failing, [set] keeps the JSON text of a list
    in the fallback file, and [get] returns that text, not the list. *)
Example set_get_retry_returns_text :
  let c := DataClient.Client (R:=unit) true (Some ()) ∅ in
  let v := Py.VList [Py.VInt 1; Py.VInt 2] in
  (DataClient.set c "k" v None Notions.new_year_2024).1 = true
  ∧ (DataClient.get (DataClient.set c "k" v None Notions.new_year_2024).2 "k" Notions.new_year_2024).1 = Py.VStr "[1, 2]".
Proof. vm_compute. by split. Qed.

(** What [sanitize_text] makes of a script element. *)
Example sanitize_text_script :
  Security.sanitize_text (λ s, s) "<script>alert(1)</script> hi" None
  = "&lt;script&gt;alert(1)&lt;/script&gt; hi"%string.
Proof. vm_compute. reflexivity. Qed.

End further.

(** * Further properties of the code *)

(** ** Bucket keys *)

Section period_keys.

Import RateLimit Notions.

Lemma fmt2_inj_app (a b : Z) (s1 s2 : string) :
  0 <= a < 100 → 0 <= b < 100 →
  Calendar.fmt2 a +:+ s1 = Calendar.fmt2 b +:+ s2 → a = b ∧ s1 = s2.
Proof.
  unfold Calendar.fmt2. cbn. intros Ha Hb [= H1 H2 Hs].
  apply digit_inj in H1, H2. split; [|done].
  Z.div_mod_to_equations. lia.
Qed.

Lemma ord2ymd_day (n : Z) :
  1 <= n →
  1 <= (Calendar.ord2ymd n).2
    <= Calendar.days_in_month (Calendar.is_leap (Calendar.ord2ymd n).1.1)
         (Calendar.ord2ymd n).1.2.
Proof.
  intros Hn. unfold Calendar.ord2ymd.
  set (n0 := n - 1).
  set (a := n0 / 146097). set (r1 := n0 mod 146097).
  set (b := r1 / 36524). set (r2 := r1 mod 36524).
  set (c := r2 / 1461). set (r3 := r2 mod 1461).
  set (e := r3 / 365). set (r := r3 mod 365).
  assert (Ha : n0 = 146097 * a + r1 ∧ 0 <= r1 < 146097)
    by (subst a r1; split; [apply Z.div_mod; lia | apply Z.mod_pos_bound; lia]).
  assert (Hb : r1 = 36524 * b + r2 ∧ 0 <= r2 < 36524)
    by (subst b r2; split; [apply Z.div_mod; lia | apply Z.mod_pos_bound; lia]).
  assert (Hc : r2 = 1461 * c + r3 ∧ 0 <= r3 < 1461)
    by (subst c r3; split; [apply Z.div_mod; lia | apply Z.mod_pos_bound; lia]).
  assert (He : r3 = 365 * e + r ∧ 0 <= r < 365)
    by (subst e r; split; [apply Z.div_mod; lia | apply Z.mod_pos_bound; lia]).
  clearbody a r1 b r2 c r3 e r. subst n0.
  assert (0 <= a ∧ 0 <= b <= 4 ∧ 0 <= c <= 24 ∧ 0 <= e <= 4) by lia.
  destruct (Z.eqb_spec e 4) as [He4 | He4]; [|destruct (Z.eqb_spec b 4) as [Hb4 | Hb4]];
    cbn [orb fst snd].
  - unfold Calendar.days_in_month. cbn. lia.
  - unfold Calendar.days_in_month. cbn. lia.
  - set (leap := (e =? 3) && (negb (c =? 24) || (b =? 3))).
    pose proof (month_day_ok_all leap r ltac:(destruct leap; lia)) as Hmd.
    unfold month_day_ok in Hmd.
    set (month := Z.shiftr (r + 50) 5) in *.
    set (preceding := Calendar.days_before_month leap month) in *.
    assert (Hy : a * 400 + 1 + b * 100 + c * 4 + e = 400 * a + 100 * b + 4 * c + e + 1) by lia.
    rewrite Hy.
    destruct (r <? preceding); cbn [fst snd];
      rewrite is_leap_digits by lia; fold leap;
      apply andb_prop in Hmd as [Hmd H5]; apply andb_prop in Hmd as [Hmd H4];
      apply andb_prop in Hmd as [Hmd H3]; apply andb_prop in Hmd as [H1 H2];
      apply Z.eqb_eq in H3; lia.
Qed.

Lemma ord2ymd_inj (n1 n2 : Z) :
  1 <= n1 → 1 <= n2 → Calendar.ord2ymd n1 = Calendar.ord2ymd n2 → n1 = n2.
Proof.
  intros H1 H2 Heq.
  rewrite <- (ymd2ord_ord2ymd n1), <- (ymd2ord_ord2ymd n2) by done. by rewrite Heq.
Qed.

(** Year, month and day of a valid clock value, with the ranges of their
    [strftime] fields. *)
Lemma calendar_fields (t : Z) :
  Clock.valid t →
  1 <= Calendar.year t <= 9999 ∧ 1 <= Calendar.month t <= 12 ∧ 1 <= Calendar.day t <= 31
  ∧ 0 <= Calendar.hour t < 24.
Proof.
  intros Ht. pose proof (ordinal_valid t Ht) as Hord.
  pose proof (ord2ymd_day (Clock.ordinal t) ltac:(lia)) as Hday.
  unfold Calendar.year, Calendar.month, Calendar.day.
  destruct (ord2ymd_spec (Clock.ordinal t) ltac:(lia))
    as (y & m & d & Heq & Hy & Hm & Hd & Hyday & Hn & Hmax).
  rewrite Heq in Hday |- *. cbn [fst snd] in *.
  assert (Calendar.days_in_month (Calendar.is_leap y) m <= 31)
    by (unfold Calendar.days_in_month; repeat case_match; lia).
  repeat split; try lia.
  - unfold Calendar.hour, Clock.usec_per_day, Clock.usec_per_second.
    Z.div_mod_to_equations. lia.
  - unfold Calendar.hour, Clock.usec_per_day, Clock.usec_per_second.
    Z.div_mod_to_equations. lia.
Qed.

Lemma same_date (t1 t2 : Z) :
  Clock.valid t1 → Clock.valid t2 →
  Calendar.year t1 = Calendar.year t2 → Calendar.month t1 = Calendar.month t2 →
  Calendar.day t1 = Calendar.day t2 → Clock.ordinal t1 = Clock.ordinal t2.
Proof.
  intros H1 H2 Hy Hm Hd.
  pose proof (ordinal_valid t1 H1). pose proof (ordinal_valid t2 H2).
  apply ord2ymd_inj; [lia | lia |].
  unfold Calendar.year, Calendar.month, Calendar.day in *.
  destruct (Calendar.ord2ymd (Clock.ordinal t1)) as [[y1 m1] d1].
  destruct (Calendar.ord2ymd (Clock.ordinal t2)) as [[y2 m2] d2].
  cbn in *. congruence.
Qed.

(** X1.  The hourly key of two times is the same exactly when they are in
    the same hour of the same day, the daily key exactly when they are on
    the same day, the monthly key exactly when they are in the same month
    of the same year: each key changes at the boundary of its period and
    nowhere else. *)
Theorem time_window_key_changes_at_boundary (platform action : string) (t1 t2 : Z) :
  Clock.valid t1 → Clock.valid t2 →
  (_get_time_window_key platform HOURLY action t1
   = _get_time_window_key platform HOURLY action t2
   ↔ t1 / usec_per_hour = t2 / usec_per_hour)
  ∧ (_get_time_window_key platform DAILY action t1
     = _get_time_window_key platform DAILY action t2
     ↔ t1 / Clock.usec_per_day = t2 / Clock.usec_per_day)
  ∧ (_get_time_window_key platform MONTHLY action t1
     = _get_time_window_key platform MONTHLY action t2
     ↔ Calendar.year t1 = Calendar.year t2 ∧ Calendar.month t1 = Calendar.month t2).
Proof.
  intros H1 H2.
  destruct (calendar_fields t1 H1) as (Hy1 & Hm1 & Hd1 & Hh1).
  destruct (calendar_fields t2 H2) as (Hy2 & Hm2 & Hd2 & Hh2).
  unfold _get_time_window_key, time_key.
  split; [|split].
  - split.
    + intros Heq. do 7 apply append_inv_head in Heq.
      apply fmt4_inj in Heq as [Hy Heq]; [|lia|lia].
      apply (append_inv_head "-") in Heq.
      apply fmt2_inj_app in Heq as [Hm Heq]; [|lia|lia].
      apply (append_inv_head "-") in Heq.
      apply fmt2_inj_app in Heq as [Hd Heq]; [|lia|lia].
      apply (append_inv_head "-") in Heq.
      apply fmt2_inj in Heq; [|lia|lia].
      pose proof (same_date t1 t2 H1 H2 Hy Hm Hd) as Hord.
      unfold Clock.ordinal, Calendar.hour, usec_per_hour, Clock.usec_per_day,
        Clock.usec_per_second in *.
      Z.div_mod_to_equations. lia.
    + intros Hh.
      assert (Hord : Clock.ordinal t1 = Clock.ordinal t2 ∧ Calendar.hour t1 = Calendar.hour t2).
      { unfold Clock.ordinal, Calendar.hour, usec_per_hour, Clock.usec_per_day,
          Clock.usec_per_second in *.
        Z.div_mod_to_equations. lia. }
      destruct Hord as [Hord Hhour].
      unfold Calendar.year, Calendar.month, Calendar.day. by rewrite Hord, Hhour.
  - split.
    + intros Heq. do 7 apply append_inv_head in Heq.
      apply fmt4_inj in Heq as [Hy Heq]; [|lia|lia].
      apply (append_inv_head "-") in Heq.
      apply fmt2_inj_app in Heq as [Hm Heq]; [|lia|lia].
      apply (append_inv_head "-") in Heq.
      apply fmt2_inj in Heq; [|lia|lia].
      pose proof (same_date t1 t2 H1 H2 Hy Hm Heq) as Hord.
      unfold Clock.ordinal in Hord. lia.
    + intros Hd. unfold Calendar.year, Calendar.month, Calendar.day, Clock.ordinal.
      by rewrite Hd.
  - split.
    + intros Heq. do 7 apply append_inv_head in Heq.
      apply fmt4_inj in Heq as [Hy Heq]; [|lia|lia].
      apply (append_inv_head "-") in Heq.
      apply fmt2_inj in Heq; [|lia|lia]. done.
    + intros [Hy Hm]. by rewrite Hy, Hm.
Qed.

End period_keys.

(** 2024-01-01 10:00 and 10:59:59 are in one hour; 10:59:59 and 11:00 are
    not. *)
Lemma time_window_key_changes_at_boundary_witness :
  RateLimit._get_time_window_key "twitter" RateLimit.HOURLY "post" 63839700000000000
  = RateLimit._get_time_window_key "twitter" RateLimit.HOURLY "post" 63839703599000000
  ∧ RateLimit._get_time_window_key "twitter" RateLimit.HOURLY "post" 63839703599000000
    ≠ RateLimit._get_time_window_key "twitter" RateLimit.HOURLY "post" 63839703600000000.
Proof.
  assert (H1 : Clock.valid 63839700000000000)
    by (unfold Clock.valid; vm_compute; split; [discriminate | reflexivity]).
  assert (H2 : Clock.valid 63839703599000000)
    by (unfold Clock.valid; vm_compute; split; [discriminate | reflexivity]).
  assert (H3 : Clock.valid 63839703600000000)
    by (unfold Clock.valid; vm_compute; split; [discriminate | reflexivity]).
  split.
  - apply (proj1 (time_window_key_changes_at_boundary "twitter" "post" _ _ H1 H2)).
    reflexivity.
  - intros Heq.
    apply (proj1 (time_window_key_changes_at_boundary "twitter" "post" _ _ H2 H3)) in Heq.
    vm_compute in Heq. discriminate Heq.
Defined.

Section key_names.

Import RateLimit Notions.

Lemma split_at_colon (s1 s2 r1 r2 : string) :
  no_colon s1 = true → no_colon s2 = true →
  s1 +:+ ":" +:+ r1 = s2 +:+ ":" +:+ r2 → s1 = s2 ∧ r1 = r2.
Proof.
  revert s2. induction s1 as [|ch1 s1 IH]; intros [|ch2 s2] H1 H2 Heq; cbn in *.
  - by injection Heq.
  - injection Heq as <- _. by apply andb_prop in H2 as [? _].
  - injection Heq as -> _. by apply andb_prop in H1 as [? _].
  - injection Heq as <- Heq.
    apply andb_prop in H1 as [_ H1]. apply andb_prop in H2 as [_ H2].
    destruct (IH s2 H1 H2 Heq) as [-> ->]. done.
Qed.

(** X2.  Counters are kept apart: for platform and action names without a
    colon, two counters that differ in platform, action or period have
    different keys at every time. *)
Theorem time_window_keys_differ (platform1 platform2 action1 action2 : string)
    (period1 period2 : RateLimitPeriod) (now : Z) :
  no_colon platform1 = true → no_colon platform2 = true →
  no_colon action1 = true → no_colon action2 = true →
  (platform1, action1, period1) ≠ (platform2, action2, period2) →
  _get_time_window_key platform1 period1 action1 now
  ≠ _get_time_window_key platform2 period2 action2 now.
Proof.
  intros Hp1 Hp2 Ha1 Ha2 Hne Heq. apply Hne. unfold _get_time_window_key in Heq.
  apply (append_inv_head "rate_limit:") in Heq.
  apply split_at_colon in Heq as [-> Heq]; [|done|done].
  apply split_at_colon in Heq as [-> Heq]; [|done|done].
  apply split_at_colon in Heq as [Hper _]; [|by destruct period1|by destruct period2].
  by destruct period1, period2.
Qed.

End key_names.

(** The counters of posts and of replies to twitter. *)
Lemma time_window_keys_differ_witness :
  RateLimit._get_time_window_key "twitter" RateLimit.HOURLY "post" Notions.new_year_2024
  ≠ RateLimit._get_time_window_key "twitter" RateLimit.HOURLY "reply" Notions.new_year_2024.
Proof.
  apply time_window_keys_differ; [reflexivity | reflexivity | reflexivity | reflexivity |].
  discriminate.
Defined.

(** ** Operations of the limiter *)

Section limiter_operations.

Import RateLimit Notions.
Context {R : Type} `{!Primary R}.
Variable limits : platform_limits.
Implicit Types (c : DataClient.client R) (platform action : string) (now : Z).

Lemma delete_fallback c (key : string) :
  DataClient.use_redis c = false →
  DataClient.delete c key
  = DataClient.on_local c (λ fs, DataClient._delete_local fs key).
Proof. intros Hc. unfold DataClient.delete. by rewrite primary_fallback. Qed.

Lemma delete_local_lookup (fs : DataClient.files) (key k : string) :
  (DataClient._delete_local fs key).2 !! k
  = if decide (k = key ∧ DataClient.file_key key = true) then None else fs !! k.
Proof.
  unfold DataClient._delete_local, DataClient.file_key.
  destruct (DataClient.name_kind_of key); cbn.
  - destruct (decide (k = key)) as [-> | Hne].
    + rewrite decide_True by done. apply lookup_delete_eq.
    + rewrite decide_False by (by intros [? _]). by apply lookup_delete_ne.
  - by rewrite decide_False by (by intros [_ ?]).
  - by rewrite decide_False by (by intros [_ ?]).
Qed.

(** Deleting the keys of [periods] on the fallback directory. *)
Lemma delete_keys_fallback (key_of : RateLimitPeriod → string) (periods : list RateLimitPeriod) :
  ∀ c, DataClient.use_redis c = false →
  let c' := foldl (λ c1 p, (DataClient.delete c1 (key_of p)).2) c periods in
  DataClient.use_redis c' = false
  ∧ (∀ p, p ∈ periods → DataClient.file_key (key_of p) = true →
          DataClient.local c' !! key_of p = None)
  ∧ (∀ k, (∀ p, p ∈ periods → key_of p ≠ k) →
          DataClient.local c' !! k = DataClient.local c !! k).
Proof.
  induction periods as [|q periods IH]; intros c Hc; cbn.
  - split; [done|]. split; [|done]. intros p Hp. by inversion Hp.
  - rewrite delete_fallback by done. unfold DataClient.on_local.
    destruct (DataClient._delete_local (DataClient.local c) (key_of q)) as [ok fs1] eqn:Hdel.
    cbn [snd].
    assert (Hfs1 : ∀ k, fs1 !! k
              = if decide (k = key_of q ∧ DataClient.file_key (key_of q) = true)
                then None else DataClient.local c !! k).
    { intros k. rewrite <- (delete_local_lookup (DataClient.local c) (key_of q) k).
      by rewrite Hdel. }
    destruct (IH (DataClient.with_local c fs1) Hc) as (Hc' & Hgone & Hkept).
    split; [done|]. split.
    + intros p Hp Hfile. apply elem_of_cons in Hp as [Hpq | Hp]; [|by apply Hgone].
      subst p.
      destruct (decide (key_of q ∈ key_of <$> periods)) as [Hin | Hno].
      * apply list_elem_of_fmap in Hin as (p & Heq & Hp).
        specialize (Hgone p Hp). rewrite <- Heq in Hgone. by apply Hgone.
      * rewrite Hkept.
        -- cbn. rewrite Hfs1. by rewrite decide_True.
        -- intros p Hp Heq. apply Hno. apply list_elem_of_fmap. by exists p.
    + intros k Hk. rewrite Hkept.
      * cbn. rewrite Hfs1. rewrite decide_False; [done|].
        intros [-> _]. by apply (Hk q); [left|].
      * intros p Hp. apply Hk. by right.
Qed.

(** A key that is no file name reads as no count. *)
Lemma read_count_no_file c (key : string) now :
  DataClient.use_redis c = false →
  DataClient.file_key key = false →
  read_count c key now = (Some 0, c).
Proof.
  intros Hc Hfile. unfold read_count. rewrite get_fallback by done.
  unfold DataClient.on_local, DataClient._get_local. rewrite Hfile. by destruct c.
Qed.

Lemma classify_zero (limit : Z) : 0 < limit → classify 0 limit ≠ Some LIMIT_EXCEEDED.
Proof.
  intros Hl. unfold classify, log_rate_limit_raises.
  destruct (Z.ltb_spec 0 limit); [|lia]. cbn [andb].
  destruct (Z.leb_spec ((2 ^ 1024 - 2 ^ 970) * limit) (Z.abs 0)) as [Hbig|_].
  { exfalso. assert (0 < 2 ^ 1024 - 2 ^ 970) by (vm_compute; reflexivity). cbn in Hbig. nia. }
  destruct (Z.leb_spec limit 0); [lia|].
  destruct (Float.mul_nine_tenths limit); [|done].
  by destruct (Float.int_ge 0 p).
Qed.

Lemma period_limit_elem (d : list (RateLimitPeriod * Z)) (p : RateLimitPeriod) :
  p ∈ d.*1 → ∃ L, period_limit d p = Some L ∧ (p, L) ∈ d.
Proof.
  induction d as [|[q L] d IH]; cbn; intros Hp; [by inversion Hp|].
  destruct (decide (q = p)) as [-> | Hne].
  - exists L. split; [done | by left].
  - apply elem_of_cons in Hp as [-> | Hp]; [done|].
    destruct (IH Hp) as (L' & HL & Hin). exists L'. split; [done | by right].
Qed.

(** X3.  [reset_usage], without primary store.  For an unknown platform it
    returns [False] and does nothing.  For a configured platform it
    returns [True]; every period it resets (the one given, or all
    configured ones) then counts 0, the counts of the other periods are
    as before, and after a reset of all periods, the limits being
    positive, [is_action_allowed] allows the action. *)
Theorem reset_usage_clears c platform action (period : option RateLimitPeriod) now :
  (limits !! Py.lower platform = None →
     reset_usage limits c platform action period now = (false, c))
  ∧ ∀ d, limits !! Py.lower platform = Some d →
      DataClient.use_redis c = false →
      let reset := match period with Some p => [p] | None => d.*1 end in
      let c' := (reset_usage limits c platform action period now).2 in
      (reset_usage limits c platform action period now).1 = true
      ∧ (∀ p, p ∈ reset → usage_count c' platform action p now = Some 0)
      ∧ (∀ p, p ∉ reset →
           usage_count c' platform action p now = usage_count c platform action p now)
      ∧ (period = None → (∀ p L, (p, L) ∈ d → 0 < L) →
           (is_action_allowed limits c' platform action true now).1.1 = true).
Proof.
  split; [by intros Hnone; unfold reset_usage; rewrite Hnone|].
  intros d Hd Hc reset c'. subst c'. unfold reset_usage. rewrite Hd. cbn [fst snd]. fold reset.
  destruct (delete_keys_fallback
              (λ p, _get_time_window_key (Py.lower platform) p action now) reset c Hc)
    as (Hc' & Hgone & Hkept).
  set (c' := foldl _ c reset) in *.
  assert (Hzero : ∀ p, p ∈ reset →
            read_count c' (_get_time_window_key (Py.lower platform) p action now) now
            = (Some 0, c')).
  { intros p Hp.
    destruct (DataClient.file_key (_get_time_window_key (Py.lower platform) p action now))
      eqn:Hfile.
    - apply read_count_absent; [done | by apply Hgone].
    - by apply read_count_no_file. }
  split; [done|]. split; [|split].
  - intros p Hp. unfold usage_count. by rewrite Hzero.
  - intros p Hp. apply usage_count_local; [done | done |]. apply Hkept.
    intros q Hq Heq. apply time_window_key_period in Heq. by subst.
  - intros -> Hpos.
    assert (Hchecks : ∀ p, p ∈ d.*1 →
              ∃ result n l, check_rate_limit limits c' platform action p now = ((result, n, l), c')
                            ∧ result ≠ LIMIT_EXCEEDED).
    { intros p Hp. unfold check_rate_limit. rewrite Hd.
      destruct (period_limit_elem d p Hp) as (L & -> & HL).
      rewrite Hzero by done.
      pose proof (classify_zero L (Hpos p L HL)) as Hz.
      destruct (classify 0 L) as [result|]; [|by eexists _, _, _].
      eexists _, _, _. split; [done|]. congruence. }
    unfold is_action_allowed. rewrite Hd.
    destruct (check_periods_reports limits platform action now d.*1 true [] None c')
      as (ds' & c'' & ->). cbn.
    apply negb_true_iff. apply not_true_iff_false. intros Hex.
    apply existsb_exceeded in Hex as [p Hp].
    revert Hp. subst reset. clear Hkept. revert Hchecks. generalize d.*1. intros periods.
    induction periods as [|q periods IH]; intros Hchecks Hp; cbn in Hp; [by inversion Hp|].
    destruct (Hchecks q ltac:(by left)) as (result & n & l & Hq & Hne).
    rewrite Hq in Hp. apply elem_of_cons in Hp as [[= -> Hres] | Hp]; [done|].
    apply IH; [|done]. intros p' Hp'. apply Hchecks. by right.
Qed.

Lemma set_usage_stats_fresh (name : string) (entry : usage_stats)
    (stats : list (string * usage_stats)) :
  name ∉ stats.*1 → set_usage_stats name entry stats = stats ++ [(name, entry)].
Proof.
  induction stats as [|[n x] stats IH]; cbn; intros Hfresh; [done|].
  apply not_elem_of_cons in Hfresh as [Hne Hfresh].
  destruct (String.eqb_spec n name) as [-> | _]; [done|]. by rewrite IH.
Qed.

Lemma period_value_inj (p q : RateLimitPeriod) : period_value p = period_value q → p = q.
Proof. by destruct p, q. Qed.

(** Without primary store a count is read the same from directories that
    read the same, and the read leaves them so. *)
Lemma read_count_same_reads c c' (key : string) now :
  DataClient.use_redis c = false → DataClient.use_redis c' = false →
  same_reads now (DataClient.local c) (DataClient.local c') →
  (read_count c' key now).1 = (read_count c key now).1
  ∧ DataClient.use_redis (read_count c' key now).2 = false
  ∧ same_reads now (DataClient.local c) (DataClient.local (read_count c' key now).2).
Proof.
  intros Hc Hc' Hsame. unfold read_count. rewrite !get_fallback by done.
  unfold DataClient.on_local.
  pose proof (Hsame key) as Hkey.
  pose proof (get_local_same_reads (DataClient.local c') key now) as Hafter.
  destruct (DataClient._get_local (DataClient.local c) key now) as [v fs1].
  destruct (DataClient._get_local (DataClient.local c') key now) as [v' fs1'].
  cbn in Hkey, Hafter |- *. subst v'. split; [done|]. split; [done|].
  intros k. by rewrite Hsame, Hafter.
Qed.

Lemma usage_stats_fold c platform action (d : list (RateLimitPeriod * Z)) now
    (periods : list RateLimitPeriod) :
  DataClient.use_redis c = false →
  ∀ stats c',
  DataClient.use_redis c' = false →
  same_reads now (DataClient.local c) (DataClient.local c') →
  NoDup periods →
  (∀ p, p ∈ periods → period_value p ∉ stats.*1) →
  (foldl (usage_of_period (Py.lower platform) action d now) (stats, c') periods).1
  = stats ++ ((λ p, (period_value p,
                     usage_entry (usage_count c platform action p now) (period_limit d p)))
              <$> periods).
Proof.
  intros Hc. induction periods as [|q periods IH]; intros stats c' Hc' Hsame Hdup Hfresh; cbn.
  - by rewrite app_nil_r.
  - apply NoDup_cons in Hdup as [Hq Hdup].
    destruct (read_count_same_reads c c'
                (_get_time_window_key (Py.lower platform) q action now) now Hc Hc' Hsame)
      as (Hcount & Hc1 & Hsame1).
    destruct (read_count c' _ now) as [count c1]. cbn in Hcount, Hc1, Hsame1.
    rewrite set_usage_stats_fresh by (apply Hfresh; by left).
    rewrite IH; [|done|done|done|].
    + rewrite <- app_assoc. cbn. unfold usage_count. by rewrite Hcount.
    + intros p Hp. rewrite fmap_app. cbn. intros Hin.
      apply elem_of_app in Hin as [Hin | Hin].
      * revert Hin. apply Hfresh. by right.
      * apply list_elem_of_singleton in Hin. apply period_value_inj in Hin. by subst.
Qed.

Lemma period_limit_nodup (d : list (RateLimitPeriod * Z)) (p : RateLimitPeriod) (L : Z) :
  NoDup d.*1 → (p, L) ∈ d → period_limit d p = Some L.
Proof.
  induction d as [|[q l] d IH]; cbn; intros Hdup Hin; [by inversion Hin|].
  apply NoDup_cons in Hdup as [Hq Hdup].
  apply elem_of_cons in Hin as [[= -> ->] | Hin].
  - by rewrite decide_True.
  - rewrite decide_False; [by apply IH|]. intros ->. apply Hq.
    apply list_elem_of_fmap. by exists (p, L).
Qed.

Lemma log_rate_limit_quiet (n L : Z) : Z.abs n < 2 ^ 1000 → log_rate_limit_raises n L = false.
Proof.
  intros Hn. unfold log_rate_limit_raises.
  destruct (Z.ltb_spec 0 L); [|done]. cbn.
  apply Z.leb_gt.
  assert (2 ^ 1000 < 2 ^ 1024 - 2 ^ 970) by (vm_compute; reflexivity).
  nia.
Qed.

(** X4.  [get_usage_stats].  For an unknown platform it is empty.  For a
    configured platform without primary store it has one entry for each
    configured period, in the order of the configuration, made from the
    count of the period as the client holds it at the call.  An entry
    shows the count and the limit [check_rate_limit] works with, and no
    quota remaining exactly when [check_rate_limit] reports
    [LIMIT_EXCEEDED]. *)
Theorem get_usage_stats_reports c platform action now :
  (limits !! Py.lower platform = None →
     get_usage_stats limits c platform action now = ([], c))
  ∧ ∀ d, limits !! Py.lower platform = Some d →
      DataClient.use_redis c = false →
      NoDup d.*1 →
      (get_usage_stats limits c platform action now).1
      = (λ pl, (period_value pl.1,
                usage_entry (usage_count c platform action pl.1 now) (Some pl.2))) <$> d
      ∧ ∀ p L n, (p, L) ∈ d →
          usage_count c platform action p now = Some n →
          Z.abs n < 2 ^ 1000 →
          (period_value p, UsageStats n L (Z.max 0 (L - n)))
            ∈ (get_usage_stats limits c platform action now).1
          ∧ (Z.max 0 (L - n) = 0
             ↔ (check_rate_limit limits c platform action p now).1.1.1 = LIMIT_EXCEEDED).
Proof.
  split; [by intros Hnone; unfold get_usage_stats; rewrite Hnone|].
  intros d Hd Hc Hdup.
  assert (Hstats : (get_usage_stats limits c platform action now).1
                   = (λ pl, (period_value pl.1,
                             usage_entry (usage_count c platform action pl.1 now) (Some pl.2)))
                       <$> d).
  { unfold get_usage_stats. rewrite Hd.
    rewrite (usage_stats_fold c platform action d now d.*1 Hc [] c); [|done|done|done|].
    - cbn. rewrite <- list_fmap_compose. apply Forall_fmap_ext, Forall_forall.
      intros [p L] Hin. cbn. by rewrite (period_limit_nodup d p L).
    - intros p _ Hin. by inversion Hin. }
  split; [done|].
  intros p L n Hin Hn Hsmall. split.
  - rewrite Hstats. apply list_elem_of_fmap. exists (p, L). split; [|done].
    cbn. rewrite Hn. unfold usage_entry. by rewrite log_rate_limit_quiet.
  - unfold usage_count in Hn. unfold check_rate_limit.
    rewrite Hd, (period_limit_nodup d p L) by done.
    destruct (read_count c _ now) as [count c1]. cbn in Hn. subst count.
    unfold classify. rewrite log_rate_limit_quiet by done.
    destruct (Z.leb_spec L n).
    + cbn. split; [done | lia].
    + destruct (Float.mul_nine_tenths L) as [x|]; cbn.
      * split; [lia | by destruct (Float.int_ge n x)].
      * split; [lia | done].
Qed.




(** X6.  A platform that is not configured is not limited: every check
    allows the action, [execute_with_rate_limit] runs the operation and
    returns or raises as it does, and nothing is counted, reported or
    reset; the client is left to the operation alone. *)
Theorem unknown_platform_unlimited {A E : Type} (c : DataClient.client R)
    (platform action : string)
    (func : DataClient.client R → (E + A) * DataClient.client R)
    (all_periods : bool) (period : option RateLimitPeriod) (now : Z) :
  limits !! Py.lower platform = None →
  is_action_allowed limits c platform action all_periods now
  = ((true, UnknownPlatform platform), c)
  ∧ check_platform_rate_limit limits c platform action now = (true, c)
  ∧ execute_with_rate_limit limits c platform action func now
    = (match (func c).1 with
       | inl e => OperationRaised e
       | inr a => Completed a
       end, (func c).2)
  ∧ increment_platform_usage limits c platform action now = c
  ∧ get_usage_stats limits c platform action now = ([], c)
  ∧ reset_usage limits c platform action period now = (false, c).
Proof.
  intros Hnone.
  unfold check_platform_rate_limit, execute_with_rate_limit, increment_platform_usage,
    increment_all_periods, get_usage_stats, reset_usage, is_action_allowed.
  rewrite Hnone. cbn. repeat split.
  by destruct (func c) as [[e|a] c2].
Qed.

(** X7.  While the primary store raises on [incrby], [increment_usage]
    counts nothing: it returns 0, writes neither to the primary store nor
    to the fallback directory, and the count that [check_rate_limit] then
    reads from the fallback directory is the one it read before. *)
Theorem increment_usage_primary_failure (c : DataClient.client R) (r r1 : R)
    (platform action : string) (period : RateLimitPeriod) (amount : Z) (now : Z) :
  DataClient.use_redis c = true → DataClient.redis_client c = Some r →
  redis_incrby r (_get_time_window_key (Py.lower platform) period action now) amount
  = (Raised, r1) →
  amount ≠ 0 →
  increment_usage c platform action period amount now = (0, DataClient.with_redis c r1)
  ∧ DataClient.local (increment_usage c platform action period amount now).2
    = DataClient.local c.
Proof.
  intros Hc Hr Hincr Hamount. unfold increment_usage, DataClient.increment.
  rewrite (primary_connected c r) by done. rewrite Hincr.
  destruct (Z.eqb_spec 0 amount); [lia|]. done.
Qed.

Lemma same_reads_trans now (fs1 fs2 fs3 : DataClient.files) :
  same_reads now fs1 fs2 → same_reads now fs2 fs3 → same_reads now fs1 fs3.
Proof. intros H12 H23 k. by rewrite H12. Qed.

Lemma same_reads_sym now (fs1 fs2 : DataClient.files) :
  same_reads now fs1 fs2 → same_reads now fs2 fs1.
Proof. intros H12 k. by rewrite H12. Qed.

(** One turn of the loop of [is_action_allowed] on two clients that read
    the same. *)
Lemma check_period_same_reads platform action now (p : RateLimitPeriod)
    (acc : bool * list (string * period_details) * option string) c c' :
  DataClient.use_redis c = false → DataClient.use_redis c' = false →
  same_reads now (DataClient.local c) (DataClient.local c') →
  (check_period limits platform action now (acc, c') p).1
  = (check_period limits platform action now (acc, c) p).1
  ∧ DataClient.use_redis (check_period limits platform action now (acc, c') p).2 = false
  ∧ same_reads now (DataClient.local c)
      (DataClient.local (check_period limits platform action now (acc, c') p).2).
Proof.
  intros Hc Hc' Hsame. destruct acc as [[allowed ds] blocked_by].
  destruct (check_rate_limit_same_reads limits c c' platform action p now Hc Hc' Hsame)
    as (Hres & Hredis & Hreads).
  unfold check_period.
  destruct (check_rate_limit limits c' platform action p now) as [[[result' n'] l'] c1'].
  destruct (check_rate_limit limits c platform action p now) as [[[result n] l] c1].
  cbn in Hres, Hredis, Hreads. injection Hres as -> -> ->.
  by destruct (decide (result = LIMIT_EXCEEDED)).
Qed.

Lemma check_periods_same_reads platform action now (periods : list RateLimitPeriod) :
  ∀ (acc : bool * list (string * period_details) * option string) c c',
  DataClient.use_redis c = false → DataClient.use_redis c' = false →
  same_reads now (DataClient.local c) (DataClient.local c') →
  (foldl (check_period limits platform action now) (acc, c') periods).1
  = (foldl (check_period limits platform action now) (acc, c) periods).1
  ∧ DataClient.use_redis (foldl (check_period limits platform action now) (acc, c') periods).2
    = false
  ∧ same_reads now (DataClient.local c)
      (DataClient.local (foldl (check_period limits platform action now) (acc, c') periods).2).
Proof.
  induction periods as [|p periods IH]; intros acc c c' Hc Hc' Hsame; cbn [foldl]; [done|].
  destruct (check_period_same_reads platform action now p acc c c' Hc Hc' Hsame)
    as (Hacc' & Hredis' & Hreads').
  destruct (check_period_same_reads platform action now p acc c c Hc Hc ltac:(done))
    as (_ & Hredis & Hreads).
  destruct (check_period limits platform action now (acc, c') p) as [acc1' c1'].
  destruct (check_period limits platform action now (acc, c) p) as [acc1 c1].
  cbn in Hacc', Hredis', Hreads', Hredis, Hreads. subst acc1'.
  assert (Hsame1 : same_reads now (DataClient.local c1) (DataClient.local c1'))
    by (eapply same_reads_trans; [by apply same_reads_sym | done]).
  destruct (IH acc1 c1 c1' Hredis Hredis' Hsame1) as (Heq & Hu & Hr).
  split; [exact Heq|]. split; [exact Hu|].
  eapply same_reads_trans; [exact Hreads | exact Hr].
Qed.

(** X8.  Checks consume no quota.  Without primary store, after
    [is_action_allowed] a second call at the same time returns the same
    answer and the same details, and [check_rate_limit] reports for every
    period what it reported before. *)
Theorem is_action_allowed_consumes_nothing (c : DataClient.client R)
    (platform action : string) (all_periods : bool) (now : Z) :
  DataClient.use_redis c = false →
  let first := is_action_allowed limits c platform action all_periods now in
  (is_action_allowed limits first.2 platform action all_periods now).1 = first.1
  ∧ ∀ period,
      (check_rate_limit limits first.2 platform action period now).1
      = (check_rate_limit limits c platform action period now).1.
Proof.
  intros Hc first.
  assert (Hfirst : DataClient.use_redis first.2 = false
                   ∧ same_reads now (DataClient.local c) (DataClient.local first.2)).
  { subst first. unfold is_action_allowed.
    destruct (limits !! Py.lower platform) as [d|]; [|done].
    destruct (check_periods_same_reads platform action now
                (if all_periods then d.*1 else [HOURLY]) (true, [], None) c c Hc Hc
                ltac:(done)) as (_ & Hu & Hr).
    destruct (foldl _ _ _) as [[[allowed ds] blocked_by] c1]. by cbn in *. }
  destruct Hfirst as [Hu Hr]. split.
  - subst first. unfold is_action_allowed in *.
    destruct (limits !! Py.lower platform) as [d|]; [|done].
    set (periods := if all_periods then d.*1 else [HOURLY]) in *.
    destruct (foldl (check_period limits platform action now) (true, [], None, c) periods)
      as [[[allowed ds] blocked_by] c1] eqn:Hrun. cbn [fst snd] in *.
    destruct (check_periods_same_reads platform action now periods (true, [], None) c c1
                Hc Hu Hr) as (Heq & _ & _).
    rewrite Hrun in Heq.
    destruct (foldl (check_period limits platform action now) (true, [], None, c1) periods)
      as [[[allowed' ds'] blocked_by'] c2]. cbn in Heq. by injection Heq as -> -> ->.
  - intros period.
    by destruct (check_rate_limit_same_reads limits c first.2 platform action period now
                   Hc Hu Hr) as (-> & _ & _).
Qed.

End limiter_operations.

(** Five posts to twitter in the hour, then a reset of all periods. *)
Lemma reset_usage_clears_witness :
  let c := Notions.increment_usage_at (DataClient.Client (R:=unit) false None ∅)
             "twitter" "post" RateLimit.HOURLY (replicate 5 Notions.new_year_2024) in
  let c' := (RateLimit.reset_usage RateLimit.default_limits c "twitter" "post" None
               Notions.new_year_2024).2 in
  Notions.usage_count c "twitter" "post" RateLimit.HOURLY Notions.new_year_2024 = Some 5
  ∧ Notions.usage_count c' "twitter" "post" RateLimit.HOURLY Notions.new_year_2024 = Some 0
  ∧ (RateLimit.is_action_allowed RateLimit.default_limits c' "twitter" "post" true
       Notions.new_year_2024).1.1 = true.
Proof.
  intros c c'.
  destruct (reset_usage_clears RateLimit.default_limits c "twitter" "post" None
              Notions.new_year_2024) as [_ Hreset].
  destruct (Hreset [(RateLimit.HOURLY, 5); (RateLimit.DAILY, 50)]
              ltac:(vm_compute; reflexivity) ltac:(vm_compute; reflexivity))
    as (_ & Hzero & _ & Hallowed).
  split; [vm_compute; reflexivity|]. split.
  - apply Hzero. apply (bool_decide_unpack _). vm_compute. exact I.
  - apply Hallowed; [done|]. intros p L Hin.
    apply elem_of_cons in Hin as [[= _ ->] | Hin]; [lia|].
    apply elem_of_cons in Hin as [[= _ ->] | Hin]; [lia|].
    apply elem_of_nil in Hin. destruct Hin.
Defined.

(** Five posts to twitter in the hour: the hourly quota is used up, the
    daily one is not counted by [increment_usage] of the hourly period. *)
Lemma get_usage_stats_reports_witness :
  let c := Notions.increment_usage_at (DataClient.Client (R:=unit) false None ∅)
             "twitter" "post" RateLimit.HOURLY (replicate 5 Notions.new_year_2024) in
  (RateLimit.get_usage_stats RateLimit.default_limits c "twitter" "post"
     Notions.new_year_2024).1
  = [("hourly"%string, RateLimit.UsageStats 5 5 0);
     ("daily"%string, RateLimit.UsageStats 0 50 50)].
Proof.
  intros c.
  destruct (get_usage_stats_reports RateLimit.default_limits c "twitter" "post"
              Notions.new_year_2024) as [_ Hstats].
  assert (Hdup : NoDup ([(RateLimit.HOURLY, 5); (RateLimit.DAILY, 50)].*1))
    by (apply (bool_decide_unpack _); vm_compute; exact I).
  destruct (Hstats [(RateLimit.HOURLY, 5); (RateLimit.DAILY, 50)]
              ltac:(vm_compute; reflexivity) ltac:(vm_compute; reflexivity) Hdup)
    as [-> _].
  vm_compute. reflexivity.
Defined.


(** [facebook] is not configured. *)
Lemma unknown_platform_unlimited_witness :
  let c := DataClient.Client (R:=unit) false None ∅ in
  let func := λ c1 : DataClient.client unit, (inr "posted", c1) : (string + string) * _ in
  RateLimit.execute_with_rate_limit RateLimit.default_limits c "facebook" "post" func
    Notions.new_year_2024
  = (RateLimit.Completed "posted", c).
Proof.
  intros c func.
  destruct (unknown_platform_unlimited RateLimit.default_limits c "facebook" "post" func
              true None Notions.new_year_2024 ltac:(vm_compute; reflexivity))
    as (_ & _ & Hrun & _).
  exact Hrun.
Defined.

(** A connected client whose primary store cannot be reached. *)
Lemma increment_usage_primary_failure_witness :
  let c := DataClient.Client (R:=unit) true (Some ()) ∅ in
  RateLimit.increment_usage c "twitter" "post" RateLimit.HOURLY 1 Notions.new_year_2024
  = (0, c).
Proof.
  intros c.
  destruct (@increment_usage_primary_failure unit unreachable c () () "twitter" "post"
              RateLimit.HOURLY 1 Notions.new_year_2024 eq_refl eq_refl eq_refl ltac:(lia))
    as [Hcount _].
  exact Hcount.
Defined.

(** Two checks after five posts to twitter in the hour. *)
Lemma is_action_allowed_consumes_nothing_witness :
  let c := Notions.increment_usage_at (DataClient.Client (R:=unit) false None ∅)
             "twitter" "post" RateLimit.HOURLY (replicate 5 Notions.new_year_2024) in
  let first := RateLimit.is_action_allowed RateLimit.default_limits c "twitter" "post" true
                 Notions.new_year_2024 in
  (RateLimit.is_action_allowed RateLimit.default_limits first.2 "twitter" "post" true
     Notions.new_year_2024).1 = first.1.
Proof.
  intros c first.
  apply (is_action_allowed_consumes_nothing RateLimit.default_limits c "twitter" "post" true
           Notions.new_year_2024 ltac:(vm_compute; reflexivity)).
Defined.

(** ** Waiting for a reset *)

Section waiting.

Import RateLimit Notions.

Lemma whole_seconds_nonneg (delta : Z) :
  0 <= delta →
  0 <= whole_seconds delta
  ∧ whole_seconds delta * Clock.usec_per_second <= delta
    < (whole_seconds delta + 1) * Clock.usec_per_second.
Proof.
  intros Hd. unfold whole_seconds, Clock.usec_per_second.
  rewrite Z.quot_div_nonneg by lia. Z.div_mod_to_equations. lia.
Qed.

Lemma days_before_year_succ (y : Z) :
  Calendar.days_before_year (y + 1)
  = Calendar.days_before_year y + (if Calendar.is_leap y then 366 else 365).
Proof.
  unfold Calendar.days_before_year, Calendar.is_leap.
  replace (y + 1 - 1) with y by lia.
  destruct (Z.eqb_spec (y mod 4) 0), (Z.eqb_spec (y mod 100) 0), (Z.eqb_spec (y mod 400) 0);
    cbn [andb orb negb]; Z.div_mod_to_equations; lia.
Qed.

Lemma days_before_month_succ (leap : bool) (m : Z) :
  1 <= m <= 11 →
  Calendar.days_before_month leap (m + 1)
  = Calendar.days_before_month leap m + Calendar.days_in_month leap m.
Proof.
  intros Hm.
  assert (Hcases : m = 1 ∨ m = 2 ∨ m = 3 ∨ m = 4 ∨ m = 5 ∨ m = 6 ∨ m = 7 ∨ m = 8 ∨ m = 9
                   ∨ m = 10 ∨ m = 11) by lia.
  destruct leap; repeat (destruct Hcases as [-> | Hcases]; [reflexivity|]); by subst.
Qed.

(** The clock value of a day number and a time of day. *)
Lemma clock_ordinal (t : Z) :
  t = (Clock.ordinal t - 1) * Clock.usec_per_day + t mod Clock.usec_per_day
  ∧ 0 <= t mod Clock.usec_per_day < Clock.usec_per_day.
Proof.
  unfold Clock.ordinal, Clock.usec_per_day, Clock.usec_per_second.
  Z.div_mod_to_equations. lia.
Qed.

(** X9.  [wait_for_rate_limit_reset] for the hourly, daily and monthly
    periods, at a time before the last year of the calendar.  The next
    reset is the start of the next hour, the next midnight, the midnight
    after the last day of the month.  The function returns the whole
    seconds until then, rounded down: at least 0, at most 3600, 86400 and
    31 * 86400, and up to a second short of the reset. *)
Theorem wait_for_rate_limit_reset_bounds (now : Z) :
  Clock.valid now → Calendar.year now < 9999 →
  now + Clock.usec_per_day < Clock.datetime_end →
  let reaches (next w : Z) :=
    now < next
    ∧ now + w * Clock.usec_per_second <= next < now + (w + 1) * Clock.usec_per_second in
  (∃ w, wait_for_rate_limit_reset HOURLY now = Some w
        ∧ 0 <= w <= 3600 ∧ reaches (hour_start now + usec_per_hour) w)
  ∧ (∃ w, wait_for_rate_limit_reset DAILY now = Some w
          ∧ 0 <= w <= 86400 ∧ reaches (midnight now + Clock.usec_per_day) w)
  ∧ (∃ w, wait_for_rate_limit_reset MONTHLY now = Some w
          ∧ 0 <= w <= 31 * 86400
          ∧ reaches (midnight now
                     + (Calendar.days_in_month (Calendar.is_leap (Calendar.year now))
                          (Calendar.month now) - Calendar.day now + 1)
                       * Clock.usec_per_day) w).
Proof.
  intros Hnow Hyear Hend reaches.
  destruct (clock_ordinal now) as [Hclock Htime].
  assert (Hwait : ∀ next hours, now < next → next - now <= hours * usec_per_hour →
            0 <= whole_seconds (next - now) <= hours * 3600
            ∧ reaches next (whole_seconds (next - now))).
  { intros next hours Hlt Hle.
    destruct (whole_seconds_nonneg (next - now) ltac:(lia)) as [H0 Hw].
    subst reaches. cbn beta. unfold usec_per_hour, Clock.usec_per_second in *. lia. }
  unfold wait_for_rate_limit_reset. split; [|split].
  - assert (Hh : 0 <= now mod usec_per_hour < usec_per_hour)
      by (apply Z.mod_pos_bound; done).
    unfold Clock.add_seconds.
    assert (Hnext : hour_start now + 3600 * Clock.usec_per_second
                    = hour_start now + usec_per_hour) by done.
    rewrite Hnext.
    assert (Hin : (0 <=? hour_start now + usec_per_hour)
                  && (hour_start now + usec_per_hour <? Clock.datetime_end) = true).
    { unfold Clock.valid, hour_start, usec_per_hour, Clock.usec_per_day,
        Clock.usec_per_second in *.
      apply andb_true_intro. split; [apply Z.leb_le | apply Z.ltb_lt]; lia. }
    rewrite Hin. cbn [fmap option_fmap option_map]. eexists. split; [reflexivity|].
    apply (Hwait _ 1); unfold hour_start; lia.
  - unfold Clock.add_seconds.
    assert (Hnext : midnight now + 86400 * Clock.usec_per_second
                    = midnight now + Clock.usec_per_day) by done.
    rewrite Hnext.
    assert (Hin : (0 <=? midnight now + Clock.usec_per_day)
                  && (midnight now + Clock.usec_per_day <? Clock.datetime_end) = true).
    { unfold Clock.valid, midnight in *. apply andb_true_intro.
      split; [apply Z.leb_le | apply Z.ltb_lt]; lia. }
    rewrite Hin. cbn [fmap option_fmap option_map]. eexists. split; [reflexivity|].
    apply (Hwait _ 24); unfold midnight, usec_per_hour, Clock.usec_per_day in *; lia.
  - pose proof (ordinal_valid now Hnow) as Hord.
    pose proof (ord2ymd_day (Clock.ordinal now) ltac:(lia)) as Hday.
    destruct (calendar_fields now Hnow) as (Hy & _).
    unfold Calendar.year, Calendar.month, Calendar.day in *.
    destruct (ord2ymd_spec (Clock.ordinal now) ltac:(lia))
      as (y & m & d & Heq & _ & Hm & Hd & _ & Hn & _).
    rewrite Heq in Hday, Hy, Hyear |- *. cbn [fst snd] in *.
    assert (Hdim : Calendar.days_in_month (Calendar.is_leap y) m <= 31)
      by (unfold Calendar.days_in_month; repeat case_match; lia).
    assert (Hnext : (if m =? 12 then first_of_month (y + 1) 1 else first_of_month y (m + 1))
                    = Some (midnight now
                            + (Calendar.days_in_month (Calendar.is_leap y) m - d + 1)
                              * Clock.usec_per_day)).
    { unfold first_of_month, Calendar.ymd2ord, midnight.
      destruct (Z.eqb_spec m 12) as [-> | Hne].
      - destruct (Z.leb_spec 1 (y + 1)); [|lia]. destruct (Z.leb_spec (y + 1) 9999); [|lia].
        cbn [andb]. f_equal. rewrite days_before_year_succ.
        change (Calendar.days_before_month (Calendar.is_leap (y + 1)) 1) with 0.
        assert (Calendar.days_before_month (Calendar.is_leap y) 12
                = (if Calendar.is_leap y then 366 else 365) - 31)
          by (by destruct (Calendar.is_leap y)).
        change (Calendar.days_in_month (Calendar.is_leap y) 12) with 31. lia.
      - destruct (Z.leb_spec 1 y); [|lia]. destruct (Z.leb_spec y 9999); [|lia].
        cbn [andb]. f_equal. rewrite days_before_month_succ by lia. lia. }
    rewrite Hnext. cbn [fmap option_fmap option_map]. eexists. split; [reflexivity|].
    apply (Hwait _ (31 * 24));
      unfold midnight, usec_per_hour, Clock.usec_per_day, Clock.usec_per_second in *; nia.
Qed.

(** X10.  [wait_for_rate_limit_reset] for the weekly period.  On a day
    other than Monday it returns the whole seconds until the next Monday
    00:00, rounded down.  On a Monday the reset it computes is 00:00 of
    that day: the result is minus the seconds since midnight, never
    positive, although the weekly counter lasts six days
    more. *)
Theorem wait_for_rate_limit_reset_weekly (now : Z) :
  Clock.valid now → now + 7 * Clock.usec_per_day < Clock.datetime_end →
  ∃ w, wait_for_rate_limit_reset WEEKLY now = Some w
       ∧ (Clock.weekday now = 0 →
            w = - (now mod Clock.usec_per_day / Clock.usec_per_second) ∧ w <= 0)
       ∧ (Clock.weekday now ≠ 0 →
            0 <= w <= 6 * 86400
            ∧ now < week_start now + 7 * Clock.usec_per_day
            ∧ now + w * Clock.usec_per_second <= week_start now + 7 * Clock.usec_per_day
              < now + (w + 1) * Clock.usec_per_second).
Proof.
  intros Hnow Hend.
  destruct (clock_ordinal now) as [Hclock Htime].
  assert (Hk : 0 <= Clock.weekday now < 7)
    by (unfold Clock.weekday; apply Z.mod_pos_bound; lia).
  unfold wait_for_rate_limit_reset, Clock.add_seconds.
  set (days := (7 - Clock.weekday now) mod 7).
  assert (Hdays : 0 <= days <= 6
                  ∧ (Clock.weekday now = 0 → days = 0)
                  ∧ (Clock.weekday now ≠ 0 → days = 7 - Clock.weekday now))
    by (subst days; Z.div_mod_to_equations; lia).
  assert (Hnext : midnight now + days * 86400 * Clock.usec_per_second
                  = midnight now + days * Clock.usec_per_day)
    by (unfold Clock.usec_per_day; lia).
  rewrite Hnext.
  assert (Hin : (0 <=? midnight now + days * Clock.usec_per_day)
                && (midnight now + days * Clock.usec_per_day <? Clock.datetime_end) = true).
  { clear Hnext. clearbody days. apply andb_true_intro.
    unfold Clock.valid, midnight, Clock.datetime_end, Clock.usec_per_day,
      Clock.usec_per_second in *.
    split; [apply Z.leb_le | apply Z.ltb_lt]; Z.div_mod_to_equations; lia. }
  rewrite Hin. cbn [fmap option_fmap option_map]. eexists. split; [reflexivity|].
  destruct Hdays as (Hrange & Hmonday & Hother). split.
  - intros Hw. rewrite (Hmonday Hw). unfold midnight, whole_seconds.
    replace (now - now mod Clock.usec_per_day + 0 * Clock.usec_per_day - now)
      with (- (now mod Clock.usec_per_day)) by lia.
    rewrite Z.quot_opp_l by done. rewrite Z.quot_div_nonneg by (done || lia).
    split; [done|]. unfold Clock.usec_per_second. Z.div_mod_to_equations. lia.
  - intros Hw. rewrite (Hother Hw).
    assert (Hweek : midnight now + (7 - Clock.weekday now) * Clock.usec_per_day
                    = week_start now + 7 * Clock.usec_per_day)
      by (unfold midnight, week_start; lia).
    rewrite Hweek.
    assert (Hlt : now < week_start now + 7 * Clock.usec_per_day)
      by (unfold week_start; assert (0 < Clock.usec_per_day) by done; nia).
    destruct (whole_seconds_nonneg (week_start now + 7 * Clock.usec_per_day - now) ltac:(lia))
      as [H0 Hsec].
    split; [|split; [done | lia]].
    unfold week_start, Clock.usec_per_day, Clock.usec_per_second in *. nia.
Qed.

End waiting.

(** 2024-01-01 10:30:15.5: 1784 whole seconds to 11:00. *)
Lemma wait_for_rate_limit_reset_bounds_witness :
  RateLimit.wait_for_rate_limit_reset RateLimit.HOURLY 63839701815500000 = Some 1784
  ∧ ∃ w, RateLimit.wait_for_rate_limit_reset RateLimit.MONTHLY 63839701815500000 = Some w
         ∧ 0 <= w <= 31 * 86400.
Proof.
  assert (Hnow : Clock.valid 63839701815500000)
    by (unfold Clock.valid; vm_compute; split; [discriminate | reflexivity]).
  assert (Hyear : Calendar.year 63839701815500000 < 9999) by (vm_compute; reflexivity).
  assert (Hend : 63839701815500000 + Clock.usec_per_day < Clock.datetime_end)
    by (vm_compute; reflexivity).
  destruct (wait_for_rate_limit_reset_bounds _ Hnow Hyear Hend)
    as (_ & _ & (w & Hw & Hbound & _)).
  split; [vm_compute; reflexivity|]. exists w. split; [exact Hw | exact Hbound].
Defined.

(** Monday 2024-01-01 10:00: the weekly wait is minus ten hours. *)
Lemma wait_for_rate_limit_reset_weekly_witness :
  RateLimit.wait_for_rate_limit_reset RateLimit.WEEKLY 63839700000000000 = Some (-36000).
Proof.
  assert (Hnow : Clock.valid 63839700000000000)
    by (unfold Clock.valid; vm_compute; split; [discriminate | reflexivity]).
  assert (Hend : 63839700000000000 + 7 * Clock.usec_per_day < Clock.datetime_end)
    by (vm_compute; reflexivity).
  destruct (wait_for_rate_limit_reset_weekly _ Hnow Hend) as (w & Hw & Hmonday & _).
  destruct (Hmonday ltac:(vm_compute; reflexivity)) as [-> _]. exact Hw.
Defined.

(** ** The data client on the fallback directory *)

Section local_store.

Import Notions.
Context {R : Type} `{!Primary R}.
Implicit Types (c : DataClient.client R) (key : string) (now later : Z).

Lemma exists_fallback c key :
  DataClient.use_redis c = false →
  DataClient.exists_ c key = (DataClient._exists_local (DataClient.local c) key, c).
Proof. intros Hc. unfold DataClient.exists_. by rewrite primary_fallback. Qed.

(** X11.  A value that [json.dumps] refuses even with [default=str] (a
    dictionary with a tuple as key, say) costs the key its old value:
    without primary store, for a key that is a file name, [set] returns
    [False], and afterwards the file is there but empty: [get] returns
    [None] and [exists] returns [True].  The other files are not
    touched. *)
Theorem set_unserialisable_empties_file c key (v : Py.value) (expire : option Z)
    now later :
  DataClient.use_redis c = false →
  DataClient.file_key key = true →
  Json.dumps true v = None →
  (∀ secs, expire = Some secs → secs = 0 ∨ is_Some (Clock.add_seconds now secs)) →
  let c' := (DataClient.set c key v expire now).2 in
  (DataClient.set c key v expire now).1 = false
  ∧ (DataClient.get c' key later).1 = Py.VNone
  ∧ (DataClient.exists_ c' key).1 = true
  ∧ ∀ k, k ≠ key → DataClient.local c' !! k = DataClient.local c !! k.
Proof.
  intros Hc Hfile Hv Hexpire c'. subst c'.
  assert (Hset : DataClient._set_local (DataClient.local c) key v expire now
                 = (false, <[key := None]> (DataClient.local c))).
  { unfold DataClient._set_local. rewrite Hfile, Hv.
    destruct expire as [secs|]; [|done].
    destruct (Hexpire secs eq_refl) as [-> | [t Ht]]; [done|].
    rewrite Ht. by destruct (secs =? 0). }
  rewrite set_fallback by done. rewrite (on_local_eq _ _ _ _ Hset). cbn [fst snd].
  split; [done|]. split; [|split].
  - rewrite get_fallback by done. unfold DataClient.on_local, DataClient._get_local.
    cbn. by rewrite Hfile, lookup_insert_eq.
  - rewrite exists_fallback by done. unfold DataClient._exists_local. cbn.
    rewrite Hfile, lookup_insert_eq. done.
  - intros k Hne. cbn. by rewrite lookup_insert_ne.
Qed.

(** X12.  Expiry on the fallback directory.  An entry with an expiry is
    returned by [get] up to and including the time of expiry.  After it,
    [exists] still returns [True], for the file is there, until a [get]
    returns [None] and removes the file; then [exists] returns
    [False]. *)
Theorem expired_entry_exists_until_read c key (e : DataClient.entry) (t : Z) now later :
  DataClient.use_redis c = false →
  DataClient.file_key key = true →
  DataClient.local c !! key = Some (Some e) →
  DataClient.expires_at e = Some t →
  now <= t → t < later →
  (DataClient.get c key now).1 = Json.loads (DataClient.value e)
  ∧ (DataClient.exists_ c key).1 = true
  ∧ (DataClient.get c key later).1 = Py.VNone
  ∧ (DataClient.exists_ (DataClient.get c key later).2 key).1 = false.
Proof.
  intros Hc Hfile Hk He Hnow Hlater.
  rewrite !get_fallback by done.
  rewrite (on_local_eq _ _ _ _ (get_local_live _ _ e now Hfile Hk
                                   ltac:(unfold live; rewrite He; lia))).
  rewrite (on_local_eq _ _ _ _ (get_local_expired _ _ e t later Hfile Hk He Hlater)).
  rewrite !exists_fallback by done. unfold DataClient._exists_local. cbn.
  rewrite Hfile, Hk, lookup_delete_eq. repeat split.
Qed.

Lemma delete_fallback_local c key :
  DataClient.use_redis c = false →
  DataClient.delete c key
  = DataClient.on_local c (λ fs, DataClient._delete_local fs key).
Proof. intros Hc. unfold DataClient.delete. by rewrite primary_fallback. Qed.

(** X13.  [delete] on the fallback directory, for a key that is a file
    name: it returns [True] whether or not there was a file; afterwards
    [get] returns [None] and [exists] returns [False] for the key, and
    the other files are as before. *)
Theorem delete_then_absent c key now :
  DataClient.use_redis c = false →
  DataClient.file_key key = true →
  let c' := (DataClient.delete c key).2 in
  (DataClient.delete c key).1 = true
  ∧ (DataClient.get c' key now).1 = Py.VNone
  ∧ (DataClient.exists_ c' key).1 = false
  ∧ ∀ k, k ≠ key → DataClient.local c' !! k = DataClient.local c !! k.
Proof.
  intros Hc Hfile c'. subst c'. rewrite delete_fallback_local by done.
  unfold DataClient.on_local, DataClient._delete_local.
  rewrite (file_key_kind _ Hfile). cbn [fst snd].
  split; [done|]. split; [|split].
  - rewrite get_fallback by done.
    rewrite (on_local_eq _ _ _ _ (get_local_absent _ _ now ltac:(apply lookup_delete_eq))).
    done.
  - rewrite exists_fallback by done. unfold DataClient._exists_local. cbn.
    rewrite lookup_delete_eq, andb_false_intro2; [done|].
    apply bool_decide_eq_false. by intros [? ?].
  - intros k Hne. cbn. by rewrite lookup_delete_ne.
Qed.

(** X14.  [increment] and [get] on the fallback directory, for a key
    that is a file name.  When the value read for the key, or 0 if there
    is none, converts with [int] to [n], [increment] returns
    [n + amount], and [get] returns that number at any later time.
    When it does not convert, [increment] returns 0 and the value stays. *)
Theorem increment_then_get c key (amount : Z) now later :
  DataClient.use_redis c = false →
  DataClient.file_key key = true →
  let current := (DataClient.get c key now).1 in
  let c' := (DataClient.increment c key amount now).2 in
  (∀ n, Py.int_of (Py.or_else current (Py.VInt 0)) = Some n →
     (DataClient.increment c key amount now).1 = n + amount
     ∧ (DataClient.get c' key later).1 = Py.VInt (n + amount))
  ∧ (Py.int_of (Py.or_else current (Py.VInt 0)) = None →
     (DataClient.increment c key amount now).1 = 0
     ∧ (DataClient.get c' key now).1 = current).
Proof.
  intros Hc Hfile current c'. subst current c'.
  rewrite get_fallback by done. rewrite increment_fallback by done.
  pose proof (get_local_same_reads (DataClient.local c) key now key) as Hsame.
  destruct (DataClient._get_local (DataClient.local c) key now) as [current fs1] eqn:Hget.
  rewrite (on_local_eq _ _ _ _ Hget). cbn [fst snd] in *.
  unfold DataClient.on_local, DataClient._increment_local. rewrite Hget.
  split.
  - intros n Hn. rewrite Hn. unfold DataClient._set_local. rewrite Hfile. cbn.
    split; [done|].
    rewrite get_fallback by done.
    erewrite on_local_eq;
      [|apply (get_local_live _ _ (DataClient.Entry (Json.JInt (n + amount)) now None))].
    + done.
    + done.
    + cbn. apply lookup_insert_eq.
    + done.
  - intros Hn. rewrite Hn. cbn. split; [done|].
    rewrite get_fallback by done. unfold DataClient.on_local. cbn.
    destruct (DataClient._get_local fs1 key now) as [again fs2]. cbn in *.
    by rewrite <- Hsame.
Qed.

End local_store.

(** A dictionary with a tuple as key replaces a stored counter. *)
Lemma set_unserialisable_empties_file_witness :
  let c := DataClient.Client (R:=unit) false None
             {[ "cart"%string := Some (DataClient.Entry (Json.JInt 3) 0 None) ]} in
  let v := Py.VDict [(Py.KOther "(1, 2)", Py.VInt 1)] in
  (DataClient.set c "cart" v (Some 60) 1000000).1 = false
  ∧ (DataClient.get (DataClient.set c "cart" v (Some 60) 1000000).2 "cart" 2000000).1
    = Py.VNone.
Proof.
  intros c v.
  assert (Hexpire : ∀ secs, Some 60 = Some secs
                            → secs = 0 ∨ is_Some (Clock.add_seconds 1000000 secs)).
  { intros secs [= <-]. right. vm_compute. eexists. reflexivity. }
  destruct (@set_unserialisable_empties_file unit unreachable c "cart" v (Some 60)
              1000000 2000000 ltac:(vm_compute; reflexivity)
              ltac:(vm_compute; reflexivity) ltac:(vm_compute; reflexivity) Hexpire)
    as (Hset & Hget & _).
  split; [exact Hset | exact Hget].
Defined.

(** A session stored for one minute, read after 30 and after 90 seconds. *)
Lemma expired_entry_exists_until_read_witness :
  let e := DataClient.Entry (Json.JStr "token") 0 (Some 60000000) in
  let c := DataClient.Client (R:=unit) false None {[ "session"%string := Some e ]} in
  (DataClient.get c "session" 30000000).1 = Py.VStr "token"
  ∧ (DataClient.exists_ c "session").1 = true
  ∧ (DataClient.get c "session" 90000000).1 = Py.VNone
  ∧ (DataClient.exists_ (DataClient.get c "session" 90000000).2 "session").1 = false.
Proof.
  intros e c.
  exact (@expired_entry_exists_until_read unit unreachable c "session" e 60000000
           30000000 90000000 ltac:(vm_compute; reflexivity)
           ltac:(vm_compute; reflexivity) ltac:(vm_compute; reflexivity)
           ltac:(vm_compute; reflexivity) ltac:(lia) ltac:(lia)).
Defined.

Lemma delete_then_absent_witness :
  let c := DataClient.Client (R:=unit) false None
             {[ "session"%string := Some (DataClient.Entry (Json.JStr "token") 0 None) ]} in
  (DataClient.delete c "session").1 = true
  ∧ (DataClient.get (DataClient.delete c "session").2 "session" 0).1 = Py.VNone
  ∧ (DataClient.delete (DataClient.delete c "session").2 "session").1 = true.
Proof.
  intros c.
  destruct (@delete_then_absent unit unreachable c "session" 0
              ltac:(vm_compute; reflexivity) ltac:(vm_compute; reflexivity))
    as (Hdel & Hget & _).
  destruct (@delete_then_absent unit unreachable (DataClient.delete c "session").2
              "session" 0
              ltac:(vm_compute; reflexivity) ltac:(vm_compute; reflexivity))
    as (Hagain & _).
  split; [exact Hdel | split; [exact Hget | exact Hagain]].
Defined.

(** A counter stored as the text ["41"] is counted on as a number. *)
Lemma increment_then_get_witness :
  let c := DataClient.Client (R:=unit) false None
             {[ "visits"%string := Some (DataClient.Entry (Json.JStr "41") 0 None) ]} in
  (DataClient.increment c "visits" 1 1000000).1 = 42
  ∧ (DataClient.get (DataClient.increment c "visits" 1 1000000).2 "visits" 2000000).1
    = Py.VInt 42.
Proof.
  intros c.
  destruct (@increment_then_get unit unreachable c "visits" 1 1000000 2000000
              ltac:(vm_compute; reflexivity) ltac:(vm_compute; reflexivity))
    as [Hcount _].
  exact (Hcount 41 ltac:(vm_compute; reflexivity)).
Defined.

Section listing.

Context {R : Type} `{!Primary R}.

Lemma drop_stars_no_star (s : string) :
  DataClient.has_char "*" s = false → DataClient.drop_stars s = s.
Proof.
  induction s as [|ch s IH]; cbn; [done|]. intros Hs.
  apply orb_false_elim in Hs as [-> Hs]. by rewrite IH.
Qed.

Lemma append_empty (s : string) : s +:+ EmptyString = s.
Proof.
  induction s as [|ch s IH]; [done|].
  change (String ch (s +:+ EmptyString) = String ch s). by rewrite IH.
Qed.

Lemma drop_stars_app (s1 s2 : string) :
  DataClient.drop_stars (s1 +:+ s2) = DataClient.drop_stars s1 +:+ DataClient.drop_stars s2.
Proof.
  induction s1 as [|ch s1 IH]; [done|].
  change (DataClient.drop_stars (String ch (s1 +:+ s2))
          = DataClient.drop_stars (String ch s1) +:+ DataClient.drop_stars s2).
  cbn [DataClient.drop_stars]. destruct (Ascii.eqb ch "*"); [apply IH|].
  change (String ch (DataClient.drop_stars (s1 +:+ s2))
          = String ch (DataClient.drop_stars s1 +:+ DataClient.drop_stars s2)).
  by rewrite IH.
Qed.

(** X15.  [keys] on the fallback directory lists the names of the files
    there are, those of expired and of emptied entries included, that
    pass the pattern; and the pattern is no glob: apart from [*] alone,
    its stars are dropped and what is left has to be the start of the
    name.  So [prefix*] lists the names that start with [prefix], and
    [*suffix] lists the names that start with [suffix]. *)
Theorem keys_lists_names_by_prefix (c : DataClient.client R) (pattern name : string) :
  DataClient.use_redis c = false →
  (DataClient.keys c pattern).2 = c
  ∧ (name ∈ (DataClient.keys c pattern).1
     ↔ (∃ key, is_Some (DataClient.local c !! key) ∧ name = DataClient.stem key)
       ∧ (pattern = "*"%string
          ∨ String.prefix (DataClient.drop_stars pattern) name = true))
  ∧ (∀ s, DataClient.has_char "*" s = false →
       DataClient.drop_stars (s +:+ "*") = s ∧ DataClient.drop_stars ("*" +:+ s) = s).
Proof.
  intros Hc. unfold DataClient.keys. rewrite primary_fallback by done. cbn [fst snd].
  split; [done|]. split.
  - unfold DataClient._keys_local. rewrite list_elem_of_filter, list_elem_of_fmap.
    split.
    + intros [Hpat (key & -> & Hin)].
      apply list_elem_of_fmap in Hin as ([k v] & -> & Hin).
      apply elem_of_map_to_list in Hin.
      cbn [fst] in *. split; [exists k; split; [by exists v | reflexivity]|].
      apply orb_prop in Hpat as [Hstar | Hpre]; [left | by right].
      by apply String.eqb_eq.
    + intros [(key & [v Hv] & ->) Hpat]. split.
      * apply orb_true_intro. destruct Hpat as [-> | Hpre]; [by left | by right].
      * exists key. split; [done|]. apply list_elem_of_fmap. exists (key, v).
        split; [done|]. by apply elem_of_map_to_list.
  - intros s Hs. split.
    + rewrite drop_stars_app, (drop_stars_no_star s Hs).
      change (DataClient.drop_stars "*") with EmptyString. apply append_empty.
    + simpl. by apply drop_stars_no_star.
Qed.

End listing.

(** The counters of the rate limiter beside another file. *)
Lemma keys_lists_names_by_prefix_witness :
  let e := DataClient.Entry (Json.JInt 1) Notions.new_year_2024 None in
  let c := DataClient.Client (R:=unit) false None
             {[ "rate_limit:twitter"%string := Some e; "sales"%string := Some e ]} in
  "rate_limit:twitter"%string ∈ (DataClient.keys c "rate_limit:*").1
  ∧ "sales"%string ∉ (DataClient.keys c "rate_limit:*").1.
Proof.
  intros e c.
  pose proof (λ name, proj1 (proj2 (keys_lists_names_by_prefix c "rate_limit:*" name eq_refl)))
    as Hkeys.
  split.
  - apply Hkeys. split; [|right; vm_compute; reflexivity].
    exists "rate_limit:twitter"%string. split; [|reflexivity].
    vm_compute. eexists. reflexivity.
  - intros Hin. apply Hkeys in Hin as [_ [Hstar | Hpre]]; [discriminate Hstar|].
    vm_compute in Hpre. discriminate Hpre.
Defined.

Section hashes.

Import Notions.
Context {R : Type} `{!Primary R}.
Implicit Types (c : DataClient.client R) (key field : string) (now later : Z).

(** Induction on documents, with the hypothesis for every item of an
    array and every member of an object. *)
Lemma doc_ind (P : Json.doc → Prop) :
  P Json.JNull →
  (∀ b, P (Json.JBool b)) →
  (∀ n, P (Json.JInt n)) →
  (∀ s, P (Json.JStr s)) →
  (∀ xs, Forall P xs → P (Json.JArr xs)) →
  (∀ members, Forall (λ member, P member.2) members → P (Json.JObj members)) →
  (∀ x, P (Json.JFloat x)) →
  ∀ j, P j.
Proof.
  intros HNull HBool HInt HStr HArr HObj HFloat.
  fix IH 1. intros [ | b | n | s | xs | members | x].
  - exact HNull.
  - apply HBool.
  - apply HInt.
  - apply HStr.
  - apply HArr. induction xs as [|y xs IHxs]; constructor; [apply IH | exact IHxs].
  - apply HObj. induction members as [|[n y] members IHm]; constructor;
      [apply IH | exact IHm].
  - apply HFloat.
Qed.

(** The items of a dictionary that JSON represents as it is. *)
Definition native_items (d : list (Py.key * Py.value)) : Prop :=
  Forall (λ item, is_str_key item.1 = true ∧ json_native item.2 = true) d ∧ NoDup d.*1.

Lemma native_items_dict (d : list (Py.key * Py.value)) :
  native_items d ↔ json_native (Py.VDict d) = true.
Proof.
  unfold native_items. cbn [json_native]. rewrite andb_true_iff, bool_decide_eq_true.
  rewrite forallb_forall, Forall_forall.
  split; intros [Hall Hdup]; (split; [|done]); intros item Hin.
  - apply andb_true_iff. apply Hall. by apply list_elem_of_In.
  - apply andb_true_iff. apply Hall. by apply list_elem_of_In.
Qed.

Lemma dict_set_native (a : string) (v : Py.value) (d : list (Py.key * Py.value)) :
  json_native v = true → native_items d → native_items (Py.dict_set (Py.KStr a) v d).
Proof.
  intros Hv [Hall Hdup].
  destruct (decide (Py.KStr a ∈ d.*1)) as [Hin | Hfresh].
  - assert (Hkeys : (Py.dict_set (Py.KStr a) v d).*1 = d.*1
                    ∧ Forall (λ item, is_str_key item.1 = true ∧ json_native item.2 = true)
                        (Py.dict_set (Py.KStr a) v d)).
    { clear Hdup. induction d as [|[k x] d IH]; [by inversion Hin|].
      apply Forall_cons in Hall as [[Hk Hx] Hall]. cbn.
      unfold Py.key_eqb. destruct k as [b| | | | |]; try done. cbn.
      destruct (decide (a = b)) as [-> | Hne].
      - rewrite bool_decide_eq_true_2 by done. cbn. split; [done|]. by constructor.
      - rewrite bool_decide_eq_false_2 by congruence. cbn.
        apply elem_of_cons in Hin as [[= ?] | Hin]; [done|].
        destruct (IH Hall Hin) as [-> Hrest]. split; [done|]. by constructor. }
    destruct Hkeys as [Hkeys Hitems]. split; [done | by rewrite Hkeys].
  - rewrite dict_set_fresh; [|by eapply Forall_impl; [exact Hall|]; intros ? [? _] | done].
    split.
    + apply Forall_app. split; [done|]. by repeat constructor.
    + rewrite fmap_app. cbn. apply NoDup_app. split; [done|]. split.
      * intros k Hk Hin. apply list_elem_of_singleton in Hin. by subst.
      * apply NoDup_singleton.
Qed.

(** What [json.loads] returns is represented by JSON as it is. *)
Lemma loads_native (j : Json.doc) : json_native (Json.loads j) = true.
Proof.
  induction j as [ | b | n | s | xs IH | members IH | x ] using doc_ind; try done.
  - cbn. induction xs as [|y xs IHxs]; [done|].
    apply Forall_cons in IH as [Hy IH]. cbn. by rewrite Hy, IHxs.
  - cbn [Json.loads]. apply native_items_dict.
    assert (Hacc : native_items []) by (split; constructor).
    revert Hacc. generalize (@nil (Py.key * Py.value)).
    induction members as [|[n y] members IHm]; intros acc Hacc; [done|].
    apply Forall_cons in IH as [Hy IH]. cbn. apply IHm; [done|].
    by apply dict_set_native.
Qed.

Lemma dict_get_set_eq (a : string) (v : Py.value) (d : list (Py.key * Py.value)) :
  Py.dict_get (Py.KStr a) (Py.dict_set (Py.KStr a) v d) = v.
Proof.
  induction d as [|[k x] d IH]; cbn.
  - unfold Py.key_eqb. by rewrite bool_decide_eq_true_2.
  - destruct (Py.key_eqb (Py.KStr a) k) eqn:Hk; cbn; by rewrite Hk.
Qed.

Lemma dict_get_set_ne (a b : string) (v : Py.value) (d : list (Py.key * Py.value)) :
  a ≠ b →
  Py.dict_get (Py.KStr b) (Py.dict_set (Py.KStr a) v d) = Py.dict_get (Py.KStr b) d.
Proof.
  intros Hne. induction d as [|[k x] d IH]; cbn.
  - unfold Py.key_eqb. rewrite bool_decide_eq_false_2; [done|]. cbn. congruence.
  - destruct (Py.key_eqb (Py.KStr a) k) eqn:Hk; cbn.
    + assert (Py.key_eqb (Py.KStr b) k = false) as ->; [|done].
      unfold Py.key_eqb in *. apply bool_decide_eq_true in Hk.
      apply bool_decide_eq_false. cbn in *. congruence.
    + by rewrite IH.
Qed.

Lemma dict_set_not_nil (k : Py.key) (v : Py.value) (d : list (Py.key * Py.value)) :
  Py.dict_set k v d ≠ [].
Proof. destruct d as [|[k' x] d]; cbn; [done|]. by destruct (Py.key_eqb k k'). Qed.

Lemma get_local_native (fs : DataClient.files) key now :
  json_native (DataClient._get_local fs key now).1 = true.
Proof.
  unfold DataClient._get_local.
  destruct (DataClient.file_key key); [|done].
  destruct (fs !! key) as [[e|]|]; [|done|done].
  destruct (DataClient.expires_at e) as [t|]; [|apply loads_native].
  destruct (t <? now); [done | apply loads_native].
Qed.

Lemma set_hash_local_dict (fs fs1 : DataClient.files) key field (v current : Py.value)
    (fields : list (Py.key * Py.value)) now :
  DataClient.file_key key = true →
  json_native v = true →
  DataClient._get_local fs key now = (current, fs1) →
  Py.or_else current (Py.VDict []) = Py.VDict fields →
  ∃ j, Json.loads j = Py.VDict (Py.dict_set (Py.KStr field) v fields)
       ∧ DataClient._set_hash_local fs key field v now
         = (true, <[key := Some (DataClient.Entry j now None)]> fs1).
Proof.
  intros Hfile Hv Hget Hfields.
  assert (Hitems : native_items fields).
  { apply native_items_dict. rewrite <- Hfields. unfold Py.or_else.
    pose proof (get_local_native fs key now) as Hnative. rewrite Hget in Hnative.
    by destruct (Py.truthy current). }
  pose proof (dict_set_native field v fields Hv Hitems) as Hset.
  apply native_items_dict in Hset.
  destruct (dumps_loads_native true _ Hset) as (j & Hj & Hloads).
  exists j. split; [done|].
  unfold DataClient._set_hash_local. rewrite Hget, Hfields.
  unfold DataClient._set_local. by rewrite Hfile, Hj.
Qed.

Lemma hash_of_dict (d : list (Py.key * Py.value)) :
  d ≠ [] → Py.or_else (Py.VDict d) (Py.VDict []) = Py.VDict d.
Proof. intros Hd. unfold Py.or_else. cbn. by rewrite bool_decide_eq_false_2. Qed.

(** X16.  Hashes on the fallback directory, for a key that is a file
    name and a value that JSON represents as it is.  When the key reads
    as a dictionary, or as nothing or another false value, [set_hash]
    returns [True]; afterwards, at any time, [get_hash] returns the
    value for the field and what it returned before for every other
    field, and [get_all_hash] returns the dictionary with the field set.
    When the key reads as another value (a counter, a text), [set_hash]
    returns [False] and the value stays. *)
Theorem set_hash_get_hash c key field (v : Py.value) now later :
  DataClient.use_redis c = false →
  DataClient.file_key key = true →
  json_native v = true →
  let current := (DataClient.get c key now).1 in
  let c' := (DataClient.set_hash c key field v now).2 in
  (∀ fields, Py.or_else current (Py.VDict []) = Py.VDict fields →
     (DataClient.set_hash c key field v now).1 = true
     ∧ (DataClient.get_hash c' key field later).1 = v
     ∧ (∀ other, other ≠ field →
          (DataClient.get_hash c' key other later).1
          = (DataClient.get_hash c key other now).1)
     ∧ (DataClient.get_all_hash c' key later).1
       = Py.VDict (Py.dict_set (Py.KStr field) v fields))
  ∧ ((∀ fields, Py.or_else current (Py.VDict []) ≠ Py.VDict fields) →
     (DataClient.set_hash c key field v now).1 = false
     ∧ (DataClient.get c' key now).1 = current).
Proof.
  intros Hc Hfile Hv current c'. subst current c'.
  rewrite get_fallback by done.
  unfold DataClient.set_hash, DataClient.get_hash, DataClient.get_all_hash.
  rewrite primary_fallback by done.
  destruct (DataClient._get_local (DataClient.local c) key now) as [current fs1] eqn:Hget.
  rewrite (on_local_eq c _ _ _ Hget). cbn [fst]. split.
  - intros fields Hfields.
    destruct (set_hash_local_dict _ _ key field v _ _ now Hfile Hv Hget Hfields)
      as (j & Hloads & Hset).
    rewrite (on_local_eq c _ _ _ Hset). cbn [fst snd].
    rewrite primary_fallback by done.
    assert (Hread : ∀ t, DataClient._get_local
                           (<[key := Some (DataClient.Entry j now None)]> fs1) key t
                         = (Py.VDict (Py.dict_set (Py.KStr field) v fields),
                            <[key := Some (DataClient.Entry j now None)]> fs1)).
    { intros t. rewrite (get_local_live _ _ (DataClient.Entry j now None));
        [by rewrite <- Hloads | done | apply lookup_insert_eq | done]. }
    pose proof (hash_of_dict _ (dict_set_not_nil (Py.KStr field) v fields)) as Hor.
    split; [done|]. split; [|split].
    + unfold DataClient.on_local, DataClient._get_hash_local. cbn [DataClient.local].
      rewrite Hread, Hor. cbn. apply dict_get_set_eq.
    + intros other Hne.
      unfold DataClient.on_local, DataClient._get_hash_local. cbn [DataClient.local].
      rewrite Hread, Hor, Hget, Hfields. cbn. by apply dict_get_set_ne.
    + unfold DataClient.on_local, DataClient._get_all_hash_local. cbn [DataClient.local].
      by rewrite Hread, Hor.
  - intros Hother.
    assert (Hset : DataClient._set_hash_local (DataClient.local c) key field v now
                   = (false, fs1)).
    { unfold DataClient._set_hash_local. rewrite Hget.
      destruct (Py.or_else current (Py.VDict [])) as [ | | | | | | fields | | ] eqn:Hor;
        try done. by destruct (Hother fields). }
    rewrite (on_local_eq c _ _ _ Hset). cbn [fst snd]. split; [done|].
    rewrite get_fallback by done. unfold DataClient.on_local. cbn [DataClient.local].
    pose proof (get_local_same_reads (DataClient.local c) key now key) as Hsame.
    rewrite Hget in Hsame. cbn [snd] in Hsame.
    cbn in Hsame |- *.
    by destruct (DataClient._get_local fs1 key now) as [again fs2].
Qed.

End hashes.

(** A plan is added to a stored profile that was about to expire. *)
Lemma set_hash_get_hash_witness :
  let profile := DataClient.Entry (Json.JObj [("name"%string, Json.JStr "Ana")]) 0
                   (Some 60000000) in
  let c := DataClient.Client (R:=unit) false None {[ "profile"%string := Some profile ]} in
  (DataClient.set_hash c "profile" "plan" (Py.VStr "pro") 1000000).1 = true
  ∧ (DataClient.get_all_hash
       (DataClient.set_hash c "profile" "plan" (Py.VStr "pro") 1000000).2
       "profile" 90000000).1
    = Py.VDict [(Py.KStr "name", Py.VStr "Ana"); (Py.KStr "plan", Py.VStr "pro")].
Proof.
  intros profile c.
  destruct (@set_hash_get_hash unit unreachable c "profile" "plan"
              (Py.VStr "pro") 1000000 90000000
              ltac:(vm_compute; reflexivity) ltac:(vm_compute; reflexivity)
              ltac:(vm_compute; reflexivity)) as [Hdict _].
  destruct (Hdict [(Py.KStr "name", Py.VStr "Ana")] ltac:(vm_compute; reflexivity))
    as (Hset & _ & _ & Hall).
  split; [exact Hset | exact Hall].
Defined.

(** ** Texts that [detect_sql_injection] flags *)

Section sql_patterns.

Import Validation.

Lemma append_cons (ch : ascii) (s1 s2 : string) :
  String ch s1 +:+ s2 = String ch (s1 +:+ s2).
Proof. reflexivity. Qed.

Lemma string_app_assoc (s1 s2 s3 : string) : (s1 +:+ s2) +:+ s3 = s1 +:+ s2 +:+ s3.
Proof.
  induction s1 as [|ch s1 IH]; [done|]. rewrite !append_cons. by f_equal.
Qed.

Lemma upper_app (s1 s2 : string) : upper (s1 +:+ s2) = upper s1 +:+ upper s2.
Proof.
  induction s1 as [|ch s1 IH]; [done|].
  rewrite append_cons. cbn [upper]. by rewrite IH, string_app_assoc.
Qed.


Lemma search_from_here (p : pattern) (prev : option ascii) (s : string) :
  found_at p prev s = true → search_from p prev s = true.
Proof. intros Hfound. destruct s; cbn [search_from]; by rewrite Hfound. Qed.

(** A match after the prefix [a] is a match in the text. *)
Lemma search_from_app (p : pattern) (a s : string) :
  ∀ prev, search_from p (last_char prev a) s = true →
          search_from p prev (a +:+ s) = true.
Proof.
  induction a as [|ch a IH]; intros prev Hs; [done|].
  rewrite append_cons. cbn [search_from last_char] in *.
  rewrite (IH _ Hs). apply orb_true_r.
Qed.

Lemma matches_step (right : bool) (r : Regex.regex) (prev : option ascii)
    (ch : ascii) (s : string) :
  matches right (Regex.deriv ch r) (Some ch) s = true →
  matches right r prev (String ch s) = true.
Proof. intros Hs. cbn [matches]. rewrite Hs. apply orb_true_r. Qed.

Lemma matches_here (right : bool) (r : Regex.regex) (prev : option ascii) (s : string) :
  Regex.nullable r = true →
  (right = true → boundary prev (head s) = true) →
  matches right r prev s = true.
Proof.
  intros Hnull Hright.
  assert (Hfirst : Regex.nullable r && (negb right || boundary prev (head s)) = true).
  { rewrite Hnull. destruct right; [by rewrite Hright | done]. }
  destruct s; cbn [matches]; by rewrite Hfirst.
Qed.


Lemma last_char_upper_char (prev1 prev2 : option ascii) (ch : ascii) :
  last_char prev1 (upper_char ch) = last_char prev2 (upper_char ch).
Proof. destruct ch as [[] [] [] [] [] [] [] []]; vm_compute; reflexivity. Qed.




Lemma detect_by_pattern (p : pattern) (text : string) :
  p ∈ SQL_INJECTION_PATTERNS → search p (upper text) = true →
  detect_sql_injection text = true.
Proof.
  intros Hp Hs. unfold detect_sql_injection. apply existsb_exists.
  exists p. split; [by apply list_elem_of_In | done].
Qed.

(** X17.  The comment marks [--], [#], [/*] and [*/] anywhere in a text
    make [detect_sql_injection] return [True]: every text with a hashtag
    in it is flagged. *)
Theorem detect_sql_injection_comment_marks (a mark b : string) :
  mark ∈ COMMENT_MARKS →
  detect_sql_injection (a +:+ mark +:+ b) = true.
Proof.
  intros Hmark.
  apply (detect_by_pattern (Pattern false (alternatives (Regex.lit <$> COMMENT_MARKS)) false)).
  { unfold SQL_INJECTION_PATTERNS.
    do 3 apply list_elem_of_further. apply list_elem_of_here. }
  rewrite !upper_app. unfold search. apply search_from_app, search_from_here.
  generalize (last_char None (upper a)) (upper b). intros prev rest.
  unfold COMMENT_MARKS in Hmark.
  unfold found_at. cbn [left_boundary right_boundary body negb orb andb].
  repeat (apply elem_of_cons in Hmark as [-> | Hmark];
    [repeat (apply matches_step); by apply matches_here|]).
  by apply elem_of_nil in Hmark.
Qed.

Lemma detect_sql_injection_comment_marks_witness :
  Validation.detect_sql_injection "Big launch today! #startup" = true.
Proof.
  apply (detect_sql_injection_comment_marks "Big launch today! " "#" "startup").
  apply (bool_decide_unpack _). vm_compute. exact I.
Defined.



End sql_patterns.


(** ** What [sanitize_for_social] returns *)

Section social_content.

Import Validation.

Variable bleach_clean : string → string.

(** X19.  A text with a comment mark of SQL in it, a hashtag or a double
    hyphen, is not posted: for every platform [sanitize_for_social]
    returns the empty string, and the validation holds the error of the
    SQL check. *)
Theorem sanitize_for_social_rejects_marks (a mark b platform : string) :
  mark ∈ COMMENT_MARKS →
  sanitize_for_social bleach_clean (a +:+ mark +:+ b) platform = EmptyString
  ∧ "Potential SQL injection detected"%string
    ∈ errors (validate_social_content bleach_clean (a +:+ mark +:+ b) platform).
Proof.
  intros Hmark. pose proof (detect_sql_injection_comment_marks a mark b Hmark) as Hsql.
  unfold sanitize_for_social, validate_social_content. cbn [valid content errors].
  rewrite Hsql. cbn [negb]. rewrite andb_false_r. cbn [andb]. split; [done|].
  apply elem_of_app. right. apply elem_of_app. left. apply list_elem_of_here.
Qed.

(** X20.  What [sanitize_for_social] returns is within the limit of the
    platform, 280, 500, 2000 or 1000 characters; it is the empty string,
    or else [sanitize_text] of the content with that limit, and then the
    content has no match of a pattern of SQL or of a dangerous
    pattern. *)
Theorem sanitize_for_social_within_limit (text platform : string) :
  let out := sanitize_for_social bleach_clean text platform in
  Z.of_nat (String.length out) <= platform_limit platform
  ∧ (out = EmptyString
     ∨ out = Security.sanitize_text bleach_clean text (Some (platform_limit platform))
       ∧ detect_sql_injection text = false
       ∧ Forall (λ sp, search (Pattern false sp.2 false) text = false) DANGEROUS_PATTERNS).
Proof.
  intros out. subst out.
  assert (Hlimit : 3 <= platform_limit platform).
  { unfold platform_limit. repeat case_match; lia. }
  unfold sanitize_for_social, validate_social_content. cbn [valid content].
  destruct (bool_decide _ && negb _ && negb _) eqn:Hvalid.
  - split; [by apply sanitize_text_within_limit|]. right.
    apply andb_prop in Hvalid as [Hvalid _]. apply andb_prop in Hvalid as [Hnone Hsql].
    apply bool_decide_eq_true in Hnone. apply negb_true_iff in Hsql.
    split; [done|]. split; [done|].
    apply Forall_forall. intros sp Hsp.
    destruct (search (Pattern false sp.2 false) text) eqn:Hfound; [|done].
    assert (Hin : In sp (List.filter (λ sp, search (Pattern false sp.2 false) text)
                           DANGEROUS_PATTERNS)).
    { apply filter_In. split; [by apply list_elem_of_In | done]. }
    rewrite Hnone in Hin. destruct Hin.
  - split; [cbn; lia | by left].
Qed.

End social_content.

Lemma sanitize_for_social_rejects_marks_witness :
  Validation.sanitize_for_social (λ s, s) "Big launch today! #startup" "twitter"
  = EmptyString.
Proof.
  apply (sanitize_for_social_rejects_marks (λ s, s) "Big launch today! " "#" "startup"
           "twitter").
  apply (bool_decide_unpack _). vm_compute. exact I.
Defined.

(** The same text without the hashtag is posted as it is. *)
Example sanitize_for_social_plain :
  Validation.sanitize_for_social (λ s, s) "Big launch today!" "twitter"
  = "Big launch today!"%string.
Proof. vm_compute. reflexivity. Qed.
